(** * Reading-list service: users, items, tags and their association

    A shallow embedding of the service layer ([service.py]), the
    persistence schema ([models.py]) and the FastAPI routers
    ([routers/*.py]).  The SQLite database behind [sync_session] is an
    explicit value [DB] threaded through every operation; an operation
    that raises returns the exception together with the database as the
    failed transaction left it. *)

From Stdlib Require Import ZArith List String Ascii Bool Lia.
From Stdlib Require Import Permutation Sorted.
Import ListNotations.

Open Scope string_scope.
Open Scope list_scope.
Open Scope Z_scope.

(** ** enums.py *)

Module ItemKind.
Inductive t := book | article.
Definition value (k : t) : string :=
  match k with book => "book" | article => "article" end.
End ItemKind.

Module ItemStatus.
Inductive t := planned | reading | done.
Definition value (s : t) : string :=
  match s with planned => "planned" | reading => "reading" | done => "done" end.
End ItemStatus.

Module ItemPriority.
Inductive t := low | normal | high.
Definition value (p : t) : string :=
  match p with low => "low" | normal => "normal" | high => "high" end.
End ItemPriority.

Module SortField.
Inductive t := created_at | updated_at.
Definition value (f : t) : string :=
  match f with created_at => "created_at" | updated_at => "updated_at" end.
End SortField.

Module SortOrder.
Inductive t := asc | desc.
Definition value (o : t) : string :=
  match o with asc => "asc" | desc => "desc" end.
End SortOrder.

(** ** models.py

    One record per mapped class, one field per [Column].  A [DateTime]
    is an integer instant; a nullable column is an [option]. *)

Module User.
Record t := mk {
  id : Z;
  email : string;
  display_name : string;
  created_at : option Z
}.
End User.

Module Item.
Record t := mk {
  id : Z;
  user_id : Z;
  title : string;
  kind : string;
  status : string;
  priority : string;
  notes : option string;
  created_at : option Z;
  updated_at : option Z
}.
End Item.

Module Tag.
Record t := mk {
  id : Z;
  user_id : Z;
  name : string
}.
End Tag.

(** An [Item] instance with its [tags] relationship loaded. *)
Record ItemWithTags := { item : Item.t; item_tags : list Tag.t }.

(** The database file: the four tables in rowid order, the
    [sqlite_sequence] counters kept for the three
    [sqlite_autoincrement] tables, and the connection's [foreign_keys]
    pragma.  [create_engine] is called without any connect hook, so the
    pragma has whatever value the SQLite build defaults to (off, unless
    compiled otherwise); the development keeps it as a field and the
    results below hold for both values. *)
Record DB := mkDB {
  users : list User.t;
  items : list Item.t;
  tags : list Tag.t;
  item_tag : list (Z * Z);   (* (item_id, tag_id) *)
  seq_users : Z;
  seq_items : Z;
  seq_tags : Z;
  foreign_keys : bool
}.

(** [Base.metadata.create_all(engine)] on a new file. *)
Definition create_all (fk : bool) : DB := mkDB [] [] [] [] 0 0 0 fk.

(** The generic operations of the service layer are typed by
    [T = TypeVar("T", bound=Base)]: what they use of a mapped class is
    its table and its [id] column. *)
Inductive table := users_table | items_table | tags_table.

Class Mapped (T : Type) := {
  tablename : table;
  rows : DB -> list T;
  pk : T -> Z
}.

#[export] Instance User_Mapped : Mapped User.t :=
  {| tablename := users_table; rows := users; pk := User.id |}.
#[export] Instance Item_Mapped : Mapped Item.t :=
  {| tablename := items_table; rows := items; pk := Item.id |}.
#[export] Instance Tag_Mapped : Mapped Tag.t :=
  {| tablename := tags_table; rows := tags; pk := Tag.id |}.

(** ** The storage engine *)

Inductive exn :=
| IntegrityError (orig : string).

(** [str(e)] as far as the driver's message; the statement, the
    parameters and the link that SQLAlchemy appends to it are left out,
    and no result below states a detail built from it. *)
Definition str (e : exn) : string :=
  match e with IntegrityError orig => "(sqlite3.IntegrityError) " ++ orig end.

(** Outcome of a unit of work: the database after it, and the exception
    it raised, if any.  The instant the server clock shows when a row
    with a [server_default] column is written is the [now] argument of
    the operation that writes it. *)
Inductive outcome :=
| Committed (db : DB)
| Raised (e : exn) (db : DB).

Definition db_of (o : outcome) : DB :=
  match o with Committed db => db | Raised _ db => db end.

(** A transaction body: statements run against the database in turn, the
    first one to fail aborts the rest. *)
Definition txn (A : Type) : Type := DB -> exn + (A * DB).

Definition ret {A} (a : A) : txn A := fun db => inr (a, db).

Definition bind {A B} (m : txn A) (k : A -> txn B) : txn B :=
  fun db => match m db with
            | inl e => inl e
            | inr (a, db') => k a db'
            end.

Notation "x <- m ;; k" := (bind m (fun x => k))
  (at level 61, m at next level, right associativity).
Notation "m ;;; k" := (bind m (fun _ => k))
  (at level 61, right associativity).

(** [session.commit()] at the end of a [with sync_session()] block: the
    work is kept if every statement went through, and rolled back to the
    state the transaction started from if one raised. *)
Definition commit {A} (m : txn A) (db : DB) : outcome :=
  match m db with
  | inl e => Raised e db
  | inr (_, db') => Committed db'
  end.

Module Sqlite.

(** The driver binds a Python [int] parameter as a 64-bit INTEGER and
    raises [OverflowError] for any other, before the statement reaches
    the engine.  The operations of this module are the statements that
    reach it; a result about an id that need not be stored names this
    range among its hypotheses. *)
Definition int64 (n : Z) : Prop := - 2 ^ 63 <= n < 2 ^ 63.

Definition list_max (l : list Z) : Z := fold_right Z.max 0 l.

(** AUTOINCREMENT: one more than the largest rowid the table has ever
    held. *)
Definition next_rowid (seq : Z) (ids : list Z) : Z :=
  Z.max seq (list_max ids) + 1.

Definition has_user (db : DB) (uid : Z) : bool :=
  existsb (fun u => User.id u =? uid) (users db).
Definition has_item (db : DB) (iid : Z) : bool :=
  existsb (fun i => Item.id i =? iid) (items db).
Definition has_tag (db : DB) (tid : Z) : bool :=
  existsb (fun t => Tag.id t =? tid) (tags db).

Definition pair_eqb (p q : Z * Z) : bool :=
  (fst p =? fst q) && (snd p =? snd q).

(** INSERT INTO users: [email] is UNIQUE; [created_at] takes its
    server default.  Returns the new row's id. *)
Definition insert_user (email display_name : string) (now : Z) : txn Z :=
  fun db =>
  if existsb (fun u => User.email u =? email)%string (users db) then
    inl (IntegrityError "UNIQUE constraint failed: users.email")
  else
    let id := next_rowid (seq_users db) (map User.id (users db)) in
    inr (id,
         mkDB (users db ++ [User.mk id email display_name (Some now)])
              (items db) (tags db) (item_tag db)
              id (seq_items db) (seq_tags db) (foreign_keys db)).

(** INSERT INTO items: [user_id] references users.id; [updated_at]
    has no insert default. *)
Definition insert_item (user_id : Z) (title kind status priority : string)
    (notes : option string) (created_at : Z) : txn Z :=
  fun db =>
  if foreign_keys db && negb (has_user db user_id) then
    inl (IntegrityError "FOREIGN KEY constraint failed")
  else
    let id := next_rowid (seq_items db) (map Item.id (items db)) in
    inr (id,
         mkDB (users db)
              (items db ++ [Item.mk id user_id title kind status priority
                                    notes (Some created_at) None])
              (tags db) (item_tag db)
              (seq_users db) id (seq_tags db) (foreign_keys db)).

(** INSERT INTO tags: UNIQUE (user_id, name), [user_id] references
    users.id. *)
Definition insert_tag (user_id : Z) (name : string) : txn Z :=
  fun db =>
  if existsb (fun t => (Tag.user_id t =? user_id)
                       && (Tag.name t =? name)%string) (tags db) then
    inl (IntegrityError "UNIQUE constraint failed: tags.user_id, tags.name")
  else if foreign_keys db && negb (has_user db user_id) then
    inl (IntegrityError "FOREIGN KEY constraint failed")
  else
    let id := next_rowid (seq_tags db) (map Tag.id (tags db)) in
    inr (id,
         mkDB (users db) (items db)
              (tags db ++ [Tag.mk id user_id name]) (item_tag db)
              (seq_users db) (seq_items db) id (foreign_keys db)).

(** INSERT INTO item_tag: PRIMARY KEY (item_id, tag_id), both halves
    foreign keys. *)
Definition insert_item_tag (item_id tag_id : Z) : txn unit :=
  fun db =>
  if existsb (pair_eqb (item_id, tag_id)) (item_tag db) then
    inl (IntegrityError
           "UNIQUE constraint failed: item_tag.item_id, item_tag.tag_id")
  else if foreign_keys db
          && negb (has_item db item_id && has_tag db tag_id) then
    inl (IntegrityError "FOREIGN KEY constraint failed")
  else
    inr (tt,
         mkDB (users db) (items db) (tags db)
              (item_tag db ++ [(item_id, tag_id)])
              (seq_users db) (seq_items db) (seq_tags db) (foreign_keys db)).

(** DELETE FROM item_tag WHERE item_id = ? AND tag_id = ? *)
Definition delete_item_tag (item_id tag_id : Z) : txn unit :=
  fun db =>
  inr (tt,
       mkDB (users db) (items db) (tags db)
            (filter (fun p => negb (pair_eqb p (item_id, tag_id)))
                    (item_tag db))
            (seq_users db) (seq_items db) (seq_tags db) (foreign_keys db)).

(** DELETE FROM <table> WHERE id = ?.  The only ON DELETE actions in
    the schema are the two CASCADEs of item_tag; items.user_id and
    tags.user_id are declared with a bare [ForeignKey('users.id')],
    i.e. NO ACTION.  All of it is enforced only under the
    [foreign_keys] pragma. *)
Definition delete_by_id (tbl : table) (id : Z) : txn unit :=
  fun db =>
  match tbl with
  | users_table =>
      if foreign_keys db && has_user db id
         && (existsb (fun i => Item.user_id i =? id) (items db)
             || existsb (fun t => Tag.user_id t =? id) (tags db)) then
        inl (IntegrityError "FOREIGN KEY constraint failed")
      else
        inr (tt,
             mkDB (filter (fun u => negb (User.id u =? id)) (users db))
                  (items db) (tags db) (item_tag db)
                  (seq_users db) (seq_items db) (seq_tags db)
                  (foreign_keys db))
  | items_table =>
      inr (tt,
           mkDB (users db)
                (filter (fun i => negb (Item.id i =? id)) (items db))
                (tags db)
                (if foreign_keys db && has_item db id
                 then filter (fun p => negb (fst p =? id)) (item_tag db)
                 else item_tag db)
                (seq_users db) (seq_items db) (seq_tags db)
                (foreign_keys db))
  | tags_table =>
      inr (tt,
           mkDB (users db) (items db)
                (filter (fun t => negb (Tag.id t =? id)) (tags db))
                (if foreign_keys db && has_tag db id
                 then filter (fun p => negb (snd p =? id)) (item_tag db)
                 else item_tag db)
                (seq_users db) (seq_items db) (seq_tags db)
                (foreign_keys db))
  end.

End Sqlite.

(** Expression and query semantics of the engine, as far as
    [get_filtered_items] relies on them. *)
Module Sql.

(** SQLite folds case for the 26 ASCII letters only. *)
Definition ascii_lower (c : ascii) : ascii :=
  let n := nat_of_ascii c in
  if (65 <=? n)%nat && (n <=? 90)%nat then ascii_of_nat (n + 32) else c.

Fixpoint lower (s : string) : string :=
  match s with
  | EmptyString => EmptyString
  | String c s' => String (ascii_lower c) (lower s')
  end.

(** The engine reads both operands of LIKE as C strings: up to their
    first NUL. *)
Fixpoint c_str (s : string) : string :=
  match s with
  | EmptyString => EmptyString
  | String c s' =>
      if (c =? Ascii.zero)%char then EmptyString else String c (c_str s')
  end.

Fixpoint nul_free (s : string) : bool :=
  match s with
  | EmptyString => true
  | String c s' => negb (c =? Ascii.zero)%char && nul_free s'
  end.

(** The engine reads the two noncharacters U+FFFE and U+FFFF as U+FFFD.
    In UTF-8 they are the bytes 239 191 190 and 239 191 191. *)
Fixpoint noncharacter_free (s : string) : bool :=
  match s with
  | EmptyString => true
  | String a t =>
      match t with
      | String b (String c _) =>
          negb ((nat_of_ascii a =? 239)%nat && (nat_of_ascii b =? 191)%nat
                && (190 <=? nat_of_ascii c)%nat && (nat_of_ascii c <=? 191)%nat)
      | _ => true
      end
      && noncharacter_free t
  end.

(** A text the matcher reads whole and character by character as it is
    written. *)
Definition read_as_written (s : string) : bool :=
  nul_free s && noncharacter_free s.

(** SQLITE_MAX_LIKE_PATTERN_LENGTH: a longer pattern is refused with
    the error "LIKE or GLOB pattern too complex".  [like] below is the
    operator on patterns within the limit. *)
Definition max_like_pattern_length : Z := 50000.

(** The matcher behind LIKE: [%] stands for any run of characters, [_]
    for exactly one, any other character for itself up to ASCII case.
    No escape character is in force.  Text is held as its UTF-8 bytes
    and compared byte by byte, which compares the characters of a text
    that is [read_as_written]; [_] takes one byte, which is one
    character of ASCII text. *)
Fixpoint pattern_compare (pattern : string) : string -> bool :=
  match pattern with
  | EmptyString =>
      fun s => match s with EmptyString => true | String _ _ => false end
  | String c p' =>
      if (c =? "%")%char then
        fix any (s : string) : bool :=
          pattern_compare p' s
          || match s with
             | EmptyString => false
             | String _ s' => any s'
             end
      else if (c =? "_")%char then
        fun s => match s with
                 | EmptyString => false
                 | String _ s' => pattern_compare p' s'
                 end
      else
        fun s => match s with
                 | EmptyString => false
                 | String d s' =>
                     (ascii_lower c =? ascii_lower d)%char
                     && pattern_compare p' s'
                 end
  end.

(** [subject LIKE pattern] *)
Definition like (pattern subject : string) : bool :=
  pattern_compare (c_str pattern) (c_str subject).

(** [column.ilike(pattern)] is compiled for SQLite to
    [lower(column) LIKE lower(pattern)]. *)
Definition ilike (subject pattern : string) : bool :=
  like (lower pattern) (lower subject).

(** Values an ORDER BY column takes here: NULL, a stored [DateTime],
    a string.  NULL sorts first; strings compare bytewise. *)
Inductive value :=
| Null
| DateTime (t : Z)
| Text (s : string).

Definition of_datetime (o : option Z) : value :=
  match o with Some t => DateTime t | None => Null end.

Definition leb (a b : value) : bool :=
  match a, b with
  | Null, _ => true
  | _, Null => false
  | DateTime x, DateTime y => x <=? y
  | DateTime _, Text _ => true
  | Text _, DateTime _ => false
  | Text x, Text y => String.leb x y
  end.

Section OrderBy.
Context {A : Type} (le : A -> A -> bool).

Fixpoint insert (x : A) (l : list A) : list A :=
  match l with
  | [] => [x]
  | y :: l' => if le x y then x :: l else y :: insert x l'
  end.

(** ORDER BY.  The engine leaves the order of rows with equal keys
    open; here they stay in the order they were scanned, and nothing
    proved below depends on that choice. *)
Definition order_by (l : list A) : list A := fold_right insert [] l.
End OrderBy.

Definition asc {A} (col : A -> value) (a b : A) : bool :=
  leb (col a) (col b).
Definition desc {A} (col : A -> value) (a b : A) : bool :=
  leb (col b) (col a).

(** A negative OFFSET counts as zero, a negative LIMIT as none. *)
Definition offset {A} (n : Z) (l : list A) : list A := skipn (Z.to_nat n) l.
Definition limit {A} (n : Z) (l : list A) : list A :=
  if n <? 0 then l else firstn (Z.to_nat n) l.

End Sql.

(** Mapped classes with a [user_id] column ([get_models_by_user_id]).
    [owner_index] is the column that follows [user_id] in an index of
    the table, when there is one: the engine answers a search by owner
    from that index and returns the rows in its order.  [tags] has the
    index behind [uq_user_tag_name], on (user_id, name), which holds
    every column of the table; [items] has no index on [user_id] and is
    scanned in rowid order. *)
Class Owned (T : Type) `{Mapped T} := {
  owner : T -> Z;
  owner_index : option (T -> Sql.value)
}.
#[export] Instance Item_Owned : Owned Item.t :=
  {| owner := Item.user_id; owner_index := None |}.
#[export] Instance Tag_Owned : Owned Tag.t :=
  {| owner := Tag.user_id;
     owner_index := Some (fun t => Sql.Text (Tag.name t)) |}.

Definition Item_eq_dec (a b : Item.t) : {a = b} + {a <> b}.
Proof.
  decide equality;
    try apply Z.eq_dec; try apply string_dec;
    decide equality; try apply Z.eq_dec; apply string_dec.
Defined.

(** ** schema.py *)

Record UserBaseSchema := { us_email : string; us_display_name : string }.

Record ItemBaseSchema := {
  is_title : string;
  is_kind : ItemKind.t;
  is_status : ItemStatus.t;
  is_priority : ItemPriority.t;
  is_notes : option string
}.

Record TagBaseSchema := { ts_name : string }.



(** ** service.py *)

(** [create_model] builds the mapped object from the dumped schema and
    the keyword arguments and hands it to [session.add]: what each
    mapped class is built from, and the INSERT its flush emits. *)
Class Creatable (T : Type) `{Mapped T} := {
  schema : Type;
  kwargs : Type;
  flush_new : schema -> kwargs -> Z -> txn Z
}.

#[export] Instance User_Creatable : Creatable User.t := {|
  schema := UserBaseSchema;
  kwargs := unit;
  flush_new := fun s _ now =>
    Sqlite.insert_user (us_email s) (us_display_name s) now
|}.

#[export] Instance Item_Creatable : Creatable Item.t := {|
  schema := ItemBaseSchema;
  kwargs := Z;
  flush_new := fun s user_id now =>
    Sqlite.insert_item user_id (is_title s) (ItemKind.value (is_kind s))
      (ItemStatus.value (is_status s)) (ItemPriority.value (is_priority s))
      (is_notes s) now
|}.

#[export] Instance Tag_Creatable : Creatable Tag.t := {|
  schema := TagBaseSchema;
  kwargs := Z;
  flush_new := fun s user_id _ => Sqlite.insert_tag user_id (ts_name s)
|}.

(** The instants the seed populator reads: the server default of the two
    user rows and the three [datetime.utcnow()] calls. *)
Record SeedClock := {
  t_user1 : Z; t_user2 : Z; t_item1 : Z; t_item2 : Z; t_item3 : Z
}.

Module Service.

(** [model_id] is bound as a parameter of the statement: the function
    is the lookup for an id within [Sqlite.int64]. *)
Definition get_model_by_id {T} `{Mapped T} (model_id : Z) (db : DB)
  : option T :=
  find (fun r => pk r =? model_id) (rows db).

Definition get_all_models {T} `{Mapped T} (db : DB) : list T := rows db.

(** A bulk DELETE, for an id within [Sqlite.int64]. *)
Definition delete_model_by_id {T} `{Mapped T} (model_id : Z) (db : DB)
  : outcome :=
  commit (Sqlite.delete_by_id (tablename (T:=T)) model_id) db.

Definition create_model {T} `{Creatable T} (s : schema) (kw : kwargs)
    (now : Z) (db : DB) : outcome :=
  commit (flush_new s kw now) db.

(** The statement has no ORDER BY: the rows come as the engine finds
    them. *)
Definition get_models_by_user_id {T} `{Owned T} (user_id : Z) (db : DB)
  : list T :=
  let found := filter (fun r => owner r =? user_id) (rows db) in
  match owner_index with
  | Some col => Sql.order_by (Sql.asc col) found
  | None => found
  end.

(** [joinedload(Item.tags)]: the tags reached from the item through
    the [item_tag] secondary table, in the order the links were made,
    which is the order a fetch by id loads them in.  A statement that
    loads many items may bring the tags of one item in another order. *)
Definition joinedload (db : DB) (i : Item.t) : ItemWithTags :=
  {| item := i;
     item_tags :=
       flat_map (fun p =>
                   if fst p =? Item.id i
                   then filter (fun t => Tag.id t =? snd p) (tags db)
                   else [])
                (item_tag db) |}.

(** A row of the FROM clause of the search: an item, and the tag it is
    joined with once [stmt.join(Item.tags)] has been applied. *)
Definition from_row : Type := Item.t * option Tag.t.

Definition from_items (db : DB) : list from_row :=
  map (fun i => (i, None)) (items db).

Definition join_tags (db : DB) : list from_row :=
  flat_map (fun i =>
    flat_map (fun p =>
                if fst p =? Item.id i
                then map (fun t => (i, Some t))
                         (filter (fun t => Tag.id t =? snd p) (tags db))
                else [])
             (item_tag db))
    (items db).

(** [if x:] on an optional string. *)
Definition truthy (o : option string) : option string :=
  match o with
  | Some s => if (s =? EmptyString)%string then None else Some s
  | None => None
  end.

Definition when {A} (o : option A) (f : A -> from_row -> bool)
  : list (from_row -> bool) :=
  match o with Some a => [f a] | None => [] end.

Definition in_ (names : list string) (r : from_row) : bool :=
  match snd r with
  | Some t => existsb (String.eqb (Tag.name t)) names
  | None => false
  end.

(** [created_at >= bound] and [created_at <= bound].  The engine
    compares the stored text of the column with the text of the bound;
    both are written year first, so the order is that of the instants,
    but for one case: a [created_at] written by the server default
    carries no fraction of a second and compares below a bound of the
    same instant.  The two functions decide by the instants; what is
    stated of the lower bound leaves the case of equal instants out. *)
Definition ge_datetime (col : option Z) (d : Z) : bool :=
  match col with Some t => d <=? t | None => false end.
Definition le_datetime (col : option Z) (d : Z) : bool :=
  match col with Some t => t <=? d | None => false end.

(** The pattern of the title filter: the substring between two [%]. *)
Definition title_pattern (title_substring : string) : string :=
  ("%" ++ title_substring ++ "%")%string.

(** The filters on plain columns, in the order they are appended. *)
Definition column_filters (status kind priority title_substring
    : option string) (created_from created_to : option Z)
  : list (from_row -> bool) :=
  when (truthy status)
       (fun s r => (Item.status (fst r) =? s)%string)
  ++ when (truthy kind)
       (fun s r => (Item.kind (fst r) =? s)%string)
  ++ when (truthy priority)
       (fun s r => (Item.priority (fst r) =? s)%string)
  ++ when (truthy title_substring)
       (fun s r => Sql.ilike (Item.title (fst r)) (title_pattern s))
  ++ when created_from
       (fun d r => ge_datetime (Item.created_at (fst r)) d)
  ++ when created_to
       (fun d r => le_datetime (Item.created_at (fst r)) d).

(** The statement up to its WHERE clause:
    [select(Item).distinct()], the join and the membership filter when
    [tag_names] is a non-empty list, and [where(and_( *filters))]; an
    empty filter list leaves the statement without a WHERE. *)
Definition select_items
    (status kind priority : option string)
    (tag_names : option (list string))
    (title_substring : option string)
    (created_from created_to : option Z)
    (db : DB) : list Item.t :=
  let filters :=
    column_filters status kind priority title_substring
                   created_from created_to in
  let '(from, filters) :=
    match tag_names with
    | Some (n :: ns) => (join_tags db, filters ++ [in_ (n :: ns)])
    | _ => (from_items db, filters)
    end in
  nodup Item_eq_dec
        (map fst (filter (fun r => forallb (fun f => f r) filters) from)).

Definition sort_col_map : list (string * (Item.t -> Sql.value)) :=
  [ ("created_at", fun i => Sql.of_datetime (Item.created_at i));
    ("updated_at", fun i => Sql.of_datetime (Item.updated_at i));
    ("priority", fun i => Sql.Text (Item.priority i)) ].

(** [dict.get(key, default)] *)
Fixpoint get {V} (d : list (string * V)) (key : string) (default : V) : V :=
  match d with
  | [] => default
  | (k, v) :: d' => if (k =? key)%string then v else get d' key default
  end.

(** The ORDER BY clause: the column looked up in [sort_col_map], and the
    direction chosen by [sort_order.lower() == "desc"].  Lowering the
    ASCII letters decides that test as [str.lower] does: no character
    outside ASCII lowers to one of d, e, s, c. *)
Definition ordering (sort_field sort_order : string)
  : Item.t -> Item.t -> bool :=
  let sort_col :=
    get sort_col_map sort_field
        (fun i => Sql.of_datetime (Item.created_at i)) in
  if (Sql.lower sort_order =? "desc")%string
  then Sql.desc sort_col
  else Sql.asc sort_col.

(** The eager load wraps the limited statement in a subquery and joins
    the tags to it through an alias of their own, so LIMIT and OFFSET
    count items, and the tags loaded are all of the item's;
    [.unique()] folds the joined rows back into one object per item. *)
Definition get_filtered_items
    (status kind priority : option string)
    (tag_names : option (list string))
    (title_substring : option string)
    (created_from created_to : option Z)
    (limit offset : Z)
    (sort_field sort_order : string)
    (db : DB) : list ItemWithTags :=
  let stmt :=
    select_items status kind priority tag_names title_substring
                 created_from created_to db in
  let stmt := Sql.order_by (ordering sort_field sort_order) stmt in
  let stmt := Sql.limit limit (Sql.offset offset stmt) in
  map (joinedload db) stmt.

Definition add_tag_to_item (i : Item.t) (t : Tag.t) (db : DB) : outcome :=
  commit (Sqlite.insert_item_tag (Item.id i) (Tag.id t)) db.

Definition remove_tag_from_item (i : Item.t) (t : Tag.t) (db : DB)
  : outcome :=
  commit (Sqlite.delete_item_tag (Item.id i) (Tag.id t)) db.

(** Three units of work, each closed by its own [session.commit()].
    The rows of the third are written by the flush of the session: the
    items in the order of [add_all], then the association rows the four
    [tags.append] calls ask for.  The flush writes those four in an
    order of its own, which may differ from run to run; they stand
    here in the order of the calls, and what is stated of the
    association table after the seed is stated up to their order. *)
Definition create_seed_data (clk : SeedClock) (db : DB) : outcome :=
  match (user1 <- Sqlite.insert_user "alice@example.com" "Alice"
                                     (t_user1 clk) ;;
         user2 <- Sqlite.insert_user "bob@example.com" "Bob"
                                     (t_user2 clk) ;;
         ret (user1, user2)) db with
  | inl e => Raised e db
  | inr ((user1, user2), db1) =>
    match (tag1 <- Sqlite.insert_tag user1 "urgent" ;;
           tag2 <- Sqlite.insert_tag user1 "work" ;;
           tag3 <- Sqlite.insert_tag user2 "personal" ;;
           ret (tag1, tag2, tag3)) db1 with
    | inl e => Raised e db1
    | inr ((tag1, tag2, tag3), db2) =>
      commit
        (item1 <- Sqlite.insert_item user1 "Finish report"
                    (ItemKind.value ItemKind.book)
                    (ItemStatus.value ItemStatus.reading)
                    (ItemPriority.value ItemPriority.high)
                    (Some "Due next week") (t_item1 clk) ;;
         item2 <- Sqlite.insert_item user1 "Buy groceries"
                    (ItemKind.value ItemKind.book)
                    (ItemStatus.value ItemStatus.reading)
                    (ItemPriority.value ItemPriority.high)
                    (Some "Milk, Bread, Eggs") (t_item2 clk) ;;
         item3 <- Sqlite.insert_item user2 "Call mom"
                    (ItemKind.value ItemKind.book)
                    (ItemStatus.value ItemStatus.reading)
                    (ItemPriority.value ItemPriority.high)
                    (Some "Sunday evening") (t_item3 clk) ;;
         Sqlite.insert_item_tag item1 tag1 ;;;
         Sqlite.insert_item_tag item1 tag2 ;;;
         Sqlite.insert_item_tag item2 tag2 ;;;
         Sqlite.insert_item_tag item3 tag3)
        db2
    end
  end.

End Service.

(** ** routers *)

(** What a handler answers with: the [detail] of an [HTTPException], or
    the value it returns.  The value is kept as returned; its
    serialisation through the route's [response_model] (which drops the
    columns the schema does not list) is left out, the rows being taken
    to hold what the input schemas let in. *)
Inductive content :=
| Nothing
| Detail (msg : string)
| Literal (s : string)
| Missing (loc name : string)      (* request validation: field required *)
| OneUser (u : User.t)
| OneTag (t : Tag.t)
| OneItem (i : ItemWithTags)
| Users (l : list User.t)
| Tags (l : list Tag.t)
| Items (l : list ItemWithTags)
| EchoUser (s : UserBaseSchema)
| EchoItem (s : ItemBaseSchema)
| EchoTag (s : TagBaseSchema).

Record Response := { status_code : Z; body : content }.

Definition HTTPException (status_code : Z) (detail : string) : Response :=
  {| status_code := status_code; body := Detail detail |}.

Definition HTTP_204_NO_CONTENT : Z := 204.

(** *** How FastAPI binds the arguments of a handler

    A handler argument of scalar type whose name occurs in the route's
    path template is read from the path; any other one is a query
    parameter, required when it has no default.  Integer arguments are
    taken as already parsed. *)
Record Request := {
  path_params : list (string * Z);
  query_params : list (string * Z)
}.

Fixpoint lookup (name : string) (l : list (string * Z)) : option Z :=
  match l with
  | [] => None
  | (k, v) :: l' => if (k =? name)%string then Some v else lookup name l'
  end.

Definition bind_arg (template : list string) (name : string) (req : Request)
  : option Z :=
  if existsb (String.eqb name) template
  then lookup name (path_params req)
  else lookup name (query_params req).

Definition arg_loc (template : list string) (name : string) : string :=
  if existsb (String.eqb name) template then "path" else "query".

(** A route whose handler takes one integer argument. *)
Definition route1 (template : list string) (name : string)
    (handler : Z -> DB -> Response * DB) (req : Request) (db : DB)
  : Response * DB :=
  match bind_arg template name req with
  | Some v => handler v db
  | None => ({| status_code := 422;
                body := Missing (arg_loc template name) name |}, db)
  end.

Module user_router.

Definition get_all_users (db : DB) : Response * DB :=
  ({| status_code := 200; body := Users (Service.get_all_models db) |}, db).

Definition get_user_by_id (user_id : Z) (db : DB) : Response * DB :=
  match Service.get_model_by_id (T:=User.t) user_id db with
  | None => (HTTPException 404 "User not found", db)
  | Some user => ({| status_code := 200; body := OneUser user |}, db)
  end.

Definition create_user (user : UserBaseSchema) (now : Z) (db : DB)
  : Response * DB :=
  match Service.create_model (T:=User.t) user tt now db with
  | Committed db' => ({| status_code := 200; body := EchoUser user |}, db')
  | Raised (IntegrityError _) db' =>
      (HTTPException 400 "User already exists", db')
  end.

Definition delete_user (user_id : Z) (db : DB) : Response * DB :=
  match Service.delete_model_by_id (T:=User.t) user_id db with
  | Committed db' =>
      ({| status_code := HTTP_204_NO_CONTENT; body := Nothing |}, db')
  | Raised e db' => (HTTPException 400 (str e), db')
  end.

(** [@user_router.get("/{user_id}")] over [get_user_by_id(user_id)] *)
Definition GET_by_id : Request -> DB -> Response * DB :=
  route1 ["user_id"] "user_id" get_user_by_id.

(** [@user_router.delete("/{id}")] over [delete_user(user_id, response)] *)
Definition DELETE : Request -> DB -> Response * DB :=
  route1 ["id"] "user_id" delete_user.

End user_router.

Module item_router.


Definition get_item_by_id (item_id : Z) (db : DB) : Response * DB :=
  match option_map (Service.joinedload db)
                   (Service.get_model_by_id (T:=Item.t) item_id db) with
  | None => (HTTPException 404 "Item not found", db)
  | Some i => ({| status_code := 200; body := OneItem i |}, db)
  end.


Definition get_items_by_user (user_id : Z) (db : DB) : Response * DB :=
  match Service.get_model_by_id (T:=User.t) user_id db with
  | None => (HTTPException 404 "User not found", db)
  | Some _ =>
      ({| status_code := 200;
          body := Items (map (Service.joinedload db)
                             (Service.get_models_by_user_id
                                (T:=Item.t) user_id db)) |}, db)
  end.

Definition create_item (i : ItemBaseSchema) (user_id : Z) (now : Z)
    (db : DB) : Response * DB :=
  match Service.get_model_by_id (T:=User.t) user_id db with
  | None => (HTTPException 404 "User not found", db)
  | Some _ =>
      match Service.create_model (T:=Item.t) i user_id now db with
      | Committed db' => ({| status_code := 200; body := EchoItem i |}, db')
      | Raised (IntegrityError _) db' =>
          (HTTPException 400 "Item already exists", db')
      end
  end.

Definition delete_item (item_id : Z) (db : DB) : Response * DB :=
  match Service.delete_model_by_id (T:=Item.t) item_id db with
  | Committed db' =>
      ({| status_code := HTTP_204_NO_CONTENT; body := Nothing |}, db')
  | Raised e db' => (HTTPException 400 (str e), db')
  end.

(** [@item_router.get("/{item_id}")] over [get_item_by_id(item_id)] *)
Definition GET_by_id : Request -> DB -> Response * DB :=
  route1 ["item_id"] "item_id" get_item_by_id.

(** [@item_router.delete("/{id}")] over [delete_item(item_id, response)] *)
Definition DELETE : Request -> DB -> Response * DB :=
  route1 ["id"] "item_id" delete_item.

End item_router.

Module tag_router.

Definition get_all_tags (db : DB) : Response * DB :=
  ({| status_code := 200; body := Tags (Service.get_all_models db) |}, db).

Definition get_tag_by_id (tag_id : Z) (db : DB) : Response * DB :=
  match Service.get_model_by_id (T:=Tag.t) tag_id db with
  | None => (HTTPException 404 "Tag not found", db)
  | Some tag => ({| status_code := 200; body := OneTag tag |}, db)
  end.

Definition get_user_tags (user_id : Z) (db : DB) : Response * DB :=
  match Service.get_model_by_id (T:=User.t) user_id db with
  | None => (HTTPException 404 "User not found", db)
  | Some _ =>
      ({| status_code := 200;
          body := Tags (Service.get_models_by_user_id
                          (T:=Tag.t) user_id db) |}, db)
  end.

Definition create_tag (user_id : Z) (tag : TagBaseSchema) (now : Z)
    (db : DB) : Response * DB :=
  match Service.get_model_by_id (T:=User.t) user_id db with
  | None => (HTTPException 404 "User not found", db)
  | Some _ =>
      match Service.create_model (T:=Tag.t) tag user_id now db with
      | Committed db' => ({| status_code := 200; body := EchoTag tag |}, db')
      | Raised (IntegrityError _) db' =>
          (HTTPException 400 "Tag already exists", db')
      end
  end.

(** The closing [return get_model_by_id(...)] of the two link routes;
    a [None] does not validate against [ItemWithTagsSchema]. *)
Definition refetch (item_id : Z) (db : DB) : Response :=
  match option_map (Service.joinedload db)
                   (Service.get_model_by_id (T:=Item.t) item_id db) with
  | Some i => {| status_code := 200; body := OneItem i |}
  | None => {| status_code := 500; body := Literal "Internal Server Error" |}
  end.

Definition link_tag_item (tag_id item_id : Z) (db : DB) : Response * DB :=
  match Service.get_model_by_id (T:=Tag.t) tag_id db with
  | None => (HTTPException 404 "Tag not found", db)
  | Some tag =>
      match Service.get_model_by_id (T:=Item.t) item_id db with
      | None => (HTTPException 404 "Item not found", db)
      | Some i =>
          match Service.add_tag_to_item i tag db with
          | Raised (IntegrityError _) db' =>
              (HTTPException 400 "Item already exists", db')
          | Committed db' => (refetch item_id db', db')
          end
      end
  end.

Definition unlink_tag_item (tag_id item_id : Z) (db : DB)
  : Response * DB :=
  match Service.get_model_by_id (T:=Tag.t) tag_id db with
  | None => (HTTPException 404 "Tag not found", db)
  | Some tag =>
      match Service.get_model_by_id (T:=Item.t) item_id db with
      | None => (HTTPException 404 "Item not found", db)
      | Some i =>
          match Service.remove_tag_from_item i tag db with
          | Raised _ db' =>   (* not caught by the handler *)
              ({| status_code := 500;
                  body := Literal "Internal Server Error" |}, db')
          | Committed db' => (refetch item_id db', db')
          end
      end
  end.

Definition delete_tag (tag_id : Z) (db : DB) : Response * DB :=
  match Service.delete_model_by_id (T:=Tag.t) tag_id db with
  | Committed db' =>
      ({| status_code := HTTP_204_NO_CONTENT; body := Nothing |}, db')
  | Raised e db' => (HTTPException 400 (str e), db')
  end.

(** [@tag_router.delete("/{id}")] over [delete_tag(tag_id, response)] *)
Definition DELETE : Request -> DB -> Response * DB :=
  route1 ["id"] "tag_id" delete_tag.

End tag_router.

Module test_router.

Definition create_data_for_tests (clk : SeedClock) (db : DB)
  : Response * DB :=
  match Service.create_seed_data clk db with
  | Committed db' => ({| status_code := 200; body := Literal "success" |}, db')
  | Raised (IntegrityError _) db' =>
      (HTTPException 400 "Item already exists", db')
  end.

End test_router.

(** ** Vocabulary of the statements *)

Definition pair_eq_dec (p q : Z * Z) : {p = q} + {p <> q}.
Proof. decide equality; apply Z.eq_dec. Defined.
Arguments pair_eq_dec : simpl never.

Definition user_exists (db : DB) (user_id : Z) : Prop :=
  exists u, In u (users db) /\ User.id u = user_id.

Definition item_exists (db : DB) (item_id : Z) : Prop :=
  exists i, In i (items db) /\ Item.id i = item_id.

Definition tag_exists (db : DB) (tag_id : Z) : Prop :=
  exists t, In t (tags db) /\ Tag.id t = tag_id.

(** User [user_id] already has a tag called [name]. *)
Definition tag_named (db : DB) (user_id : Z) (name : string) : Prop :=
  exists t, In t (tags db) /\ Tag.user_id t = user_id /\ Tag.name t = name.

Definition linked (db : DB) (item_id tag_id : Z) : Prop :=
  In (item_id, tag_id) (item_tag db).

(** Number of association rows equal to [p]. *)
Definition links (db : DB) (p : Z * Z) : nat :=
  count_occ pair_eq_dec (item_tag db) p.

(** No row in any table. *)
Definition is_empty (db : DB) : Prop :=
  users db = [] /\ items db = [] /\ tags db = [] /\ item_tag db = [].

Definition seeded_users (clk : SeedClock) (u1 u2 : Z) : list User.t :=
  [ User.mk u1 "alice@example.com" "Alice" (Some (t_user1 clk));
    User.mk u2 "bob@example.com" "Bob" (Some (t_user2 clk)) ].

Definition seeded_tags (u1 u2 g1 g2 g3 : Z) : list Tag.t :=
  [ Tag.mk g1 u1 "urgent"; Tag.mk g2 u1 "work"; Tag.mk g3 u2 "personal" ].

Definition seeded_items (clk : SeedClock) (u1 u2 i1 i2 i3 : Z) : list Item.t :=
  [ Item.mk i1 u1 "Finish report" (ItemKind.value ItemKind.book)
            (ItemStatus.value ItemStatus.reading)
            (ItemPriority.value ItemPriority.high)
            (Some "Due next week") (Some (t_item1 clk)) None;
    Item.mk i2 u1 "Buy groceries" (ItemKind.value ItemKind.book)
            (ItemStatus.value ItemStatus.reading)
            (ItemPriority.value ItemPriority.high)
            (Some "Milk, Bread, Eggs") (Some (t_item2 clk)) None;
    Item.mk i3 u2 "Call mom" (ItemKind.value ItemKind.book)
            (ItemStatus.value ItemStatus.reading)
            (ItemPriority.value ItemPriority.high)
            (Some "Sunday evening") (Some (t_item3 clk)) None ].

(** The fixture graph of the seed data over the ids its rows received. *)
Definition seeded_links (i1 i2 i3 g1 g2 g3 : Z) : list (Z * Z) :=
  [ (i1, g1); (i1, g2); (i2, g2); (i3, g3) ].

(** One user owning one item and one tag, the tag linked to the item. *)
Definition cascade_user : User.t := User.mk 1 "u1@example.com" "U1" (Some 0).
Definition cascade_item : Item.t :=
  Item.mk 1 1 "Dune" "book" "planned" "normal" None (Some 0) None.
Definition cascade_tag : Tag.t := Tag.mk 1 1 "work".
Definition cascade_fixture (fk : bool) : DB :=
  mkDB [cascade_user] [cascade_item] [cascade_tag] [(1, 1)] 1 1 1 fk.

(** [DELETE /<prefix>/<id>] with nothing after the path. *)
Definition delete_request (id : Z) : Request :=
  {| path_params := [("id", id)]; query_params := [] |}.

(** [title] contains [s] when the case of ASCII letters is ignored. *)
Definition contains_ignoring_case (title s : string) : Prop :=
  exists pre mid post,
    title = (pre ++ mid ++ post)%string /\ Sql.lower mid = Sql.lower s.

(** Neither [%] nor [_] occurs in [s]. *)
Fixpoint wildcard_free (s : string) : bool :=
  match s with
  | EmptyString => true
  | String c s' =>
      negb (c =? "%")%char && negb (c =? "_")%char && wildcard_free s'
  end.

(** Lower case as [str.lower] has it on UTF-8 text, for the letters of
    ASCII and of Latin-1: the capitals U+00C0 to U+00DE (the sign U+00D7
    apart) are the byte 195 followed by a byte from 128 to 158, and
    their small letters lie 32 above.  Other characters stay. *)
Fixpoint letter_lower (s : string) : string :=
  match s with
  | EmptyString => EmptyString
  | String c t =>
      match t with
      | String d t' =>
          let n := nat_of_ascii d in
          if (nat_of_ascii c =? 195)%nat
             && (128 <=? n)%nat && (n <=? 158)%nat && negb (n =? 151)%nat
          then String c (String (ascii_of_nat (n + 32)) (letter_lower t'))
          else String (Sql.ascii_lower c) (letter_lower t)
      | EmptyString => String (Sql.ascii_lower c) EmptyString
      end
  end.

(** [title] contains [s] when the case of letters is ignored. *)
Definition contains_ignoring_letter_case (title s : string) : Prop :=
  exists pre mid post,
    title = (pre ++ mid ++ post)%string /\ letter_lower mid = letter_lower s.

(** The letter e with an acute accent, capital (U+00C9) and small
    (U+00E9), in UTF-8. *)
Definition capital_e_acute : string :=
  String (ascii_of_nat 195) (String (ascii_of_nat 137) EmptyString).
Definition small_e_acute : string :=
  String (ascii_of_nat 195) (String (ascii_of_nat 169) EmptyString).

(** A title with a NUL character inside: "a", NUL, "b". *)
Definition after_nul : string :=
  String "a" (String Ascii.zero (String "b" EmptyString)).

(** The pattern built from the substring is within the engine's limit. *)
Definition pattern_fits (title_substring : string) : Prop :=
  Z.of_nat (String.length (Service.title_pattern title_substring))
  <= Sql.max_like_pattern_length.

(** The item passes every filter on plain columns that the arguments
    switch on. *)
Definition passes (status kind priority title_substring : option string)
    (created_from created_to : option Z) (i : Item.t) : bool :=
  forallb (fun f => f (i, None))
          (Service.column_filters status kind priority title_substring
                                  created_from created_to).

(** The item is associated with at least one tag whose name is listed. *)
Definition has_tag_among (db : DB) (names : list string) (i : Item.t) : Prop :=
  exists t, In t (tags db) /\ linked db (Item.id i) (Tag.id t)
            /\ In (Tag.name t) names.

(** OFFSET and LIMIT that cut nothing off a result drawn from [db]. *)
Definition whole_page (db : DB) (limit offset : Z) : Prop :=
  offset <= 0 /\ (limit < 0 \/ Z.of_nat (List.length (items db)) <= limit).

(** The column a [sort_field] name is bound to: created_at, updated_at
    or priority, and created_at again for any other name. *)
Definition bound_column (sort_field : string) (i : Item.t) : Sql.value :=
  if (sort_field =? "updated_at")%string
  then Sql.of_datetime (Item.updated_at i)
  else if (sort_field =? "priority")%string
       then Sql.Text (Item.priority i)
       else Sql.of_datetime (Item.created_at i).

(** [a] may stand before [b] in a result sorted on [col]. *)
Definition in_order (descending : bool) (col : Item.t -> Sql.value)
    (a b : Item.t) : Prop :=
  if descending then Sql.leb (col b) (col a) = true
  else Sql.leb (col a) (col b) = true.


(** The database the seed route leaves behind a new file. *)
Definition seed_clock : SeedClock :=
  {| t_user1 := 10; t_user2 := 10; t_item1 := 11; t_item2 := 12; t_item3 := 13 |}.
Definition seeded : DB :=
  snd (test_router.create_data_for_tests seed_clock (create_all false)).

Definition unique_tag_violation : exn :=
  IntegrityError "UNIQUE constraint failed: tags.user_id, tags.name".

Definition Conflict (detail : string) : Response :=
  {| status_code := 400; body := Detail detail |}.

(** ** The application as a whole (main.py)

    [get_app] registers the four routers.  The handlers that read
    return the database as they found it; the calls below are the ones
    that can change it, with the arguments their handlers receive. *)
Inductive call :=
| CreateUser (user : UserBaseSchema) (now : Z)
| DeleteUser (user_id : Z)
| CreateItem (i : ItemBaseSchema) (user_id now : Z)
| DeleteItem (item_id : Z)
| CreateTag (user_id : Z) (tag : TagBaseSchema) (now : Z)
| LinkTagItem (tag_id item_id : Z)
| UnlinkTagItem (tag_id item_id : Z)
| DeleteTag (tag_id : Z)
| CreateDataForTests (clk : SeedClock).

Definition serve (c : call) (db : DB) : Response * DB :=
  match c with
  | CreateUser user now => user_router.create_user user now db
  | DeleteUser user_id => user_router.delete_user user_id db
  | CreateItem i user_id now => item_router.create_item i user_id now db
  | DeleteItem item_id => item_router.delete_item item_id db
  | CreateTag user_id tag now => tag_router.create_tag user_id tag now db
  | LinkTagItem tag_id item_id => tag_router.link_tag_item tag_id item_id db
  | UnlinkTagItem tag_id item_id =>
      tag_router.unlink_tag_item tag_id item_id db
  | DeleteTag tag_id => tag_router.delete_tag tag_id db
  | CreateDataForTests clk => test_router.create_data_for_tests clk db
  end.

(** The database after a sequence of calls. *)
Definition run (cs : list call) (db : DB) : DB :=
  fold_left (fun d c => snd (serve c d)) cs db.

(** The databases the application can be in: the tables [get_app]
    creates, and whatever the calls make of them. *)
Inductive reachable (fk : bool) : DB -> Prop :=
| reachable_new : reachable fk (create_all fk)
| reachable_step (db : DB) (c : call) :
    reachable fk db -> reachable fk (snd (serve c db)).

(** What the schema's keys promise: ids, emails, (user_id, name) pairs
    and association pairs occur once. *)
Definition keys_unique (db : DB) : Prop :=
  NoDup (map User.id (users db))
  /\ NoDup (map Item.id (items db))
  /\ NoDup (map Tag.id (tags db))
  /\ NoDup (map User.email (users db))
  /\ NoDup (map (fun t => (Tag.user_id t, Tag.name t)) (tags db))
  /\ NoDup (item_tag db).

(** No id in a table or in a reference exceeds the counter of the table
    it names. *)
Definition ids_bounded (db : DB) : Prop :=
  0 <= seq_users db /\ 0 <= seq_items db /\ 0 <= seq_tags db
  /\ (forall u, In u (users db) -> User.id u <= seq_users db)
  /\ (forall i, In i (items db) ->
        Item.id i <= seq_items db /\ Item.user_id i <= seq_users db)
  /\ (forall t, In t (tags db) ->
        Tag.id t <= seq_tags db /\ Tag.user_id t <= seq_users db)
  /\ (forall p, In p (item_tag db) ->
        fst p <= seq_items db /\ snd p <= seq_tags db).

Definition consistent (db : DB) : Prop := keys_unique db /\ ids_bounded db.


(** One of the two emails of the seed data is stored. *)
Definition seed_email_taken (db : DB) : Prop :=
  exists u, In u (users db)
            /\ (User.email u = "alice@example.com"
                \/ User.email u = "bob@example.com").

(** Where a priority lands when priorities are compared as strings. *)
Definition alphabetical_rank (p : ItemPriority.t) : Z :=
  match p with
  | ItemPriority.high => 0
  | ItemPriority.low => 1
  | ItemPriority.normal => 2
  end.

(** The row [create_item] stores. *)
Definition new_item (id user_id : Z) (i : ItemBaseSchema) (now : Z) : Item.t :=
  Item.mk id user_id (is_title i) (ItemKind.value (is_kind i))
          (ItemStatus.value (is_status i))
          (ItemPriority.value (is_priority i))
          (is_notes i) (Some now) None.

(** [a] may stand before [b] when tags are read in the order of their
    names, compared bytewise. *)
Definition name_order (a b : Tag.t) : Prop :=
  String.leb (Tag.name a) (Tag.name b) = true.

(** Some item or tag names [user_id] as its owner. *)
Definition owns_rows (db : DB) (user_id : Z) : Prop :=
  (exists i, In i (items db) /\ Item.user_id i = user_id)
  \/ (exists t, In t (tags db) /\ Tag.user_id t = user_id).

Definition no_content : Response :=
  {| status_code := HTTP_204_NO_CONTENT; body := Nothing |}.



(** [a] may stand before [b] when priorities are compared as strings. *)
Definition priority_order (descending : bool) (a b : Item.t) : Prop :=
  forall p q,
    Item.priority a = ItemPriority.value p ->
    Item.priority b = ItemPriority.value q ->
    if descending then alphabetical_rank q <= alphabetical_rank p
    else alphabetical_rank p <= alphabetical_rank q.

(** The counters only grow, and the pragma stays. *)
Definition grows (db db' : DB) : Prop :=
  seq_users db <= seq_users db' /\ seq_items db <= seq_items db'
  /\ seq_tags db <= seq_tags db' /\ foreign_keys db' = foreign_keys db.

(** Every row of [db'] was in [db] already or has an id above the
    counter [db] had for its table. *)
Definition adds_only_fresh (db db' : DB) : Prop :=
  (forall u, In u (users db') ->
     In u (users db) \/ seq_users db < User.id u)
  /\ (forall i, In i (items db') ->
        In i (items db) \/ seq_items db < Item.id i)
  /\ (forall t, In t (tags db') ->
        In t (tags db) \/ seq_tags db < Tag.id t).

(** What one call makes of a store that satisfies the invariant. *)
Definition step_ok (db db' : DB) : Prop :=
  consistent db' /\ grows db db' /\ adds_only_fresh db db'.

(** ** Proof automation *)

(** Decide the integer comparisons of a goal by linear arithmetic. *)
Ltac decide_eqb :=
  repeat match goal with
    | |- context [?a =? ?b] =>
        first [ rewrite (Z.eqb_refl a)
              | let H := fresh in
                assert (H : (a =? b) = false) by (apply Z.eqb_neq; lia);
                rewrite H; clear H ]
    end.

(** Run the seed populator on symbolic sequence counters. *)
Ltac eval_seed :=
  repeat (progress (cbv -[Z.max Z.add Z.eqb]; decide_eqb)).

(** Close a [grows] goal between a database and an explicit record. *)
Ltac solve_grows :=
  unfold grows; cbn [seq_users seq_items seq_tags foreign_keys];
  repeat split; lia.

(** Open a membership in a filtered list. *)
Ltac in_filter :=
  intros;
  match goal with
  | H : In _ (filter _ _) |- _ => apply filter_In in H; destruct H
  end.

(** * Properties *)

(** ** Lookup by primary key *)

Section Lookup.
Context {T : Type} (key : T -> Z).

Lemma find_key_absent (id : Z) (l : list T) :
  (forall x, In x l -> key x <> id) ->
  find (fun r => key r =? id) l = None.
Proof.
  induction l as [|x l IH]; intros Habs; simpl; [reflexivity|].
  destruct (Z.eqb_spec (key x) id) as [E|_].
  - exfalso. apply (Habs x); [now left | exact E].
  - apply IH. intros y Hy. apply Habs. now right.
Qed.

Lemma find_key_present (id : Z) (l : list T) (x : T) :
  In x l -> key x = id ->
  exists y, find (fun r => key r =? id) l = Some y /\ In y l /\ key y = id.
Proof.
  induction l as [|z l IH]; intros Hin Hk; [destruct Hin|].
  simpl. destruct (Z.eqb_spec (key z) id) as [E|N].
  - exists z. repeat split; [now left | exact E].
  - destruct Hin as [->|Hin]; [contradiction|].
    destruct (IH Hin Hk) as (y & Hf & Hy & Hky).
    exists y. repeat split; [exact Hf | now right | exact Hky].
Qed.

Lemma find_key_sound (id : Z) (l : list T) (y : T) :
  find (fun r => key r =? id) l = Some y -> In y l /\ key y = id.
Proof.
  intros H. apply find_some in H. destruct H as [Hin Hk].
  split; [exact Hin | now apply Z.eqb_eq].
Qed.

Lemma existsb_key_present (id : Z) (l : list T) (x : T) :
  In x l -> key x = id -> existsb (fun r => key r =? id) l = true.
Proof.
  intros Hin Hk. apply existsb_exists. exists x.
  split; [exact Hin | now apply Z.eqb_eq].
Qed.

Lemma find_after_delete (id : Z) (l : list T) :
  find (fun r => key r =? id)
       (filter (fun r => negb (key r =? id)) l) = None.
Proof.
  apply find_key_absent. intros x Hx E.
  apply filter_In in Hx. destruct Hx as [_ Hx].
  apply Z.eqb_eq in E. rewrite E in Hx. discriminate.
Qed.
End Lookup.

Lemma pair_eqb_eq (p q : Z * Z) : Sqlite.pair_eqb p q = true <-> p = q.
Proof.
  destruct p as [a b], q as [c d]. unfold Sqlite.pair_eqb. simpl.
  rewrite andb_true_iff, !Z.eqb_eq. split.
  - intros [-> ->]. reflexivity.
  - intros E. inversion E. split; reflexivity.
Qed.

Lemma pair_eqb_refl (p : Z * Z) : Sqlite.pair_eqb p p = true.
Proof. now apply pair_eqb_eq. Qed.

Lemma existsb_pair_absent (p : Z * Z) (l : list (Z * Z)) :
  ~ In p l -> existsb (Sqlite.pair_eqb p) l = false.
Proof.
  intros Hn. apply not_true_is_false. intros H.
  apply existsb_exists in H. destruct H as (q & Hq & E).
  apply pair_eqb_eq in E. subst q. contradiction.
Qed.

Lemma existsb_pair_present (p : Z * Z) (l : list (Z * Z)) :
  In p l -> existsb (Sqlite.pair_eqb p) l = true.
Proof.
  intros H. apply existsb_exists. exists p. split; [exact H|apply pair_eqb_refl].
Qed.

(** ** Not found (C8) *)



(** ** Link and unlink (C10, C7) *)

Lemma count_occ_filter_pair (f : Z * Z -> bool) (l : list (Z * Z)) (p : Z * Z) :
  count_occ pair_eq_dec (filter f l) p
  = if f p then count_occ pair_eq_dec l p else 0%nat.
Proof.
  induction l as [|q l IH]; simpl.
  - now destruct (f p).
  - destruct (f q) eqn:Fq; simpl; destruct (pair_eq_dec q p) as [->|N];
      rewrite IH; try rewrite Fq; try reflexivity.
Qed.

Lemma add_tag_to_item_cases (i : Item.t) (t : Tag.t) (db : DB) :
  (exists e, Service.add_tag_to_item i t db = Raised e db)
  \/ Service.add_tag_to_item i t db
     = Committed (mkDB (users db) (items db) (tags db)
                       (item_tag db ++ [(Item.id i, Tag.id t)])
                       (seq_users db) (seq_items db) (seq_tags db)
                       (foreign_keys db)).
Proof.
  unfold Service.add_tag_to_item, commit, Sqlite.insert_item_tag.
  destruct (existsb _ (item_tag db)); [left; eexists; reflexivity|].
  destruct (foreign_keys db && _); [left; eexists; reflexivity|].
  right. reflexivity.
Qed.

(** C10. Linking leaves the users, items and tags tables (and the
    sequence counters) as they were and changes the association table at
    most by appending the pair (item id, tag id); unlinking leaves the
    three tables as they were and removes nothing but that pair: after
    either operation every other pair occurs exactly as often as before. *)
Theorem link_unlink_frame (db : DB) (i : Item.t) (t : Tag.t) :
  let pair := (Item.id i, Tag.id t) in
  let after_link := db_of (Service.add_tag_to_item i t db) in
  let after_unlink := db_of (Service.remove_tag_from_item i t db) in
  (users after_link = users db /\ items after_link = items db
   /\ tags after_link = tags db
   /\ (item_tag after_link = item_tag db
       \/ item_tag after_link = item_tag db ++ [pair])
   /\ forall p, p <> pair -> links after_link p = links db p)
  /\
  (users after_unlink = users db /\ items after_unlink = items db
   /\ tags after_unlink = tags db
   /\ links after_unlink pair = 0%nat
   /\ forall p, p <> pair -> links after_unlink p = links db p).
Proof.
  cbv zeta. split.
  - destruct (add_tag_to_item_cases i t db) as [[e ->]| ->]; simpl.
    + repeat split; auto.
    + repeat split; auto. intros p Hp. unfold links. simpl.
      rewrite count_occ_app. simpl.
      destruct (pair_eq_dec (Item.id i, Tag.id t) p) as [E|_];
        [congruence | lia].
  - unfold Service.remove_tag_from_item, commit, Sqlite.delete_item_tag.
    simpl. repeat split.
    + unfold links. simpl. rewrite count_occ_filter_pair.
      now rewrite pair_eqb_refl.
    + intros p Hp. unfold links. simpl. rewrite count_occ_filter_pair.
      destruct (Sqlite.pair_eqb p (Item.id i, Tag.id t)) eqn:E;
        [apply pair_eqb_eq in E; contradiction | reflexivity].
Qed.

Lemma get_item_present (db : DB) (item_id : Z) :
  item_exists db item_id ->
  exists i, Service.get_model_by_id (T:=Item.t) item_id db = Some i
            /\ In i (items db) /\ Item.id i = item_id.
Proof.
  intros (x & Hin & Hid).
  exact (find_key_present Item.id item_id (items db) x Hin Hid).
Qed.

Lemma get_tag_present (db : DB) (tag_id : Z) :
  tag_exists db tag_id ->
  exists t, Service.get_model_by_id (T:=Tag.t) tag_id db = Some t
            /\ In t (tags db) /\ Tag.id t = tag_id.
Proof.
  intros (x & Hin & Hid).
  exact (find_key_present Tag.id tag_id (tags db) x Hin Hid).
Qed.

Lemma get_user_present (db : DB) (user_id : Z) :
  user_exists db user_id ->
  exists u, Service.get_model_by_id (T:=User.t) user_id db = Some u
            /\ In u (users db) /\ User.id u = user_id.
Proof.
  intros (x & Hin & Hid).
  exact (find_key_present User.id user_id (users db) x Hin Hid).
Qed.

Lemma get_item_same_items (db db' : DB) (item_id : Z) :
  items db' = items db ->
  Service.get_model_by_id (T:=Item.t) item_id db'
  = Service.get_model_by_id (T:=Item.t) item_id db.
Proof. unfold Service.get_model_by_id. simpl. now intros ->. Qed.

(** One call of the link route on an existing tag and item. *)
Lemma link_tag_item_step (db : DB) (tag_id item_id : Z) :
  tag_exists db tag_id -> item_exists db item_id ->
  (linked db item_id tag_id ->
   tag_router.link_tag_item tag_id item_id db
   = (Conflict "Item already exists", db))
  /\
  (~ linked db item_id tag_id ->
   exists db' i,
     tag_router.link_tag_item tag_id item_id db
     = ({| status_code := 200; body := OneItem (Service.joinedload db' i) |},
        db')
     /\ Item.id i = item_id
     /\ users db' = users db /\ items db' = items db /\ tags db' = tags db
     /\ item_tag db' = item_tag db ++ [(item_id, tag_id)]).
Proof.
  intros Ht Hi.
  destruct (get_tag_present db tag_id Ht) as (t & Et & Htin & Htid).
  destruct (get_item_present db item_id Hi) as (i & Ei & Hiin & Hiid).
  unfold tag_router.link_tag_item. rewrite Et, Ei.
  unfold Service.add_tag_to_item, commit, Sqlite.insert_item_tag.
  rewrite Htid, Hiid. split; intros Hl.
  - rewrite (existsb_pair_present _ _ Hl). reflexivity.
  - rewrite (existsb_pair_absent _ _ Hl).
    assert (Hfk : foreign_keys db
                  && negb (Sqlite.has_item db item_id
                           && Sqlite.has_tag db tag_id) = false).
    { unfold Sqlite.has_item, Sqlite.has_tag.
      rewrite (existsb_key_present Item.id item_id _ i Hiin Hiid).
      rewrite (existsb_key_present Tag.id tag_id _ t Htin Htid).
      simpl. apply andb_false_r. }
    rewrite Hfk.
    eexists. exists i. split.
    + unfold tag_router.refetch.
      rewrite (get_item_same_items db) by reflexivity.
      rewrite Ei. simpl. reflexivity.
    + simpl. repeat split; auto.
Qed.

(** One call of the unlink route on an existing tag and item. *)
Lemma unlink_tag_item_step (db : DB) (tag_id item_id : Z) :
  tag_exists db tag_id -> item_exists db item_id ->
  exists db',
    status_code (fst (tag_router.unlink_tag_item tag_id item_id db)) = 200
    /\ snd (tag_router.unlink_tag_item tag_id item_id db) = db'
    /\ users db' = users db /\ items db' = items db /\ tags db' = tags db
    /\ ~ linked db' item_id tag_id.
Proof.
  intros Ht Hi.
  destruct (get_tag_present db tag_id Ht) as (t & Et & Htin & Htid).
  destruct (get_item_present db item_id Hi) as (i & Ei & Hiin & Hiid).
  unfold tag_router.unlink_tag_item. rewrite Et, Ei.
  unfold Service.remove_tag_from_item, commit, Sqlite.delete_item_tag.
  rewrite Htid, Hiid. eexists. split; [|split; [reflexivity|]].
  - unfold tag_router.refetch.
    rewrite (get_item_same_items db) by reflexivity.
    rewrite Ei. reflexivity.
  - simpl. repeat split; auto.
    unfold linked. simpl. intros Hin. apply filter_In in Hin.
    destruct Hin as [_ Hin]. rewrite pair_eqb_refl in Hin. discriminate.
Qed.

Lemma tag_exists_same (db db' : DB) (tag_id : Z) :
  tags db' = tags db -> tag_exists db tag_id -> tag_exists db' tag_id.
Proof. unfold tag_exists. now intros ->. Qed.

Lemma item_exists_same (db db' : DB) (item_id : Z) :
  items db' = items db -> item_exists db item_id -> item_exists db' item_id.
Proof. unfold item_exists. now intros ->. Qed.

(** C7. For an existing tag and an existing item whose pair is not in
    the association table: the link route answers 200 and the pair is
    there; the same request again answers 400 "Item already exists" and
    leaves the database as it was; the unlink route then answers 200 and
    the pair is gone; and linking once more answers 200 with the pair
    back in the table. *)
Theorem link_conflict_and_relink (db : DB) (tag_id item_id : Z) :
  tag_exists db tag_id ->
  item_exists db item_id ->
  ~ linked db item_id tag_id ->
  let first := tag_router.link_tag_item tag_id item_id db in
  let second := tag_router.link_tag_item tag_id item_id (snd first) in
  let undone := tag_router.unlink_tag_item tag_id item_id (snd second) in
  let again := tag_router.link_tag_item tag_id item_id (snd undone) in
  (status_code (fst first) = 200 /\ linked (snd first) item_id tag_id)
  /\ (fst second = Conflict "Item already exists"
      /\ snd second = snd first
      /\ item_tag (snd second) = item_tag (snd first))
  /\ (status_code (fst undone) = 200 /\ ~ linked (snd undone) item_id tag_id)
  /\ (status_code (fst again) = 200 /\ linked (snd again) item_id tag_id).
Proof.
  intros Ht Hi Hn. cbv zeta.
  destruct (link_tag_item_step db tag_id item_id Ht Hi) as [_ Hok].
  destruct (Hok Hn) as (db1 & i1 & E1 & _ & _ & Hi1 & Ht1 & Hl1).
  rewrite E1. cbn [fst snd status_code].
  assert (Ht' : tag_exists db1 tag_id) by (eapply tag_exists_same; eauto).
  assert (Hi' : item_exists db1 item_id) by (eapply item_exists_same; eauto).
  assert (L1 : linked db1 item_id tag_id).
  { unfold linked. rewrite Hl1. apply in_or_app. right. now left. }
  destruct (link_tag_item_step db1 tag_id item_id Ht' Hi') as [Hdup _].
  rewrite (Hdup L1). cbn [fst snd].
  destruct (unlink_tag_item_step db1 tag_id item_id Ht' Hi')
    as (db3 & S3 & E3 & _ & Hi3 & Ht3 & Hn3).
  rewrite E3, S3.
  assert (Ht'' : tag_exists db3 tag_id) by (eapply tag_exists_same; eauto).
  assert (Hi'' : item_exists db3 item_id) by (eapply item_exists_same; eauto).
  destruct (link_tag_item_step db3 tag_id item_id Ht'' Hi'') as [_ Hok3].
  destruct (Hok3 Hn3) as (db4 & i4 & E4 & _ & _ & _ & _ & Hl4).
  rewrite E4. cbn [fst snd status_code].
  repeat split; auto.
  unfold linked. rewrite Hl4. apply in_or_app. right. now left.
Qed.

Lemma link_conflict_and_relink_witness :
  let db := mkDB [User.mk 1 "a@example.com" "A" (Some 0)]
                 [Item.mk 1 1 "Dune" "book" "planned" "low" None (Some 0) None]
                 [Tag.mk 1 1 "work"] [] 1 1 1 false in
  let first := tag_router.link_tag_item 1 1 db in
  let second := tag_router.link_tag_item 1 1 (snd first) in
  let undone := tag_router.unlink_tag_item 1 1 (snd second) in
  let again := tag_router.link_tag_item 1 1 (snd undone) in
  (status_code (fst first) = 200 /\ linked (snd first) 1 1)
  /\ (fst second = Conflict "Item already exists"
      /\ snd second = snd first
      /\ item_tag (snd second) = item_tag (snd first))
  /\ (status_code (fst undone) = 200 /\ ~ linked (snd undone) 1 1)
  /\ (status_code (fst again) = 200 /\ linked (snd again) 1 1).
Proof.
  apply (link_conflict_and_relink
           (mkDB [User.mk 1 "a@example.com" "A" (Some 0)]
                 [Item.mk 1 1 "Dune" "book" "planned" "low" None (Some 0) None]
                 [Tag.mk 1 1 "work"] [] 1 1 1 false) 1 1).
  - exists (Tag.mk 1 1 "work"). split; [now left | reflexivity].
  - exists (Item.mk 1 1 "Dune" "book" "planned" "low" None (Some 0) None).
    split; [now left | reflexivity].
  - intros H. exact H.
Defined.

(** ** Tag names are unique per user (C6) *)

Lemma existsb_tag_named (db : DB) (user_id : Z) (name : string) :
  existsb (fun t => (Tag.user_id t =? user_id) && (Tag.name t =? name)%string)
          (tags db) = true
  <-> tag_named db user_id name.
Proof.
  unfold tag_named. rewrite existsb_exists.
  split; intros (t & Hin & H); exists t; split; try exact Hin.
  - apply andb_true_iff in H. destruct H as [Hu Hn].
    split; [now apply Z.eqb_eq | now apply String.eqb_eq].
  - destruct H as [Hu Hn]. apply andb_true_iff.
    split; [now apply Z.eqb_eq | now apply String.eqb_eq].
Qed.

Lemma has_user_present (db : DB) (user_id : Z) :
  user_exists db user_id -> Sqlite.has_user db user_id = true.
Proof.
  intros (u & Hin & Hid). exact (existsb_key_present User.id _ _ u Hin Hid).
Qed.

(** The INSERT behind [create_model(model=Tag, ...)]. *)
Lemma create_tag_model_cases (s : TagBaseSchema) (user_id now : Z) (db : DB) :
  (tag_named db user_id (ts_name s) ->
   Service.create_model (T:=Tag.t) s user_id now db
   = Raised unique_tag_violation db)
  /\
  (~ tag_named db user_id (ts_name s) ->
   (foreign_keys db && negb (Sqlite.has_user db user_id) = true ->
    Service.create_model (T:=Tag.t) s user_id now db
    = Raised (IntegrityError "FOREIGN KEY constraint failed") db)
   /\
   (foreign_keys db && negb (Sqlite.has_user db user_id) = false ->
    Service.create_model (T:=Tag.t) s user_id now db
    = Committed
        (mkDB (users db) (items db)
              (tags db ++ [Tag.mk (Sqlite.next_rowid (seq_tags db)
                                     (map Tag.id (tags db)))
                                  user_id (ts_name s)])
              (item_tag db) (seq_users db) (seq_items db)
              (Sqlite.next_rowid (seq_tags db) (map Tag.id (tags db)))
              (foreign_keys db)))).
Proof.
  unfold Service.create_model, commit. simpl flush_new.
  unfold Sqlite.insert_tag. split.
  - intros H. apply existsb_tag_named in H. rewrite H. reflexivity.
  - intros H.
    assert (E : existsb (fun t => (Tag.user_id t =? user_id)
                                  && (Tag.name t =? ts_name s)%string)
                        (tags db) = false).
    { apply not_true_is_false. intros E. apply H.
      now apply existsb_tag_named. }
    rewrite E. split; intros ->; reflexivity.
Qed.

Lemma create_tag_step (db : DB) (user_id : Z) (tag : TagBaseSchema) (now : Z) :
  user_exists db user_id ->
  (tag_named db user_id (ts_name tag) ->
   tag_router.create_tag user_id tag now db
   = (Conflict "Tag already exists", db))
  /\
  (~ tag_named db user_id (ts_name tag) ->
   exists db',
     tag_router.create_tag user_id tag now db
     = ({| status_code := 200; body := EchoTag tag |}, db')
     /\ users db' = users db
     /\ tags db'
        = tags db ++ [Tag.mk (Sqlite.next_rowid (seq_tags db)
                                (map Tag.id (tags db)))
                             user_id (ts_name tag)]).
Proof.
  intros Hu.
  destruct (get_user_present db user_id Hu) as (u & Eu & _ & _).
  unfold tag_router.create_tag. rewrite Eu.
  destruct (create_tag_model_cases tag user_id now db) as [Hdup Hnew].
  split; intros H.
  - rewrite (Hdup H). reflexivity.
  - destruct (Hnew H) as [_ Hok].
    rewrite Hok.
    + eexists. split; [reflexivity|]. split; reflexivity.
    + rewrite (has_user_present db user_id Hu). apply andb_false_r.
Qed.

Lemma user_exists_same (db db' : DB) (user_id : Z) :
  users db' = users db -> user_exists db user_id -> user_exists db' user_id.
Proof. unfold user_exists. now intros ->. Qed.

Lemma tag_named_app (db db' : DB) (l : list Tag.t) (user_id : Z) (name : string) :
  tags db' = tags db ++ l ->
  (tag_named db' user_id name
   <-> tag_named db user_id name
       \/ exists t, In t l /\ Tag.user_id t = user_id /\ Tag.name t = name).
Proof.
  intros E. unfold tag_named. rewrite E. split.
  - intros (t & Hin & H). apply in_app_or in Hin.
    destruct Hin as [Hin|Hin]; [left|right]; exists t; auto.
  - intros [(t & Hin & H)|(t & Hin & H)]; exists t; split; auto;
      apply in_or_app; auto.
Qed.

Lemma create_model_tag_unique_iff (d : DB) (u : Z) (n : TagBaseSchema) (now : Z) :
  Service.create_model (T:=Tag.t) n u now d = Raised unique_tag_violation d
  <-> tag_named d u (ts_name n).
Proof.
  destruct (create_tag_model_cases n u now d) as [Hdup Hnew].
  split; [|exact Hdup].
  intros H.
  destruct (existsb (fun t => (Tag.user_id t =? u)
                              && (Tag.name t =? ts_name n)%string)
                    (tags d)) eqn:E.
  - now apply existsb_tag_named.
  - exfalso.
    assert (Hn : ~ tag_named d u (ts_name n)).
    { intros Hn. apply existsb_tag_named in Hn. congruence. }
    destruct (Hnew Hn) as [Hfk Hok].
    destruct (foreign_keys d && negb (Sqlite.has_user d u)).
    + rewrite Hfk in H by reflexivity. discriminate.
    + rewrite Hok in H by reflexivity. discriminate.
Qed.

Lemma create_tag_conflict_iff (d : DB) (u : Z) (n : TagBaseSchema) (now : Z) :
  user_exists d u ->
  fst (tag_router.create_tag u n now d) = Conflict "Tag already exists"
  <-> tag_named d u (ts_name n).
Proof.
  intros Hu. destruct (create_tag_step d u n now Hu) as [Hdup Hnew].
  split.
  - intros H.
    destruct (existsb (fun t => (Tag.user_id t =? u)
                                && (Tag.name t =? ts_name n)%string)
                      (tags d)) eqn:E.
    + now apply existsb_tag_named.
    + exfalso.
      assert (Hn : ~ tag_named d u (ts_name n)).
      { intros Hn. apply existsb_tag_named in Hn. congruence. }
      destruct (Hnew Hn) as (d' & E' & _). rewrite E' in H. discriminate.
  - intros H. now rewrite (Hdup H).
Qed.

(** C6. With users A and B, A different from B, neither owning a tag
    named N: creating N for A answers 200, creating N for B answers 200,
    and creating N for A once more answers 400 "Tag already exists" and
    leaves the database as it was.  In general the INSERT of a tag ends
    in the violation of the unique constraint on (user_id, name) exactly
    when the user already has a tag of that name, and the route called
    for an existing user answers 400 "Tag already exists" exactly then,
    the stored tags unchanged. *)
Theorem tag_name_unique_per_user
    (db : DB) (A B : Z) (N : TagBaseSchema) (now1 now2 now3 : Z) :
  user_exists db A -> user_exists db B -> A <> B ->
  ~ tag_named db A (ts_name N) -> ~ tag_named db B (ts_name N) ->
  let first := tag_router.create_tag A N now1 db in
  let other := tag_router.create_tag B N now2 (snd first) in
  let dup := tag_router.create_tag A N now3 (snd other) in
  (fst first = {| status_code := 200; body := EchoTag N |}
   /\ tag_named (snd first) A (ts_name N))
  /\ (fst other = {| status_code := 200; body := EchoTag N |}
      /\ tag_named (snd other) B (ts_name N))
  /\ (fst dup = Conflict "Tag already exists" /\ snd dup = snd other)
  /\ (forall d u n now,
        Service.create_model (T:=Tag.t) n u now d
          = Raised unique_tag_violation d
        <-> tag_named d u (ts_name n))
  /\ (forall d u n now,
        user_exists d u ->
        (fst (tag_router.create_tag u n now d) = Conflict "Tag already exists"
         <-> tag_named d u (ts_name n))
        /\ (tag_named d u (ts_name n) ->
            snd (tag_router.create_tag u n now d) = d)).
Proof.
  intros HA HB Hne HnA HnB. cbv zeta.
  destruct (create_tag_step db A N now1 HA) as [_ H1].
  destruct (H1 HnA) as (db1 & E1 & U1 & T1). rewrite E1. cbn [fst snd].
  assert (HB1 : user_exists db1 B) by (eapply user_exists_same; eauto).
  assert (HA1 : user_exists db1 A) by (eapply user_exists_same; eauto).
  assert (NA1 : tag_named db1 A (ts_name N)).
  { apply (tag_named_app db db1 _ A (ts_name N) T1). right.
    eexists. split; [now left|]. split; reflexivity. }
  assert (NB1 : ~ tag_named db1 B (ts_name N)).
  { intros H. apply (tag_named_app db db1 _ B (ts_name N) T1) in H.
    destruct H as [H|(t & [<-|[]] & Hu & _)]; [contradiction|].
    simpl in Hu. congruence. }
  destruct (create_tag_step db1 B N now2 HB1) as [_ H2].
  destruct (H2 NB1) as (db2 & E2 & U2 & T2). rewrite E2. cbn [fst snd].
  assert (HA2 : user_exists db2 A) by (eapply user_exists_same; eauto).
  assert (NA2 : tag_named db2 A (ts_name N)).
  { apply (tag_named_app db1 db2 _ A (ts_name N) T2). now left. }
  assert (NB2 : tag_named db2 B (ts_name N)).
  { apply (tag_named_app db1 db2 _ B (ts_name N) T2). right.
    eexists. split; [now left|]. split; reflexivity. }
  destruct (create_tag_step db2 A N now3 HA2) as [H3 _].
  rewrite (H3 NA2). cbn [fst snd].
  repeat split; auto.
  - apply create_model_tag_unique_iff.
  - apply create_model_tag_unique_iff.
  - now apply create_tag_conflict_iff.
  - now apply create_tag_conflict_iff.
  - intros Hn. destruct (create_tag_step d u n now H) as [Hdup _].
    now rewrite (Hdup Hn).
Qed.

Lemma tag_name_unique_per_user_witness :
  let db := mkDB [User.mk 1 "a@example.com" "A" (Some 0);
                  User.mk 2 "b@example.com" "B" (Some 0)]
                 [] [] [] 2 0 0 false in
  let N := {| ts_name := "work" |} in
  let first := tag_router.create_tag 1 N 5 db in
  let other := tag_router.create_tag 2 N 6 (snd first) in
  let dup := tag_router.create_tag 1 N 7 (snd other) in
  (fst first = {| status_code := 200; body := EchoTag N |}
   /\ tag_named (snd first) 1 (ts_name N))
  /\ (fst other = {| status_code := 200; body := EchoTag N |}
      /\ tag_named (snd other) 2 (ts_name N))
  /\ (fst dup = Conflict "Tag already exists" /\ snd dup = snd other)
  /\ (forall d u n now,
        Service.create_model (T:=Tag.t) n u now d
          = Raised unique_tag_violation d
        <-> tag_named d u (ts_name n))
  /\ (forall d u n now,
        user_exists d u ->
        (fst (tag_router.create_tag u n now d) = Conflict "Tag already exists"
         <-> tag_named d u (ts_name n))
        /\ (tag_named d u (ts_name n) ->
            snd (tag_router.create_tag u n now d) = d)).
Proof.
  apply (tag_name_unique_per_user
           (mkDB [User.mk 1 "a@example.com" "A" (Some 0);
                  User.mk 2 "b@example.com" "B" (Some 0)]
                 [] [] [] 2 0 0 false)
           1 2 {| ts_name := "work" |} 5 6 7).
  - exists (User.mk 1 "a@example.com" "A" (Some 0)).
    split; [now left | reflexivity].
  - exists (User.mk 2 "b@example.com" "B" (Some 0)).
    split; [right; now left | reflexivity].
  - discriminate.
  - intros (t & Hin & _). exact Hin.
  - intros (t & Hin & _). exact Hin.
Defined.

(** ** Seed data (C5) *)

Lemma next_rowid_nil (seq : Z) : 0 <= seq -> Sqlite.next_rowid seq [] = seq + 1.
Proof. intros H. unfold Sqlite.next_rowid. simpl. lia. Qed.

Lemma next_rowid_fresh (seq : Z) (ids : list Z) :
  forall x, In x ids -> x < Sqlite.next_rowid seq ids.
Proof.
  unfold Sqlite.next_rowid. induction ids as [|y ids IH]; intros x []; simpl in *.
  - subst. lia.
  - specialize (IH x H). lia.
Qed.

(** A database that already holds one of the two seed emails stops the
    populator at its first commit. *)
Lemma create_seed_data_conflict (clk : SeedClock) (db : DB) :
  (exists u, In u (users db)
             /\ (User.email u = "alice@example.com"
                 \/ User.email u = "bob@example.com")) ->
  exists e, Service.create_seed_data clk db = Raised e db.
Proof.
  intros (u & Hin & Hmail).
  unfold Service.create_seed_data, bind at 1 2, Sqlite.insert_user at 1.
  destruct (existsb (fun u0 => (User.email u0 =? "alice@example.com")%string)
                    (users db)) eqn:Ea; [eexists; reflexivity|].
  unfold Sqlite.insert_user at 1. cbn [users].
  rewrite existsb_app.
  assert (Eb : existsb (fun u0 => (User.email u0 =? "bob@example.com")%string)
                       (users db) = true).
  { apply existsb_exists. exists u. split; [exact Hin|].
    destruct Hmail as [Hm|Hm]; [|now apply String.eqb_eq].
    exfalso. apply Bool.not_true_iff_false in Ea. apply Ea.
    apply existsb_exists. exists u. split; [exact Hin|now apply String.eqb_eq]. }
  rewrite Eb. eexists. reflexivity.
Qed.

Lemma create_seed_data_on_empty (clk : SeedClock) (su si st : Z) (fk : bool) :
  let u1 := Sqlite.next_rowid su [] in
  let g1 := Sqlite.next_rowid st [] in
  let i1 := Sqlite.next_rowid si [] in
  Service.create_seed_data clk (mkDB [] [] [] [] su si st fk)
  = Committed
      (mkDB (seeded_users clk u1 (u1 + 1))
            (seeded_items clk u1 (u1 + 1) i1 (i1 + 1) (i1 + 2))
            (seeded_tags u1 (u1 + 1) g1 (g1 + 1) (g1 + 2))
            (seeded_links i1 (i1 + 1) (i1 + 2) g1 (g1 + 1) (g1 + 2))
            (u1 + 1) (i1 + 2) (g1 + 2) fk).
Proof.
  destruct fk; eval_seed; repeat (f_equal; try lia).
Qed.

(** C5. On a database with no rows the seed route answers 200 with the
    literal "success" and leaves exactly: the users Alice and Bob with
    their fixed emails; the tags urgent and work of the first user and
    personal of the second; three items of kind book, status reading and
    priority high with the fixed titles and notes, two of the first user
    and one of the second; and, in whatever order the flush of the
    session wrote them, the four links item 1 to urgent and work, item 2
    to work, item 3 to personal.  Called again on the result, the route
    answers 400 "Item already exists" and the database is the one the
    first call left: no user, tag or item is added. *)
Theorem seed_once_then_conflict (clk clk' : SeedClock) (db : DB) :
  is_empty db ->
  let u1 := Sqlite.next_rowid (seq_users db) [] in
  let g1 := Sqlite.next_rowid (seq_tags db) [] in
  let i1 := Sqlite.next_rowid (seq_items db) [] in
  let first := test_router.create_data_for_tests clk db in
  let second := test_router.create_data_for_tests clk' (snd first) in
  fst first = {| status_code := 200; body := Literal "success" |}
  /\ users (snd first) = seeded_users clk u1 (u1 + 1)
  /\ tags (snd first) = seeded_tags u1 (u1 + 1) g1 (g1 + 1) (g1 + 2)
  /\ items (snd first) = seeded_items clk u1 (u1 + 1) i1 (i1 + 1) (i1 + 2)
  /\ Permutation (item_tag (snd first))
       (seeded_links i1 (i1 + 1) (i1 + 2) g1 (g1 + 1) (g1 + 2))
  /\ second = (Conflict "Item already exists", snd first).
Proof.
  intros (Hu & Hi & Ht & Hl).
  destruct db as [us its tgs lks su si st fk]. simpl in Hu, Hi, Ht, Hl.
  subst us its tgs lks. cbv zeta. cbn [seq_users seq_tags seq_items].
  assert (E1 : test_router.create_data_for_tests clk
                 (mkDB [] [] [] [] su si st fk)
               = ({| status_code := 200; body := Literal "success" |},
                  db_of (Service.create_seed_data clk
                           (mkDB [] [] [] [] su si st fk)))).
  { unfold test_router.create_data_for_tests.
    rewrite create_seed_data_on_empty. reflexivity. }
  rewrite E1, create_seed_data_on_empty.
  cbv zeta. cbn [fst snd db_of users tags items item_tag].
  repeat (split; [reflexivity|]).
  unfold test_router.create_data_for_tests.
  match goal with
  | |- context [Service.create_seed_data clk' ?d] =>
      destruct (create_seed_data_conflict clk' d) as [e ->]
  end.
  - eexists. split; [left; reflexivity|]. left. reflexivity.
  - destruct e. reflexivity.
Qed.

Lemma seed_once_then_conflict_witness :
  let clk := {| t_user1 := 10; t_user2 := 10;
                t_item1 := 11; t_item2 := 12; t_item3 := 13 |} in
  let clk' := {| t_user1 := 20; t_user2 := 20;
                 t_item1 := 21; t_item2 := 22; t_item3 := 23 |} in
  let first := test_router.create_data_for_tests clk (create_all false) in
  let second := test_router.create_data_for_tests clk' (snd first) in
  fst first = {| status_code := 200; body := Literal "success" |}
  /\ users (snd first) = seeded_users clk 1 2
  /\ tags (snd first) = seeded_tags 1 2 1 2 3
  /\ items (snd first) = seeded_items clk 1 2 1 2 3
  /\ Permutation (item_tag (snd first)) (seeded_links 1 2 3 1 2 3)
  /\ second = (Conflict "Item already exists", snd first).
Proof.
  apply (seed_once_then_conflict
           {| t_user1 := 10; t_user2 := 10;
              t_item1 := 11; t_item2 := 12; t_item3 := 13 |}
           {| t_user1 := 20; t_user2 := 20;
              t_item1 := 21; t_item2 := 22; t_item3 := 23 |}
           (create_all false)).
  repeat split.
Defined.

(** ** Deleting (C1, C2) *)

(** Whatever the id and the pragma, the DELETE on users touches no row
    of items, tags or item_tag. *)
Lemma delete_user_frame (db : DB) (user_id : Z) :
  let after := db_of (Service.delete_model_by_id (T:=User.t) user_id db) in
  items after = items db /\ tags after = tags db
  /\ item_tag after = item_tag db.
Proof.
  cbv zeta.
  unfold Service.delete_model_by_id, commit, Sqlite.delete_by_id.
  cbn [tablename User_Mapped].
  destruct (foreign_keys db && Sqlite.has_user db user_id && _);
    simpl; repeat split.
Qed.

(** C1, evaluated on a user with one item and one tag linked to it.
    With foreign keys off the user row is deleted (204) while the item,
    the tag and their association row stay, fetch-by-id still returning
    them; with foreign keys on the DELETE is refused (400) and nothing
    is removed at all.  The [cascade="all, delete-orphan"] declared on
    [User.items] and [User.tags] acts on [session.delete(obj)] only, and
    [delete_model_by_id] issues a bulk [delete(model).where(...)]. *)
Theorem delete_user_keeps_items_and_tags (fk : bool) :
  let after := snd (user_router.delete_user 1 (cascade_fixture fk)) in
  Service.get_model_by_id (T:=Item.t) 1 after = Some cascade_item
  /\ Service.get_model_by_id (T:=Tag.t) 1 after = Some cascade_tag
  /\ item_tag after = [(1, 1)]
  /\ status_code (fst (user_router.delete_user 1 (cascade_fixture fk)))
     = (if fk then 400 else 204)
  /\ Service.get_model_by_id (T:=User.t) 1 after
     = (if fk then Some cascade_user else None).
Proof.
  destruct fk; vm_compute; repeat split.
Qed.

Lemma delete_with_query_argument (id k : Z) (db : DB) :
  user_router.DELETE
    {| path_params := [("id", id)]; query_params := [("user_id", k)] |} db
  = user_router.delete_user k db.
Proof. reflexivity. Qed.

(** C2, evaluated on [DELETE /users/<id>], [DELETE /items/<id>] and
    [DELETE /tags/<id>].  The three routes are declared on the template
    ["/{id}"] while their handlers take [user_id], [item_id] and
    [tag_id]; the handler argument is therefore a required query
    parameter, the id in the path is never read, and the request is
    answered 422 with the database as it was. *)
Theorem delete_routes_do_not_read_the_path (id : Z) (db : DB) :
  user_router.DELETE (delete_request id) db
    = ({| status_code := 422; body := Missing "query" "user_id" |}, db)
  /\ item_router.DELETE (delete_request id) db
    = ({| status_code := 422; body := Missing "query" "item_id" |}, db)
  /\ tag_router.DELETE (delete_request id) db
    = ({| status_code := 422; body := Missing "query" "tag_id" |}, db).
Proof. repeat split. Qed.

(** ** The title filter (C9) *)

Section Like.
Local Open Scope string_scope.

Lemma append_assoc (a b c : string) : (a ++ b) ++ c = a ++ (b ++ c).
Proof. induction a as [|x a IH]; simpl; [reflexivity | now rewrite IH]. Qed.

Lemma append_empty_r (a : string) : a ++ EmptyString = a.
Proof. induction a as [|x a IH]; simpl; [reflexivity | now rewrite IH]. Qed.

Lemma lower_append (a b : string) :
  Sql.lower (a ++ b) = Sql.lower a ++ Sql.lower b.
Proof. induction a as [|x a IH]; simpl; [reflexivity | now rewrite IH]. Qed.

Lemma ascii_lower_idem (c : ascii) :
  Sql.ascii_lower (Sql.ascii_lower c) = Sql.ascii_lower c.
Proof. destruct c as [[] [] [] [] [] [] [] []]; reflexivity. Qed.

Lemma ascii_lower_percent (c : ascii) :
  (Sql.ascii_lower c =? "%")%char = (c =? "%")%char.
Proof. destruct c as [[] [] [] [] [] [] [] []]; reflexivity. Qed.

Lemma ascii_lower_underscore (c : ascii) :
  (Sql.ascii_lower c =? "_")%char = (c =? "_")%char.
Proof. destruct c as [[] [] [] [] [] [] [] []]; reflexivity. Qed.

Lemma lower_idem (s : string) : Sql.lower (Sql.lower s) = Sql.lower s.
Proof.
  induction s as [|c s IH]; simpl; [reflexivity|].
  now rewrite ascii_lower_idem, IH.
Qed.

Lemma wildcard_free_lower (s : string) :
  wildcard_free (Sql.lower s) = wildcard_free s.
Proof.
  induction s as [|c s IH]; simpl; [reflexivity|].
  now rewrite ascii_lower_percent, ascii_lower_underscore, IH.
Qed.

(** A lowered string splits where its original does. *)
Lemma lower_split (t a b : string) :
  Sql.lower t = a ++ b ->
  exists a' b', t = a' ++ b' /\ Sql.lower a' = a /\ Sql.lower b' = b.
Proof.
  revert t. induction a as [|x a IH]; intros t H.
  - exists EmptyString, t. repeat split. exact H.
  - destruct t as [|c t]; simpl in H; [discriminate|].
    injection H as Hc Ht. destruct (IH t Ht) as (a' & b' & -> & Ha & Hb).
    exists (String c a'), b'. simpl. rewrite Hc, Ha. repeat split. exact Hb.
Qed.

(** The three shapes of a pattern's head. *)
Lemma like_any (p s : string) :
  Sql.pattern_compare (String "%" p) s
  = Sql.pattern_compare p s
    || match s with
       | EmptyString => false
       | String _ s' => Sql.pattern_compare (String "%" p) s'
       end.
Proof. destruct s; reflexivity. Qed.

Lemma like_literal (c : ascii) (p s : string) :
  (c =? "%")%char = false -> (c =? "_")%char = false ->
  Sql.pattern_compare (String c p) s
  = match s with
    | EmptyString => false
    | String d s' =>
        (Sql.ascii_lower c =? Sql.ascii_lower d)%char && Sql.pattern_compare p s'
    end.
Proof. intros H1 H2. simpl. rewrite H1, H2. reflexivity. Qed.

Lemma like_percent_iff (p s : string) :
  Sql.pattern_compare (String "%" p) s = true
  <-> exists pre post, s = pre ++ post /\ Sql.pattern_compare p post = true.
Proof.
  induction s as [|d s IH]; rewrite like_any.
  - rewrite orb_false_r. split.
    + intros H. exists EmptyString, EmptyString. split; [reflexivity|exact H].
    + intros (pre & post & E & H).
      destruct pre; [|discriminate]. simpl in E. now subst post.
  - rewrite orb_true_iff, IH. split.
    + intros [H|(pre & post & -> & H)].
      * exists EmptyString, (String d s). split; [reflexivity|exact H].
      * exists (String d pre), post. split; [reflexivity|exact H].
    + intros (pre & post & E & H). destruct pre as [|x pre].
      * simpl in E. subst post. now left.
      * simpl in E. injection E as _ ->. right. now exists pre, post.
Qed.

Lemma like_only_percent (s : string) : Sql.pattern_compare "%" s = true.
Proof.
  apply like_percent_iff. exists s, EmptyString.
  split; [now rewrite append_empty_r | reflexivity].
Qed.

(** A run of plain characters in the pattern consumes a prefix of the
    subject that equals it up to case. *)
Lemma like_plain_prefix (lit p s : string) :
  wildcard_free lit = true ->
  Sql.pattern_compare (lit ++ p) s = true
  <-> exists mid rest,
        s = mid ++ rest /\ Sql.lower mid = Sql.lower lit
        /\ Sql.pattern_compare p rest = true.
Proof.
  revert s. induction lit as [|c lit IH]; intros s Hw.
  - simpl. split.
    + intros H. exists EmptyString, s. repeat split. exact H.
    + intros (mid & rest & -> & Hm & H).
      destruct mid; [exact H | discriminate].
  - simpl in Hw. apply andb_true_iff in Hw. destruct Hw as [Hw Hlit].
    apply andb_true_iff in Hw. destruct Hw as [H1 H2].
    apply negb_true_iff in H1, H2.
    change (String c lit ++ p) with (String c (lit ++ p)).
    rewrite (like_literal c _ s H1 H2). destruct s as [|d s].
    + split; [discriminate|].
      intros (mid & rest & E & Hm & _).
      destruct mid; [discriminate Hm | discriminate E].
    + rewrite andb_true_iff, (IH s Hlit), Ascii.eqb_eq. split.
      * intros (Hc & mid & rest & -> & Hm & H).
        exists (String d mid), rest. simpl. rewrite Hm, Hc. repeat split.
        exact H.
      * intros (mid & rest & E & Hm & H).
        destruct mid as [|x mid]; [discriminate Hm|].
        simpl in E, Hm. injection E as -> ->. injection Hm as Hc Hm.
        split; [now symmetry|]. now exists mid, rest.
Qed.

(** Text without NUL is read whole. *)
Lemma c_str_nul_free (s : string) : Sql.nul_free s = true -> Sql.c_str s = s.
Proof.
  induction s as [|c s IH]; simpl; [reflexivity|].
  destruct (c =? Ascii.zero)%char; simpl; [discriminate|].
  intros H. now rewrite IH.
Qed.

Lemma ascii_lower_nul (c : ascii) :
  (Sql.ascii_lower c =? Ascii.zero)%char = (c =? Ascii.zero)%char.
Proof. destruct c as [[] [] [] [] [] [] [] []]; reflexivity. Qed.

Lemma nul_free_lower (s : string) :
  Sql.nul_free (Sql.lower s) = Sql.nul_free s.
Proof.
  induction s as [|c s IH]; simpl; [reflexivity|].
  now rewrite ascii_lower_nul, IH.
Qed.

Lemma nul_free_append (a b : string) :
  Sql.nul_free (a ++ b) = Sql.nul_free a && Sql.nul_free b.
Proof.
  induction a as [|c a IH]; simpl; [reflexivity|].
  now rewrite IH, andb_assoc.
Qed.

Lemma like_nul_free (p s : string) :
  Sql.nul_free p = true -> Sql.nul_free s = true ->
  Sql.like p s = Sql.pattern_compare p s.
Proof.
  intros Hp Hs. unfold Sql.like. now rewrite !c_str_nul_free.
Qed.

Lemma ilike_nul_free (title s : string) :
  Sql.nul_free title = true -> Sql.nul_free s = true ->
  Sql.ilike title (Service.title_pattern s)
  = Sql.pattern_compare (Sql.lower (Service.title_pattern s))
                        (Sql.lower title).
Proof.
  intros Ht Hs. unfold Sql.ilike. apply like_nul_free.
  - unfold Service.title_pattern.
    now rewrite nul_free_lower, !nul_free_append, Hs.
  - now rewrite nul_free_lower.
Qed.

(** What the title filter decides when the substring holds no wildcard. *)
Lemma title_filter_plain (title s : string) :
  Sql.nul_free title = true -> Sql.nul_free s = true ->
  wildcard_free s = true ->
  Sql.ilike title (Service.title_pattern s) = true
  <-> contains_ignoring_case title s.
Proof.
  intros Ht Hs Hw. rewrite (ilike_nul_free title s Ht Hs).
  unfold Service.title_pattern, contains_ignoring_case.
  change ("%" ++ s ++ "%") with (String "%" (s ++ "%")).
  change (Sql.lower (String "%" (s ++ "%")))
    with (String "%" (Sql.lower (s ++ "%"))).
  rewrite lower_append. change (Sql.lower "%") with "%".
  rewrite like_percent_iff. split.
  - intros (pre & post & E & H).
    apply like_plain_prefix in H; [|now rewrite wildcard_free_lower].
    destruct H as (mid & rest & -> & Hm & _).
    rewrite lower_idem in Hm.
    destruct (lower_split _ _ _ E) as (pre' & tl & -> & _ & Htl).
    destruct (lower_split _ _ _ Htl) as (mid' & post' & -> & Hmid & _).
    exists pre', mid', post'. split; [reflexivity|].
    now rewrite <- Hm, <- Hmid, lower_idem.
  - intros (pre & mid & post & -> & Hm).
    exists (Sql.lower pre), (Sql.lower mid ++ Sql.lower post).
    split; [now rewrite !lower_append|].
    apply like_plain_prefix; [now rewrite wildcard_free_lower|].
    exists (Sql.lower mid), (Sql.lower post).
    split; [reflexivity|]. split; [now rewrite !lower_idem|].
    apply like_only_percent.
Qed.

End Like.

(** ** ORDER BY, LIMIT and OFFSET *)

Section OrderByFacts.
Context {A : Type} (le : A -> A -> bool).

Lemma insert_perm (x : A) (l : list A) :
  Permutation (Sql.insert le x l) (x :: l).
Proof.
  induction l as [|y l IH]; simpl; [reflexivity|].
  destruct (le x y); [reflexivity|].
  rewrite IH. apply perm_swap.
Qed.

Lemma order_by_perm (l : list A) : Permutation (Sql.order_by le l) l.
Proof.
  induction l as [|x l IH]; simpl; [reflexivity|].
  unfold Sql.order_by in *. simpl. rewrite insert_perm. now constructor.
Qed.

Hypothesis le_total : forall a b, le a b = true \/ le b a = true.
Hypothesis le_trans : forall a b c, le a b = true -> le b c = true -> le a c = true.

Lemma insert_sorted (x : A) (l : list A) :
  StronglySorted (fun a b => le a b = true) l ->
  StronglySorted (fun a b => le a b = true) (Sql.insert le x l).
Proof.
  induction l as [|y l IH]; intros Hs; simpl.
  - constructor; constructor.
  - inversion Hs as [|? ? Hl Hall]; subst.
    destruct (le x y) eqn:E.
    + constructor; [exact Hs|]. constructor; [exact E|].
      eapply Forall_impl; [|exact Hall]. intros z Hz. eapply le_trans; eauto.
    + constructor; [now apply IH|].
      assert (Hyx : le y x = true)
        by (destruct (le_total x y) as [H|H]; [congruence|exact H]).
      eapply Permutation_Forall; [symmetry; apply insert_perm|].
      constructor; assumption.
Qed.

Lemma order_by_sorted (l : list A) :
  StronglySorted (fun a b => le a b = true) (Sql.order_by le l).
Proof.
  induction l as [|x l IH]; [constructor|].
  unfold Sql.order_by in *. simpl. now apply insert_sorted.
Qed.

End OrderByFacts.

Lemma string_leb_trans (a b c : string) :
  String.leb a b = true -> String.leb b c = true -> String.leb a c = true.
Proof.
  unfold String.leb. revert b c.
  induction a as [|x a IH]; intros [|y b] [|z c]; simpl; try congruence.
  unfold Ascii.compare.
  destruct (N.compare_spec (N_of_ascii x) (N_of_ascii y)) as [Exy|Lxy|Gxy];
    destruct (N.compare_spec (N_of_ascii y) (N_of_ascii z)) as [Eyz|Lyz|Gyz];
    destruct (N.compare_spec (N_of_ascii x) (N_of_ascii z)) as [Exz|Lxz|Gxz];
    try congruence; try lia.
  apply IH.
Qed.

Lemma sql_leb_total (a b : Sql.value) :
  Sql.leb a b = true \/ Sql.leb b a = true.
Proof.
  destruct a, b; simpl; auto.
  - destruct (Z.leb_spec t t0); [now left | right; apply Z.leb_le; lia].
  - apply String.leb_total.
Qed.

Lemma sql_leb_trans (a b c : Sql.value) :
  Sql.leb a b = true -> Sql.leb b c = true -> Sql.leb a c = true.
Proof.
  destruct a, b, c; simpl; try congruence.
  - rewrite !Z.leb_le. lia.
  - apply string_leb_trans.
Qed.





Lemma page_whole {A} (limit offset : Z) (l : list A) :
  offset <= 0 ->
  limit < 0 \/ Z.of_nat (List.length l) <= limit ->
  Sql.limit limit (Sql.offset offset l) = l.
Proof.
  intros Ho Hl. unfold Sql.limit, Sql.offset.
  replace (Z.to_nat offset) with 0%nat by lia. simpl.
  destruct (Z.ltb_spec limit 0) as [_|Hge]; [reflexivity|].
  apply firstn_all2. lia.
Qed.

(** ** What the search selects *)

Lemma passes_row (status kind priority title_substring : option string)
    (created_from created_to : option Z) (r : Service.from_row) :
  forallb (fun f => f r)
          (Service.column_filters status kind priority title_substring
                                  created_from created_to)
  = passes status kind priority title_substring created_from created_to
           (fst r).
Proof.
  unfold passes, Service.column_filters. rewrite !forallb_app.
  destruct (Service.truthy status), (Service.truthy kind),
    (Service.truthy priority), (Service.truthy title_substring),
    created_from, created_to; reflexivity.
Qed.

Lemma in_join_tags (db : DB) (r : Service.from_row) :
  In r (Service.join_tags db)
  <-> exists i t, r = (i, Some t) /\ In i (items db) /\ In t (tags db)
                  /\ linked db (Item.id i) (Tag.id t).
Proof.
  unfold Service.join_tags, linked. rewrite in_flat_map. split.
  - intros (i & Hi & H). apply in_flat_map in H.
    destruct H as ([a b] & Hp & H). simpl in H.
    destruct (Z.eqb_spec a (Item.id i)) as [->|_]; [|destruct H].
    apply in_map_iff in H. destruct H as (t & <- & Ht).
    apply filter_In in Ht. destruct Ht as [Ht Hid].
    apply Z.eqb_eq in Hid. subst b.
    exists i, t. repeat split; assumption.
  - intros (i & t & -> & Hi & Ht & Hl).
    exists i. split; [exact Hi|]. apply in_flat_map.
    exists (Item.id i, Tag.id t). split; [exact Hl|]. simpl.
    rewrite Z.eqb_refl. apply (in_map (fun t0 => (i, Some t0))).
    apply filter_In. split; [exact Ht | apply Z.eqb_refl].
Qed.

Lemma in_names (names : list string) (i : Item.t) (t : Tag.t) :
  Service.in_ names (i, Some t) = true <-> In (Tag.name t) names.
Proof.
  unfold Service.in_. simpl. rewrite existsb_exists. split.
  - intros (n & Hn & E). apply String.eqb_eq in E. now subst n.
  - intros H. exists (Tag.name t). split; [exact H | apply String.eqb_refl].
Qed.

Section Selection.
Variables (status kind priority title_substring : option string).
Variables (created_from created_to : option Z).
Variable db : DB.

Local Abbreviation pass :=
  (passes status kind priority title_substring created_from created_to).
Local Abbreviation select tag_names :=
  (Service.select_items status kind priority tag_names title_substring
                        created_from created_to db).

Lemma select_items_untagged (i : Item.t) :
  In i (select None) <-> In i (items db) /\ pass i = true.
Proof.
  unfold select, Service.select_items, pass.
  rewrite nodup_In, in_map_iff. split.
  - intros (r & <- & Hr). apply filter_In in Hr. destruct Hr as [Hin Hf].
    rewrite passes_row in Hf. unfold Service.from_items in Hin.
    apply in_map_iff in Hin. destruct Hin as (j & <- & Hj). now split.
  - intros [Hin Hp]. exists (i, None). split; [reflexivity|].
    apply filter_In. split.
    + unfold Service.from_items.
      now apply (in_map (fun j : Item.t => (j, @None Tag.t))).
    + now rewrite passes_row.
Qed.

Lemma select_items_empty_list :
  select (Some []) = select None.
Proof. reflexivity. Qed.

Lemma select_items_tagged (n : string) (ns : list string) (i : Item.t) :
  In i (select (Some (n :: ns)))
  <-> In i (items db) /\ pass i = true /\ has_tag_among db (n :: ns) i.
Proof.
  unfold select, Service.select_items, pass, has_tag_among.
  rewrite nodup_In, in_map_iff. split.
  - intros (r & <- & Hr). apply filter_In in Hr. destruct Hr as [Hin Hf].
    rewrite forallb_app, passes_row in Hf.
    apply andb_true_iff in Hf. destruct Hf as [Hp Hn].
    simpl in Hn. rewrite andb_true_r in Hn.
    apply in_join_tags in Hin.
    destruct Hin as (j & t & -> & Hj & Ht & Hl).
    apply in_names in Hn. simpl. split; [exact Hj|]. split; [exact Hp|].
    exists t. repeat split; assumption.
  - intros (Hin & Hp & t & Ht & Hl & Hn).
    exists (i, Some t). split; [reflexivity|]. apply filter_In. split.
    + apply in_join_tags. exists i, t. repeat split; assumption.
    + rewrite forallb_app, passes_row. apply andb_true_iff. split; [exact Hp|].
      simpl. rewrite andb_true_r. now apply in_names.
Qed.

Lemma select_items_NoDup (tag_names : option (list string)) :
  NoDup (select tag_names).
Proof. unfold select, Service.select_items.
       destruct tag_names as [[|n ns]|]; apply NoDup_nodup. Qed.

Lemma select_items_incl (tag_names : option (list string)) (i : Item.t) :
  In i (select tag_names) -> In i (items db).
Proof.
  destruct tag_names as [[|n ns]|]; intros H.
  - rewrite select_items_empty_list in H. now apply select_items_untagged in H.
  - now apply select_items_tagged in H.
  - now apply select_items_untagged in H.
Qed.

End Selection.

Lemma joinedload_item (db : DB) (i : Item.t) : item (Service.joinedload db i) = i.
Proof. reflexivity. Qed.


(** ** The search as a whole *)

Lemma sort_column_bound (sort_field : string) :
  Service.get Service.sort_col_map sort_field
              (fun i => Sql.of_datetime (Item.created_at i))
  = bound_column sort_field.
Proof.
  unfold Service.sort_col_map, Service.get, bound_column.
  destruct (String.eqb_spec "created_at" sort_field) as [<-|_]; [reflexivity|].
  destruct (String.eqb_spec "updated_at" sort_field) as [<-|N1]; [reflexivity|].
  destruct (String.eqb_spec sort_field "updated_at") as [E|_];
    [now subst|].
  destruct (String.eqb_spec "priority" sort_field) as [<-|N2]; [reflexivity|].
  destruct (String.eqb_spec sort_field "priority") as [E|_];
    [now subst | reflexivity].
Qed.

Lemma ordering_sorted (sort_field sort_order : string) (l : list Item.t) :
  StronglySorted
    (in_order (Sql.lower sort_order =? "desc")%string
              (bound_column sort_field))
    (Sql.order_by (Service.ordering sort_field sort_order) l).
Proof.
  unfold Service.ordering. rewrite sort_column_bound.
  destruct (Sql.lower sort_order =? "desc")%string.
  - apply (order_by_sorted (Sql.desc (bound_column sort_field))).
    + intros a b. apply sql_leb_total.
    + intros a b c H1 H2. unfold Sql.desc in *.
      eapply sql_leb_trans; eauto.
  - apply (order_by_sorted (Sql.asc (bound_column sort_field))).
    + intros a b. apply sql_leb_total.
    + intros a b c H1 H2. unfold Sql.asc in *.
      eapply sql_leb_trans; eauto.
Qed.

Section SearchFacts.
Variables (status kind priority : option string).
Variable tag_names : option (list string).
Variable title_substring : option string.
Variables (created_from created_to : option Z).
Variables (limit offset : Z) (sort_field sort_order : string).
Variable db : DB.

Local Abbreviation selected :=
  (Service.select_items status kind priority tag_names title_substring
                        created_from created_to db).
Local Abbreviation result :=
  (Service.get_filtered_items status kind priority tag_names title_substring
                              created_from created_to limit offset
                              sort_field sort_order db).


Lemma search_result_complete (i : Item.t) :
  whole_page db limit offset ->
  In i selected -> In (Service.joinedload db i) result.
Proof.
  intros [Ho Hl] Hi. unfold result, Service.get_filtered_items.
  apply in_map. rewrite page_whole.
  - eapply Permutation_in; [symmetry; apply order_by_perm | exact Hi].
  - exact Ho.
  - destruct Hl as [Hl|Hl]; [now left | right].
    rewrite (Permutation_length (order_by_perm _ _)).
    assert (List.length
              (Service.select_items status kind priority tag_names
                 title_substring created_from created_to db)
            <= List.length (items db))%nat; [|lia].
    apply NoDup_incl_length; [apply select_items_NoDup|].
    intros x. apply select_items_incl.
Qed.


End SearchFacts.

(** ** Any-match tag filter (C4) *)


(** The three seeded items, searched for the tags urgent or personal:
    items 3 and 1 come back once each, item 1 with both of its tags. *)
Example tag_filter_on_seed_data :
  map (fun r => (Item.id (item r), map Tag.name (item_tags r)))
      (Service.get_filtered_items None None None
         (Some ["urgent"; "personal"]) None None None 20 0
         "created_at" "desc" seeded)
  = [ (3, ["personal"]); (1, ["urgent"; "work"]) ].
Proof. vm_compute. reflexivity. Qed.


(** ** Sorting and paging (C3) *)







(** ** Case-insensitive title filter, continued (C9) *)

Lemma returned_item (db : DB) (i : Item.t) (l : list ItemWithTags) :
  In (Service.joinedload db i) l -> In i (map item l).
Proof.
  intros H. rewrite <- (joinedload_item db i). now apply in_map.
Qed.

(** A LIKE wildcard inside the substring is read as a wildcard, so the
    equivalence of [title_filter_plain] does not reach substrings that
    hold one: the one-character substring [_] selects the title "abc",
    which contains no underscore. *)
Lemma title_filter_wildcard_counterexample :
  ~ (forall title s : string,
       s <> EmptyString ->
       (Sql.ilike title (Service.title_pattern s) = true
        <-> contains_ignoring_case title s)).
Proof.
  intros H. specialize (H "abc" "_")%string.
  destruct H as [H _]; [discriminate|].
  destruct (H eq_refl) as (pre & mid & post & E & Hm).
  destruct mid as [|c [|c' mid]]; simpl in Hm; try discriminate.
  injection Hm as Hc.
  assert (Eu : (c =? "_")%char = true).
  { rewrite <- ascii_lower_underscore, Hc. reflexivity. }
  apply Ascii.eqb_eq in Eu. subst c.
  destruct pre as [|p1 [|p2 [|p3 [|p4 pre]]]]; simpl in E; try discriminate;
    destruct post; discriminate.
Qed.

(** C9 as stated does not hold of letters outside ASCII: the engine
    folds the case of the 26 ASCII letters only.  An item whose title is
    the capital letter E with an acute accent contains the small letter
    when case is ignored, yet it does not pass the filter for it, and
    the search for it returns nothing.  Nor does it hold past a NUL
    character, where the engine stops reading the title: the title
    made of "a", a NUL and "b" contains "b" and does not pass the
    filter for it. *)
Lemma title_filter_non_ascii_counterexample :
  let i := Item.mk 1 1 capital_e_acute "book" "reading" "high" None
                   (Some 0) None in
  let db := mkDB [User.mk 1 "a@example.com" "A" (Some 0)] [i] [] []
                 1 1 0 false in
  small_e_acute <> EmptyString
  /\ contains_ignoring_letter_case (Item.title i) small_e_acute
  /\ Sql.ilike (Item.title i) (Service.title_pattern small_e_acute) = false
  /\ Service.get_filtered_items None None None None (Some small_e_acute)
       None None 20 0 "created_at" "desc" db = []
  /\ contains_ignoring_letter_case after_nul "b"
  /\ Sql.ilike after_nul (Service.title_pattern "b") = false.
Proof.
  cbv zeta. split; [discriminate|].
  split; [|split; [reflexivity|split; [reflexivity|split; [|reflexivity]]]].
  - exists EmptyString, capital_e_acute, EmptyString.
    split; reflexivity.
  - exists (String "a" (String Ascii.zero EmptyString)), "b"%string,
      EmptyString.
    split; reflexivity.
Qed.

(** C9, amended.  Take a title and a non-empty substring that the
    engine reads as they are written (no NUL character, neither of the
    noncharacters U+FFFE and U+FFFF), the substring holding neither [%]
    nor [_] and short enough for its pattern to stay within the
    engine's limit.  Then the item passes the title filter if and only
    if its title contains the substring up to the case of ASCII
    letters; the search with only the title filter switched on selects
    exactly the stored items that do, and returns every one of them
    when LIMIT and OFFSET cut nothing off.  An item titled "Finish
    Report" stored among at most 20 items is returned for "report" and
    for "FINISH". *)
Theorem title_filter_case_insensitive :
  (forall (db : DB) (s : string) (i : Item.t),
     s <> EmptyString -> wildcard_free s = true ->
     Sql.read_as_written s = true -> pattern_fits s ->
     Sql.read_as_written (Item.title i) = true ->
     (Sql.ilike (Item.title i) (Service.title_pattern s) = true
      <-> contains_ignoring_case (Item.title i) s)
     /\ (In i (Service.select_items None None None None (Some s) None None db)
         <-> In i (items db) /\ contains_ignoring_case (Item.title i) s)
     /\ (forall limit offset sort_field sort_order,
           Sqlite.int64 limit -> Sqlite.int64 offset ->
           whole_page db limit offset ->
           In i (items db) -> contains_ignoring_case (Item.title i) s ->
           In i (map item
                   (Service.get_filtered_items None None None None (Some s)
                      None None limit offset sort_field sort_order db))))
  /\
  (forall (db : DB) (i : Item.t),
     In i (items db) -> Item.title i = "Finish Report"%string ->
     (List.length (items db) <= 20)%nat ->
     In i (map item
             (Service.get_filtered_items None None None None
                (Some "report"%string)
                None None 20 0 "created_at" "desc" db))
     /\ In i (map item
                (Service.get_filtered_items None None None None
                   (Some "FINISH"%string)
                   None None 20 0 "created_at" "desc" db))).
Proof.
  assert (Hsel : forall db s i, s <> EmptyString -> wildcard_free s = true ->
            Sql.nul_free s = true -> Sql.nul_free (Item.title i) = true ->
            (In i (Service.select_items None None None None (Some s)
                     None None db)
             <-> In i (items db) /\ contains_ignoring_case (Item.title i) s)).
  { intros db s i Hs Hw Hn Ht. rewrite select_items_untagged.
    unfold passes, Service.column_filters, Service.truthy.
    destruct (String.eqb_spec s EmptyString) as [E|_]; [contradiction|].
    simpl. rewrite andb_true_r, (title_filter_plain _ _ Ht Hn Hw).
    reflexivity. }
  split.
  - intros db s i Hs Hw Hn _ Ht.
    apply andb_true_iff in Hn. destruct Hn as [Hn _].
    apply andb_true_iff in Ht. destruct Ht as [Ht _].
    split; [now apply title_filter_plain|].
    split; [now apply Hsel|].
    intros limit offset sort_field sort_order _ _ Hp Hin Hc.
    apply (returned_item db).
    apply search_result_complete; [exact Hp|]. now apply Hsel.
  - intros db i Hin Ht Hlen.
    assert (Hp : whole_page db 20 0) by (unfold whole_page; lia).
    split; apply (returned_item db);
      apply search_result_complete; try exact Hp; apply Hsel;
      try discriminate; try reflexivity; try (rewrite Ht; reflexivity);
      (split; [exact Hin|]); rewrite Ht.
    + exists "Finish "%string, "Report"%string, EmptyString.
      split; reflexivity.
    + exists EmptyString, "Finish"%string, " Report"%string.
      split; reflexivity.
Qed.

Lemma title_filter_case_insensitive_witness :
  let i := Item.mk 1 1 "Finish Report" "book" "reading" "high" None
                   (Some 0) None in
  let db := mkDB [User.mk 1 "a@example.com" "A" (Some 0)] [i] [] []
                 1 1 0 false in
  (Sql.ilike (Item.title i) (Service.title_pattern "rEPORT") = true
   <-> contains_ignoring_case (Item.title i) "rEPORT")
  /\ In i (map item
             (Service.get_filtered_items None None None None
                (Some "report"%string)
                None None 20 0 "created_at" "desc" db))
  /\ In i (map item
             (Service.get_filtered_items None None None None
                (Some "FINISH"%string)
                None None 20 0 "created_at" "desc" db)).
Proof.
  cbv zeta. split.
  - apply (proj1 title_filter_case_insensitive (create_all false) "rEPORT"
             (Item.mk 1 1 "Finish Report" "book" "reading" "high" None
                      (Some 0) None)).
    + discriminate.
    + reflexivity.
    + reflexivity.
    + unfold pattern_fits, Sql.max_like_pattern_length. simpl. lia.
    + reflexivity.
  - apply (proj2 title_filter_case_insensitive
             (mkDB [User.mk 1 "a@example.com" "A" (Some 0)]
                   [Item.mk 1 1 "Finish Report" "book" "reading" "high" None
                            (Some 0) None]
                   [] [] 1 1 0 false)).
    + left. reflexivity.
    + reflexivity.
    + simpl. lia.
Defined.

(** * Further properties of the service and its routes *)

(** ** Lists of rows *)

Lemma find_snoc {A} (f : A -> bool) (l : list A) (x : A) :
  find f (l ++ [x])
  = match find f l with
    | Some y => Some y
    | None => if f x then Some x else None
    end.
Proof.
  induction l as [|y l IH]; simpl; [reflexivity|].
  destruct (f y); [reflexivity | exact IH].
Qed.

Lemma find_filter_other {T} (key : T -> Z) (id k : Z) (l : list T) :
  k <> id ->
  find (fun r => key r =? k) (filter (fun r => negb (key r =? id)) l)
  = find (fun r => key r =? k) l.
Proof.
  intros Hk. induction l as [|x l IH]; simpl; [reflexivity|].
  destruct (Z.eqb_spec (key x) id) as [E|N]; simpl.
  - destruct (Z.eqb_spec (key x) k) as [E'|_]; [congruence | exact IH].
  - destruct (key x =? k); [reflexivity | exact IH].
Qed.

Lemma filter_idem {A} (f : A -> bool) (l : list A) :
  filter f (filter f l) = filter f l.
Proof.
  induction l as [|x l IH]; simpl; [reflexivity|].
  destruct (f x) eqn:E; simpl; [rewrite E, IH|]; auto.
Qed.

Lemma filter_keeps_all {A} (f : A -> bool) (l : list A) :
  (forall x, In x l -> f x = true) -> filter f l = l.
Proof.
  induction l as [|x l IH]; intros H; simpl; [reflexivity|].
  rewrite (H x (or_introl eq_refl)), IH; [reflexivity|].
  intros y Hy. apply H. now right.
Qed.

Lemma existsb_key_absent {T} (key : T -> Z) (id : Z) (l : list T) :
  (forall x, In x l -> key x <> id) ->
  existsb (fun r => key r =? id) l = false.
Proof.
  intros H. apply not_true_is_false. intros E.
  apply existsb_exists in E. destruct E as (x & Hx & E).
  apply Z.eqb_eq in E. exact (H x Hx E).
Qed.

Lemma existsb_after_delete {T} (key : T -> Z) (id : Z) (l : list T) :
  existsb (fun r => key r =? id) (filter (fun r => negb (key r =? id)) l)
  = false.
Proof.
  apply existsb_key_absent. intros x Hx E.
  apply filter_In in Hx. destruct Hx as [_ Hx].
  apply Z.eqb_eq in E. rewrite E in Hx. discriminate.
Qed.

Lemma next_rowid_above_seq (seq : Z) (ids : list Z) :
  seq < Sqlite.next_rowid seq ids.
Proof. unfold Sqlite.next_rowid. lia. Qed.

Lemma next_rowid_above_ids {T} (key : T -> Z) (seq : Z) (l : list T) (x : T) :
  In x l -> key x < Sqlite.next_rowid seq (map key l).
Proof. intros H. apply next_rowid_fresh. now apply in_map. Qed.

Lemma DB_eta (db : DB) :
  mkDB (users db) (items db) (tags db) (item_tag db)
       (seq_users db) (seq_items db) (seq_tags db) (foreign_keys db) = db.
Proof. now destruct db. Qed.

(** ** Users: create, fetch, conflict *)

Lemma existsb_email (db : DB) (e : string) :
  existsb (fun u => (User.email u =? e)%string) (users db) = true
  <-> exists u, In u (users db) /\ User.email u = e.
Proof.
  rewrite existsb_exists. split; intros (u & Hin & H); exists u;
    (split; [exact Hin|]); now apply String.eqb_eq.
Qed.

(** The two outcomes of [create_user]. *)
Lemma create_user_cases (user : UserBaseSchema) (now : Z) (db : DB) :
  ((exists u, In u (users db) /\ User.email u = us_email user) ->
   user_router.create_user user now db
   = (Conflict "User already exists", db))
  /\
  (~ (exists u, In u (users db) /\ User.email u = us_email user) ->
   user_router.create_user user now db
   = ({| status_code := 200; body := EchoUser user |},
      mkDB (users db
            ++ [User.mk (Sqlite.next_rowid (seq_users db)
                                           (map User.id (users db)))
                        (us_email user) (us_display_name user) (Some now)])
           (items db) (tags db) (item_tag db)
           (Sqlite.next_rowid (seq_users db) (map User.id (users db)))
           (seq_items db) (seq_tags db) (foreign_keys db))).
Proof.
  unfold user_router.create_user, Service.create_model, commit.
  simpl flush_new. unfold Sqlite.insert_user. split; intros H.
  - apply existsb_email in H. rewrite H. reflexivity.
  - destruct (existsb _ (users db)) eqn:E; [|reflexivity].
    apply existsb_email in E. contradiction.
Qed.

(** X1. Creating a user whose email is not stored yet answers 200 with
    the input echoed; the user receives an id above every stored id,
    is then returned by fetch-by-id with the submitted email and display
    name and the creation instant, and is listed last by fetch-all;
    every user that could be fetched before is fetched unchanged. *)
Theorem create_user_then_fetch (user : UserBaseSchema) (now : Z) (db : DB) :
  (forall u, In u (users db) -> User.email u <> us_email user) ->
  let after := snd (user_router.create_user user now db) in
  let id := Sqlite.next_rowid (seq_users db) (map User.id (users db)) in
  let row := User.mk id (us_email user) (us_display_name user) (Some now) in
  fst (user_router.create_user user now db)
    = {| status_code := 200; body := EchoUser user |}
  /\ (forall u, In u (users db) -> User.id u < id)
  /\ user_router.get_user_by_id id after
     = ({| status_code := 200; body := OneUser row |}, after)
  /\ user_router.get_all_users after
     = ({| status_code := 200; body := Users (users db ++ [row]) |}, after)
  /\ (forall k u, Service.get_model_by_id (T:=User.t) k db = Some u ->
                  Service.get_model_by_id (T:=User.t) k after = Some u).
Proof.
  intros Hnew. cbv zeta.
  destruct (create_user_cases user now db) as [_ Hok].
  rewrite Hok by (intros (u & Hin & E); exact (Hnew u Hin E)).
  cbn [fst snd].
  assert (Hfresh : forall u, In u (users db) ->
            User.id u < Sqlite.next_rowid (seq_users db)
                                          (map User.id (users db)))
    by (intros u Hu; now apply (next_rowid_above_ids User.id)).
  split; [reflexivity|]. split; [exact Hfresh|]. split; [|split].
  - unfold user_router.get_user_by_id, Service.get_model_by_id.
    cbn [rows User_Mapped users pk]. rewrite find_snoc.
    rewrite find_key_absent
      by (intros x Hx; specialize (Hfresh x Hx); lia).
    cbn [User.id]. rewrite Z.eqb_refl. reflexivity.
  - reflexivity.
  - intros k u Hk. unfold Service.get_model_by_id in *.
    cbn [rows User_Mapped users pk] in *. rewrite find_snoc, Hk. reflexivity.
Qed.

Lemma create_user_then_fetch_witness :
  let user := {| us_email := "u1@example.com"; us_display_name := "U1" |} in
  let db := create_all false in
  let after := snd (user_router.create_user user 5 db) in
  let row := User.mk 1 "u1@example.com" "U1" (Some 5) in
  fst (user_router.create_user user 5 db)
    = {| status_code := 200; body := EchoUser user |}
  /\ (forall u, In u (users db) -> User.id u < 1)
  /\ user_router.get_user_by_id 1 after
     = ({| status_code := 200; body := OneUser row |}, after)
  /\ user_router.get_all_users after
     = ({| status_code := 200; body := Users (users db ++ [row]) |}, after)
  /\ (forall k u, Service.get_model_by_id (T:=User.t) k db = Some u ->
                  Service.get_model_by_id (T:=User.t) k after = Some u).
Proof.
  apply (create_user_then_fetch
           {| us_email := "u1@example.com"; us_display_name := "U1" |}
           5 (create_all false)).
  intros u Hu. destruct Hu.
Defined.

(** X2. [create_user] answers 400 "User already exists" exactly when a
    stored user has the submitted email, and then leaves the database as
    it was; otherwise it answers 200.  Display names are free to
    repeat. *)
Theorem create_user_conflict_iff (user : UserBaseSchema) (now : Z) (db : DB) :
  (fst (user_router.create_user user now db) = Conflict "User already exists"
   <-> exists u, In u (users db) /\ User.email u = us_email user)
  /\ ((exists u, In u (users db) /\ User.email u = us_email user) ->
      snd (user_router.create_user user now db) = db)
  /\ (~ (exists u, In u (users db) /\ User.email u = us_email user) ->
      status_code (fst (user_router.create_user user now db)) = 200).
Proof.
  destruct (create_user_cases user now db) as [Hdup Hok].
  split; [split|split].
  - intros H.
    destruct (existsb (fun u => (User.email u =? us_email user)%string)
                      (users db)) eqn:E.
    + now apply existsb_email.
    + exfalso. rewrite Hok in H; [discriminate|].
      intros Hex. apply existsb_email in Hex. congruence.
  - intros H. now rewrite (Hdup H).
  - intros H. now rewrite (Hdup H).
  - intros H. now rewrite (Hok H).
Qed.

(** ** Items and tags of a user: create and list *)

Lemma get_user_absent (db : DB) (user_id : Z) :
  ~ user_exists db user_id ->
  Service.get_model_by_id (T:=User.t) user_id db = None.
Proof.
  intros H. apply find_key_absent. intros u Hu E. apply H. now exists u.
Qed.

Lemma get_user_same_users (db db' : DB) (user_id : Z) :
  users db' = users db ->
  Service.get_model_by_id (T:=User.t) user_id db'
  = Service.get_model_by_id (T:=User.t) user_id db.
Proof. unfold Service.get_model_by_id. simpl. now intros ->. Qed.

(** X3. The four routes that name an owner ([create_item],
    [create_tag], [get_items_by_user], [get_user_tags]) answer 404
    "User not found" when the id is one the driver can bind (a 64-bit
    integer) and no user has it, and leave the database as it was:
    nothing is created for a missing user. *)
Theorem owner_routes_need_the_user
    (db : DB) (user_id now : Z) (i : ItemBaseSchema) (tag : TagBaseSchema) :
  Sqlite.int64 user_id ->
  ~ user_exists db user_id ->
  item_router.create_item i user_id now db
    = ({| status_code := 404; body := Detail "User not found" |}, db)
  /\ tag_router.create_tag user_id tag now db
    = ({| status_code := 404; body := Detail "User not found" |}, db)
  /\ item_router.get_items_by_user user_id db
    = ({| status_code := 404; body := Detail "User not found" |}, db)
  /\ tag_router.get_user_tags user_id db
    = ({| status_code := 404; body := Detail "User not found" |}, db).
Proof.
  intros _ H. apply get_user_absent in H.
  unfold item_router.create_item, tag_router.create_tag,
    item_router.get_items_by_user, tag_router.get_user_tags.
  rewrite H. repeat split.
Qed.

Lemma owner_routes_need_the_user_witness :
  let i := {| is_title := "Dune"; is_kind := ItemKind.book;
              is_status := ItemStatus.planned;
              is_priority := ItemPriority.low; is_notes := None |} in
  let tag := {| ts_name := "work" |} in
  item_router.create_item i 9 5 seeded
    = ({| status_code := 404; body := Detail "User not found" |}, seeded)
  /\ tag_router.create_tag 9 tag 5 seeded
    = ({| status_code := 404; body := Detail "User not found" |}, seeded)
  /\ item_router.get_items_by_user 9 seeded
    = ({| status_code := 404; body := Detail "User not found" |}, seeded)
  /\ tag_router.get_user_tags 9 seeded
    = ({| status_code := 404; body := Detail "User not found" |}, seeded).
Proof.
  apply (owner_routes_need_the_user seeded 9 5).
  - unfold Sqlite.int64. lia.
  - intros (u & Hu & E). vm_compute in Hu.
    destruct Hu as [<-|[<-|[]]]; discriminate.
Defined.

Lemma create_item_ok (i : ItemBaseSchema) (user_id now : Z) (db : DB) :
  user_exists db user_id ->
  item_router.create_item i user_id now db
  = ({| status_code := 200; body := EchoItem i |},
     mkDB (users db)
          (items db
           ++ [new_item (Sqlite.next_rowid (seq_items db)
                                           (map Item.id (items db)))
                        user_id i now])
          (tags db) (item_tag db) (seq_users db)
          (Sqlite.next_rowid (seq_items db) (map Item.id (items db)))
          (seq_tags db) (foreign_keys db)).
Proof.
  intros Hu. destruct (get_user_present db user_id Hu) as (u & Eu & _ & _).
  unfold item_router.create_item. rewrite Eu.
  unfold Service.create_model, commit. simpl flush_new.
  unfold Sqlite.insert_item.
  rewrite (has_user_present db user_id Hu), andb_false_r. reflexivity.
Qed.

(** X4. For an existing user [create_item] always answers 200 (there is
    no conflict on items: equal titles may repeat).  The stored row has
    a new id above every stored item id, the owner, the schema's fields
    with the enumerations as their strings, the creation instant, and
    no update instant.  It is returned by fetch-by-id, appended to the
    owner's listing, and leaves the listings of the other users, the
    users, the tags and the links as they were. *)
Theorem create_item_then_list
    (i : ItemBaseSchema) (user_id now : Z) (db : DB) :
  user_exists db user_id ->
  let after := snd (item_router.create_item i user_id now db) in
  let id := Sqlite.next_rowid (seq_items db) (map Item.id (items db)) in
  let row := new_item id user_id i now in
  fst (item_router.create_item i user_id now db)
    = {| status_code := 200; body := EchoItem i |}
  /\ (forall j, In j (items db) -> Item.id j < id)
  /\ Item.updated_at row = None
  /\ Service.get_model_by_id (T:=Item.t) id after = Some row
  /\ Service.get_models_by_user_id (T:=Item.t) user_id after
     = Service.get_models_by_user_id (T:=Item.t) user_id db ++ [row]
  /\ (forall other, other <> user_id ->
        Service.get_models_by_user_id (T:=Item.t) other after
        = Service.get_models_by_user_id (T:=Item.t) other db)
  /\ (forall k j, Service.get_model_by_id (T:=Item.t) k db = Some j ->
                  Service.get_model_by_id (T:=Item.t) k after = Some j)
  /\ users after = users db /\ tags after = tags db
  /\ item_tag after = item_tag db.
Proof.
  intros Hu. cbv zeta. rewrite (create_item_ok i user_id now db Hu).
  cbn [fst snd users tags item_tag].
  assert (Hfresh : forall j, In j (items db) ->
            Item.id j < Sqlite.next_rowid (seq_items db)
                                          (map Item.id (items db)))
    by (intros j Hj; now apply (next_rowid_above_ids Item.id)).
  split; [reflexivity|]. split; [exact Hfresh|]. split; [reflexivity|].
  split; [|split; [|split; [|split]]].
  - unfold Service.get_model_by_id. cbn [rows Item_Mapped items pk].
    rewrite find_snoc.
    rewrite find_key_absent by (intros x Hx; specialize (Hfresh x Hx); lia).
    unfold new_item at 1. cbn [Item.id]. now rewrite Z.eqb_refl.
  - unfold Service.get_models_by_user_id.
    cbn [rows Item_Mapped items owner Item_Owned].
    rewrite filter_app. simpl. unfold new_item at 1. cbn [Item.user_id].
    now rewrite Z.eqb_refl.
  - intros other Hne. unfold Service.get_models_by_user_id.
    cbn [rows Item_Mapped items owner Item_Owned].
    rewrite filter_app. simpl. unfold new_item at 1. cbn [Item.user_id].
    destruct (Z.eqb_spec user_id other); [congruence|]. apply app_nil_r.
  - intros k j Hk. unfold Service.get_model_by_id in *.
    cbn [rows Item_Mapped items pk] in *. now rewrite find_snoc, Hk.
  - repeat split.
Qed.

Lemma create_item_then_list_witness :
  let i := {| is_title := "Dune"; is_kind := ItemKind.book;
              is_status := ItemStatus.planned;
              is_priority := ItemPriority.low; is_notes := None |} in
  let after := snd (item_router.create_item i 2 50 seeded) in
  let row := new_item 4 2 i 50 in
  fst (item_router.create_item i 2 50 seeded)
    = {| status_code := 200; body := EchoItem i |}
  /\ (forall j, In j (items seeded) -> Item.id j < 4)
  /\ Item.updated_at row = None
  /\ Service.get_model_by_id (T:=Item.t) 4 after = Some row
  /\ Service.get_models_by_user_id (T:=Item.t) 2 after
     = Service.get_models_by_user_id (T:=Item.t) 2 seeded ++ [row]
  /\ (forall other, other <> 2 ->
        Service.get_models_by_user_id (T:=Item.t) other after
        = Service.get_models_by_user_id (T:=Item.t) other seeded)
  /\ (forall k j, Service.get_model_by_id (T:=Item.t) k seeded = Some j ->
                  Service.get_model_by_id (T:=Item.t) k after = Some j)
  /\ users after = users seeded /\ tags after = tags seeded
  /\ item_tag after = item_tag seeded.
Proof.
  apply (create_item_then_list
           {| is_title := "Dune"; is_kind := ItemKind.book;
              is_status := ItemStatus.planned;
              is_priority := ItemPriority.low; is_notes := None |}
           2 50 seeded).
  exists (User.mk 2 "bob@example.com" "Bob" (Some 10)).
  split; [vm_compute; right; now left | reflexivity].
Defined.

(** X5. When [create_tag] answers 200 the tag is stored under a new id
    above every stored tag id, with the owner and the submitted name.
    [get_user_tags] then lists the owner's earlier tags and the new
    one, in the order of their names, which is the order of the index
    the engine reads them from and not the order of creation; the
    listings of the other users are as before. *)
Theorem create_tag_then_list
    (user_id : Z) (tag : TagBaseSchema) (now : Z) (db : DB) :
  user_exists db user_id ->
  ~ tag_named db user_id (ts_name tag) ->
  let after := snd (tag_router.create_tag user_id tag now db) in
  let id := Sqlite.next_rowid (seq_tags db) (map Tag.id (tags db)) in
  let row := Tag.mk id user_id (ts_name tag) in
  fst (tag_router.create_tag user_id tag now db)
    = {| status_code := 200; body := EchoTag tag |}
  /\ (forall t, In t (tags db) -> Tag.id t < id)
  /\ tag_router.get_tag_by_id id after
     = ({| status_code := 200; body := OneTag row |}, after)
  /\ (exists listed,
        tag_router.get_user_tags user_id after
        = ({| status_code := 200; body := Tags listed |}, after)
        /\ Permutation listed
             (row :: Service.get_models_by_user_id (T:=Tag.t) user_id db)
        /\ StronglySorted name_order listed)
  /\ (forall other, other <> user_id ->
        Service.get_models_by_user_id (T:=Tag.t) other after
        = Service.get_models_by_user_id (T:=Tag.t) other db)
  /\ users after = users db /\ items after = items db
  /\ item_tag after = item_tag db.
Proof.
  intros Hu Hn. cbv zeta.
  destruct (get_user_present db user_id Hu) as (u & Eu & _ & _).
  assert (E : tag_router.create_tag user_id tag now db
              = ({| status_code := 200; body := EchoTag tag |},
                 mkDB (users db) (items db)
                      (tags db ++ [Tag.mk (Sqlite.next_rowid (seq_tags db)
                                             (map Tag.id (tags db)))
                                          user_id (ts_name tag)])
                      (item_tag db) (seq_users db) (seq_items db)
                      (Sqlite.next_rowid (seq_tags db) (map Tag.id (tags db)))
                      (foreign_keys db))).
  { unfold tag_router.create_tag. rewrite Eu.
    destruct (create_tag_model_cases tag user_id now db) as [_ Hnew].
    destruct (Hnew Hn) as [_ Hok]. rewrite Hok; [reflexivity|].
    rewrite (has_user_present db user_id Hu). apply andb_false_r. }
  rewrite E. cbn [fst snd users items item_tag].
  assert (Hfresh : forall t, In t (tags db) ->
            Tag.id t < Sqlite.next_rowid (seq_tags db) (map Tag.id (tags db)))
    by (intros t Ht; now apply (next_rowid_above_ids Tag.id)).
  split; [reflexivity|]. split; [exact Hfresh|].
  split; [|split; [|split]].
  - unfold tag_router.get_tag_by_id, Service.get_model_by_id.
    cbn [rows Tag_Mapped tags pk]. rewrite find_snoc.
    rewrite find_key_absent by (intros x Hx; specialize (Hfresh x Hx); lia).
    cbn [Tag.id]. now rewrite Z.eqb_refl.
  - unfold tag_router.get_user_tags.
    rewrite (get_user_same_users db) by reflexivity. rewrite Eu.
    eexists. split; [reflexivity|].
    unfold Service.get_models_by_user_id.
    cbn [rows Tag_Mapped tags owner owner_index Tag_Owned].
    rewrite filter_app. simpl. rewrite Z.eqb_refl. split.
    + rewrite !order_by_perm. rewrite Permutation_app_comm. reflexivity.
    + apply order_by_sorted.
      * intros a b. apply String.leb_total.
      * intros a b c. apply string_leb_trans.
  - intros other Hne. unfold Service.get_models_by_user_id.
    cbn [rows Tag_Mapped tags owner owner_index Tag_Owned].
    rewrite filter_app. simpl.
    destruct (Z.eqb_spec user_id other); [congruence|].
    now rewrite app_nil_r.
  - repeat split.
Qed.

Lemma create_tag_then_list_witness :
  let tag := {| ts_name := "later" |} in
  let after := snd (tag_router.create_tag 1 tag 5 seeded) in
  let row := Tag.mk 4 1 "later" in
  (fst (tag_router.create_tag 1 tag 5 seeded)
     = {| status_code := 200; body := EchoTag tag |}
   /\ (forall t, In t (tags seeded) -> Tag.id t < 4)
   /\ tag_router.get_tag_by_id 4 after
      = ({| status_code := 200; body := OneTag row |}, after)
   /\ (exists listed,
         tag_router.get_user_tags 1 after
         = ({| status_code := 200; body := Tags listed |}, after)
         /\ Permutation listed
              (row :: Service.get_models_by_user_id (T:=Tag.t) 1 seeded)
         /\ StronglySorted name_order listed)
   /\ (forall other, other <> 1 ->
         Service.get_models_by_user_id (T:=Tag.t) other after
         = Service.get_models_by_user_id (T:=Tag.t) other seeded)
   /\ users after = users seeded /\ items after = items seeded
   /\ item_tag after = item_tag seeded)
  /\ fst (tag_router.get_user_tags 1 after)
     = {| status_code := 200;
          body := Tags [row; Tag.mk 1 1 "urgent"; Tag.mk 2 1 "work"] |}.
Proof.
  split; [|reflexivity].
  apply (create_tag_then_list 1 {| ts_name := "later" |} 5 seeded).
  - exists (User.mk 1 "alice@example.com" "Alice" (Some 10)).
    split; [vm_compute; now left | reflexivity].
  - intros (t & Ht & _ & En). vm_compute in Ht.
    destruct Ht as [<-|[<-|[<-|[]]]]; discriminate.
Defined.

(** ** Deleting items, tags and users *)

(** X6. For an id the driver can bind (a 64-bit integer) [delete_item]
    answers 204 whether or not the item exists.  Afterwards fetch-by-id
    finds no item under that id and finds every other item as before;
    users and tags are untouched.  The association rows of the item
    stay in place unless foreign keys are enforced, in which case
    exactly the rows of that item go.  Deleting again changes
    nothing. *)
Theorem delete_item_effect (item_id : Z) (db : DB) :
  Sqlite.int64 item_id ->
  let after := snd (item_router.delete_item item_id db) in
  fst (item_router.delete_item item_id db) = no_content
  /\ Service.get_model_by_id (T:=Item.t) item_id after = None
  /\ (forall k, k <> item_id ->
        Service.get_model_by_id (T:=Item.t) k after
        = Service.get_model_by_id (T:=Item.t) k db)
  /\ users after = users db /\ tags after = tags db
  /\ (foreign_keys db = false -> item_tag after = item_tag db)
  /\ (foreign_keys db = true -> item_exists db item_id ->
      forall p, In p (item_tag after)
                <-> In p (item_tag db) /\ fst p <> item_id)
  /\ item_router.delete_item item_id after = (no_content, after).
Proof.
  intros _. cbv zeta.
  unfold item_router.delete_item, Service.delete_model_by_id, commit,
    Sqlite.delete_by_id.
  cbn [tablename Item_Mapped fst snd users tags items item_tag foreign_keys].
  split; [reflexivity|]. split; [apply (find_after_delete Item.id)|].
  split; [intros k Hk; now apply (find_filter_other Item.id)|].
  split; [reflexivity|]. split; [reflexivity|].
  split; [now intros ->|]. split.
  - intros Hfk (i & Hi & Hid) p. rewrite Hfk.
    unfold Sqlite.has_item.
    rewrite (existsb_key_present Item.id item_id _ i Hi Hid). simpl.
    rewrite filter_In, negb_true_iff, Z.eqb_neq. reflexivity.
  - f_equal. unfold Sqlite.has_item at 1.
    cbn [items foreign_keys].
    rewrite (existsb_after_delete Item.id), andb_false_r, filter_idem.
    reflexivity.
Qed.

Lemma delete_item_effect_witness :
  let db := cascade_fixture true in
  let after := snd (item_router.delete_item 1 db) in
  fst (item_router.delete_item 1 db) = no_content
  /\ Service.get_model_by_id (T:=Item.t) 1 after = None
  /\ (forall k, k <> 1 ->
        Service.get_model_by_id (T:=Item.t) k after
        = Service.get_model_by_id (T:=Item.t) k db)
  /\ users after = users db /\ tags after = tags db
  /\ (foreign_keys db = false -> item_tag after = item_tag db)
  /\ (foreign_keys db = true -> item_exists db 1 ->
      forall p, In p (item_tag after)
                <-> In p (item_tag db) /\ fst p <> 1)
  /\ item_router.delete_item 1 after = (no_content, after).
Proof.
  apply (delete_item_effect 1 (cascade_fixture true)).
  unfold Sqlite.int64. lia.
Defined.

(** X7. For an id the driver can bind (a 64-bit integer) [delete_tag]
    answers 204 whether or not the tag exists: no tag under that id
    afterwards, every other tag fetched as before, users and items
    untouched; the tag's association rows stay unless foreign keys are
    enforced; deleting again changes nothing. *)
Theorem delete_tag_effect (tag_id : Z) (db : DB) :
  Sqlite.int64 tag_id ->
  let after := snd (tag_router.delete_tag tag_id db) in
  fst (tag_router.delete_tag tag_id db) = no_content
  /\ Service.get_model_by_id (T:=Tag.t) tag_id after = None
  /\ (forall k, k <> tag_id ->
        Service.get_model_by_id (T:=Tag.t) k after
        = Service.get_model_by_id (T:=Tag.t) k db)
  /\ users after = users db /\ items after = items db
  /\ (foreign_keys db = false -> item_tag after = item_tag db)
  /\ (foreign_keys db = true -> tag_exists db tag_id ->
      forall p, In p (item_tag after)
                <-> In p (item_tag db) /\ snd p <> tag_id)
  /\ tag_router.delete_tag tag_id after = (no_content, after).
Proof.
  intros _. cbv zeta.
  unfold tag_router.delete_tag, Service.delete_model_by_id, commit,
    Sqlite.delete_by_id.
  cbn [tablename Tag_Mapped fst snd users tags items item_tag foreign_keys].
  split; [reflexivity|]. split; [apply (find_after_delete Tag.id)|].
  split; [intros k Hk; now apply (find_filter_other Tag.id)|].
  split; [reflexivity|]. split; [reflexivity|].
  split; [now intros ->|]. split.
  - intros Hfk (t & Ht & Hid) p. rewrite Hfk.
    unfold Sqlite.has_tag.
    rewrite (existsb_key_present Tag.id tag_id _ t Ht Hid). simpl.
    rewrite filter_In, negb_true_iff, Z.eqb_neq. reflexivity.
  - f_equal. unfold Sqlite.has_tag at 1.
    cbn [tags foreign_keys].
    rewrite (existsb_after_delete Tag.id), andb_false_r, filter_idem.
    reflexivity.
Qed.

Lemma delete_tag_effect_witness :
  let db := seeded in
  let after := snd (tag_router.delete_tag 2 db) in
  fst (tag_router.delete_tag 2 db) = no_content
  /\ Service.get_model_by_id (T:=Tag.t) 2 after = None
  /\ (forall k, k <> 2 ->
        Service.get_model_by_id (T:=Tag.t) k after
        = Service.get_model_by_id (T:=Tag.t) k db)
  /\ users after = users db /\ items after = items db
  /\ (foreign_keys db = false -> item_tag after = item_tag db)
  /\ (foreign_keys db = true -> tag_exists db 2 ->
      forall p, In p (item_tag after)
                <-> In p (item_tag db) /\ snd p <> 2)
  /\ tag_router.delete_tag 2 after = (no_content, after).
Proof.
  apply (delete_tag_effect 2 seeded).
  unfold Sqlite.int64. lia.
Defined.

Lemma existsb_owner_item (db : DB) (user_id : Z) :
  existsb (fun i => Item.user_id i =? user_id) (items db) = true
  <-> exists i, In i (items db) /\ Item.user_id i = user_id.
Proof.
  rewrite existsb_exists. split; intros (i & Hi & E); exists i;
    (split; [exact Hi|]); now apply Z.eqb_eq.
Qed.

Lemma existsb_owner_tag (db : DB) (user_id : Z) :
  existsb (fun t => Tag.user_id t =? user_id) (tags db) = true
  <-> exists t, In t (tags db) /\ Tag.user_id t = user_id.
Proof.
  rewrite existsb_exists. split; intros (t & Ht & E); exists t;
    (split; [exact Ht|]); now apply Z.eqb_eq.
Qed.

Lemma has_user_iff (db : DB) (user_id : Z) :
  Sqlite.has_user db user_id = true <-> user_exists db user_id.
Proof.
  unfold Sqlite.has_user, user_exists. rewrite existsb_exists.
  split; intros (u & Hu & E); exists u; (split; [exact Hu|]);
    now apply Z.eqb_eq.
Qed.

(** The condition under which the engine refuses to delete a user. *)
Lemma delete_user_blocked_iff (db : DB) (user_id : Z) :
  foreign_keys db && Sqlite.has_user db user_id
  && (existsb (fun i => Item.user_id i =? user_id) (items db)
      || existsb (fun t => Tag.user_id t =? user_id) (tags db)) = true
  <-> foreign_keys db = true /\ user_exists db user_id
      /\ owns_rows db user_id.
Proof.
  unfold owns_rows.
  rewrite !andb_true_iff, orb_true_iff, has_user_iff,
    existsb_owner_item, existsb_owner_tag. tauto.
Qed.

(** X8. For an id the driver can bind (a 64-bit integer)
    [delete_user] answers 400 exactly when foreign keys are enforced
    and the user exists and still owns an item or a tag; the database
    is then as it was.  In every other case it answers 204, fetch-by-id
    finds no user under that id and finds the other users as before.
    In no case does it remove an item, a tag or an association row. *)
Theorem delete_user_effect (user_id : Z) (db : DB) :
  Sqlite.int64 user_id ->
  let blocked :=
    foreign_keys db = true /\ user_exists db user_id
    /\ owns_rows db user_id in
  let after := snd (user_router.delete_user user_id db) in
  (status_code (fst (user_router.delete_user user_id db)) = 400 <-> blocked)
  /\ (blocked -> after = db)
  /\ (~ blocked ->
      fst (user_router.delete_user user_id db) = no_content
      /\ Service.get_model_by_id (T:=User.t) user_id after = None
      /\ forall k, k <> user_id ->
           Service.get_model_by_id (T:=User.t) k after
           = Service.get_model_by_id (T:=User.t) k db)
  /\ items after = items db /\ tags after = tags db
  /\ item_tag after = item_tag db.
Proof.
  intros _. cbv zeta.
  pose proof (delete_user_blocked_iff db user_id) as Hb.
  unfold user_router.delete_user, Service.delete_model_by_id, commit,
    Sqlite.delete_by_id.
  cbn [tablename User_Mapped].
  destruct (foreign_keys db && Sqlite.has_user db user_id
            && (existsb (fun i => Item.user_id i =? user_id) (items db)
                || existsb (fun t => Tag.user_id t =? user_id) (tags db)))
    eqn:E; cbn [fst snd status_code HTTPException users items tags item_tag].
  - split; [split; [intros _; now apply Hb | reflexivity]|].
    split; [reflexivity|]. split; [|repeat split].
    intros Hn. exfalso. apply Hn. now apply Hb.
  - split; [split; [discriminate|]|].
    { intros H. apply Hb in H. discriminate. }
    split; [intros H; apply Hb in H; discriminate|].
    split; [|repeat split].
    intros _. split; [reflexivity|].
    split; [apply (find_after_delete User.id)|].
    intros k Hk. now apply (find_filter_other User.id).
Qed.

Lemma delete_user_effect_witness :
  let db := cascade_fixture true in
  let blocked :=
    foreign_keys db = true /\ user_exists db 1 /\ owns_rows db 1 in
  let after := snd (user_router.delete_user 1 db) in
  (status_code (fst (user_router.delete_user 1 db)) = 400 <-> blocked)
  /\ (blocked -> after = db)
  /\ (~ blocked ->
      fst (user_router.delete_user 1 db) = no_content
      /\ Service.get_model_by_id (T:=User.t) 1 after = None
      /\ forall k, k <> 1 ->
           Service.get_model_by_id (T:=User.t) k after
           = Service.get_model_by_id (T:=User.t) k db)
  /\ items after = items db /\ tags after = tags db
  /\ item_tag after = item_tag db.
Proof.
  apply (delete_user_effect 1 (cascade_fixture true)).
  unfold Sqlite.int64. lia.
Defined.

(** ** The order of the existence checks, and unlinking what is not linked *)

Lemma get_tag_absent (db : DB) (tag_id : Z) :
  ~ tag_exists db tag_id ->
  Service.get_model_by_id (T:=Tag.t) tag_id db = None.
Proof.
  intros H. apply find_key_absent. intros t Ht E. apply H. now exists t.
Qed.

Lemma get_item_absent (db : DB) (item_id : Z) :
  ~ item_exists db item_id ->
  Service.get_model_by_id (T:=Item.t) item_id db = None.
Proof.
  intros H. apply find_key_absent. intros i Hi E. apply H. now exists i.
Qed.

(** X9. The link and unlink routes look the tag up first.  For ids the
    driver can bind (64-bit integers): with no tag under [tag_id] both
    answer 404 "Tag not found", whether the item exists or not; with
    the tag present and no item under [item_id] unlink answers 404
    "Item not found".  Neither case writes. *)
Theorem link_routes_check_the_tag_first (db : DB) (tag_id item_id : Z) :
  Sqlite.int64 tag_id -> Sqlite.int64 item_id ->
  (~ tag_exists db tag_id ->
   tag_router.link_tag_item tag_id item_id db
     = ({| status_code := 404; body := Detail "Tag not found" |}, db)
   /\ tag_router.unlink_tag_item tag_id item_id db
     = ({| status_code := 404; body := Detail "Tag not found" |}, db))
  /\ (tag_exists db tag_id -> ~ item_exists db item_id ->
      tag_router.unlink_tag_item tag_id item_id db
        = ({| status_code := 404; body := Detail "Item not found" |}, db)).
Proof.
  intros _ _. split.
  - intros H. apply get_tag_absent in H.
    unfold tag_router.link_tag_item, tag_router.unlink_tag_item.
    rewrite H. split; reflexivity.
  - intros Ht Hi. apply get_item_absent in Hi.
    destruct (get_tag_present db tag_id Ht) as (t & Et & _ & _).
    unfold tag_router.unlink_tag_item. rewrite Et, Hi. reflexivity.
Qed.

Lemma link_routes_check_the_tag_first_witness :
  (tag_router.link_tag_item 8 9 seeded
     = ({| status_code := 404; body := Detail "Tag not found" |}, seeded)
   /\ tag_router.unlink_tag_item 8 9 seeded
     = ({| status_code := 404; body := Detail "Tag not found" |}, seeded))
  /\ tag_router.unlink_tag_item 1 9 seeded
     = ({| status_code := 404; body := Detail "Item not found" |}, seeded).
Proof.
  assert (H8 : Sqlite.int64 8) by (unfold Sqlite.int64; lia).
  assert (H9 : Sqlite.int64 9) by (unfold Sqlite.int64; lia).
  assert (H1 : Sqlite.int64 1) by (unfold Sqlite.int64; lia).
  split.
  - apply (proj1 (link_routes_check_the_tag_first seeded 8 9 H8 H9)).
    intros (t & Ht & E). vm_compute in Ht.
    destruct Ht as [<-|[<-|[<-|[]]]]; discriminate.
  - apply (proj2 (link_routes_check_the_tag_first seeded 1 9 H1 H9)).
    + exists (Tag.mk 1 1 "urgent"). split; [vm_compute; now left|reflexivity].
    + intros (i & Hi & E). vm_compute in Hi.
      destruct Hi as [<-|[<-|[<-|[]]]]; discriminate.
Defined.

Lemma unlink_absent_pair (db : DB) (item_id tag_id : Z) :
  ~ linked db item_id tag_id ->
  filter (fun p => negb (Sqlite.pair_eqb p (item_id, tag_id))) (item_tag db)
  = item_tag db.
Proof.
  intros H. apply filter_keeps_all. intros p Hp.
  apply negb_true_iff, not_true_is_false. intros E.
  apply pair_eqb_eq in E. subst p. exact (H Hp).
Qed.

(** X10. Unlinking a pair that is not linked is not an error: for an
    existing tag and item the route answers 200 with the item and its
    tags and leaves the database exactly as it was.  Hence unlinking
    twice leaves what unlinking once leaves, for any ids. *)
Theorem unlink_of_unlinked_pair (db : DB) (tag_id item_id : Z) :
  (tag_exists db tag_id -> item_exists db item_id ->
   ~ linked db item_id tag_id ->
   exists i,
     Service.get_model_by_id (T:=Item.t) item_id db = Some i
     /\ tag_router.unlink_tag_item tag_id item_id db
        = ({| status_code := 200; body := OneItem (Service.joinedload db i) |},
           db))
  /\ snd (tag_router.unlink_tag_item tag_id item_id
            (snd (tag_router.unlink_tag_item tag_id item_id db)))
     = snd (tag_router.unlink_tag_item tag_id item_id db).
Proof.
  assert (Hnoop : forall d, tag_exists d tag_id -> item_exists d item_id ->
            ~ linked d item_id tag_id ->
            exists i,
              Service.get_model_by_id (T:=Item.t) item_id d = Some i
              /\ tag_router.unlink_tag_item tag_id item_id d
                 = ({| status_code := 200;
                       body := OneItem (Service.joinedload d i) |}, d)).
  { intros d Ht Hi Hn.
    destruct (get_tag_present d tag_id Ht) as (t & Et & _ & Htid).
    destruct (get_item_present d item_id Hi) as (i & Ei & _ & Hiid).
    exists i. split; [exact Ei|].
    unfold tag_router.unlink_tag_item. rewrite Et, Ei.
    unfold Service.remove_tag_from_item, commit, Sqlite.delete_item_tag.
    rewrite Htid, Hiid, (unlink_absent_pair d item_id tag_id Hn), DB_eta.
    unfold tag_router.refetch. rewrite Ei. reflexivity. }
  split; [apply Hnoop|].
  destruct (Service.get_model_by_id (T:=Tag.t) tag_id db) as [t|] eqn:Et.
  2:{ unfold tag_router.unlink_tag_item. rewrite Et. cbn [snd].
      now rewrite Et. }
  destruct (Service.get_model_by_id (T:=Item.t) item_id db) as [i|] eqn:Ei.
  2:{ unfold tag_router.unlink_tag_item. rewrite Et, Ei. cbn [snd].
      now rewrite Et, Ei. }
  assert (Ht : tag_exists db tag_id)
    by (apply (find_key_sound Tag.id) in Et; now exists t).
  assert (Hi : item_exists db item_id)
    by (apply (find_key_sound Item.id) in Ei; now exists i).
  destruct (unlink_tag_item_step db tag_id item_id Ht Hi)
    as (db' & _ & E & _ & Hi' & Ht' & Hn).
  rewrite E.
  destruct (Hnoop db') as (j & _ & ->); try assumption; try reflexivity.
  - eapply tag_exists_same; eauto.
  - eapply item_exists_same; eauto.
Qed.

Lemma unlink_of_unlinked_pair_witness :
  exists i,
    Service.get_model_by_id (T:=Item.t) 2 seeded = Some i
    /\ tag_router.unlink_tag_item 1 2 seeded
       = ({| status_code := 200;
             body := OneItem (Service.joinedload seeded i) |}, seeded).
Proof.
  apply (proj1 (unlink_of_unlinked_pair seeded 1 2)).
  - exists (Tag.mk 1 1 "urgent"). split; [vm_compute; now left|reflexivity].
  - exists (Item.mk 2 1 "Buy groceries" "book" "reading" "high"
                    (Some "Milk, Bread, Eggs") (Some 12) None).
    split; [vm_compute; right; now left | reflexivity].
  - unfold linked. vm_compute. intros H.
    repeat (destruct H as [H|H]; [discriminate|]). exact H.
Defined.

(** ** Linking, as seen through the item's tag list *)

Section UniqueKey.
Context {T : Type} (key : T -> Z).

Lemma find_unique_key (l : list T) (x : T) :
  NoDup (map key l) -> In x l ->
  find (fun r => key r =? key x) l = Some x.
Proof.
  induction l as [|y l IH]; intros Hnd Hin; [destruct Hin|].
  simpl in Hnd. apply NoDup_cons_iff in Hnd. destruct Hnd as [Hy Hnd].
  simpl. destruct Hin as [->|Hin]; [now rewrite Z.eqb_refl|].
  destruct (Z.eqb_spec (key y) (key x)) as [E|_]; [|now apply IH].
  exfalso. apply Hy. rewrite E. now apply in_map.
Qed.

Lemma filter_unique_key (l : list T) (x : T) :
  NoDup (map key l) -> In x l ->
  filter (fun r => key r =? key x) l = [x].
Proof.
  induction l as [|y l IH]; intros Hnd Hin; [destruct Hin|].
  simpl in Hnd. apply NoDup_cons_iff in Hnd. destruct Hnd as [Hy Hnd].
  simpl. destruct Hin as [->|Hin].
  - rewrite Z.eqb_refl. f_equal.
    assert (Hnone : forall z, In z l -> (key z =? key x) = false).
    { intros z Hz. apply Z.eqb_neq. intros E. apply Hy. rewrite <- E.
      now apply in_map. }
    clear -Hnone. induction l as [|z l IH]; simpl; [reflexivity|].
    rewrite (Hnone z (or_introl eq_refl)). apply IH.
    intros w Hw. apply Hnone. now right.
  - destruct (Z.eqb_spec (key y) (key x)) as [E|_]; [|now apply IH].
    exfalso. apply Hy. rewrite E. now apply in_map.
Qed.
End UniqueKey.

Lemma joinedload_after_link (db db' : DB) (item_id tag_id : Z) (j : Item.t) :
  tags db' = tags db ->
  item_tag db' = item_tag db ++ [(item_id, tag_id)] ->
  item_tags (Service.joinedload db' j)
  = item_tags (Service.joinedload db j)
    ++ (if item_id =? Item.id j
        then filter (fun t => Tag.id t =? tag_id) (tags db)
        else []).
Proof.
  intros Ht Hl. unfold Service.joinedload. cbn [item_tags].
  rewrite Ht, Hl, flat_map_app. simpl. now rewrite app_nil_r.
Qed.

(** X11. On a store whose ids are unique, linking an unlinked tag to an
    item answers 200 with the item carrying the tags it had, followed by
    the new one; the tag list of every other item is as before.  Owners
    are not compared: the item and the tag may belong to different
    users. *)
Theorem link_appends_the_tag
    (db : DB) (i : Item.t) (t : Tag.t) :
  keys_unique db ->
  In i (items db) -> In t (tags db) ->
  ~ linked db (Item.id i) (Tag.id t) ->
  let after := snd (tag_router.link_tag_item (Tag.id t) (Item.id i) db) in
  fst (tag_router.link_tag_item (Tag.id t) (Item.id i) db)
    = {| status_code := 200;
         body := OneItem
                   {| item := i;
                      item_tags := item_tags (Service.joinedload db i)
                                   ++ [t] |} |}
  /\ (forall j, Item.id j <> Item.id i ->
        Service.joinedload after j = Service.joinedload db j).
Proof.
  intros (_ & Hni & Hnt & _) Hi Ht Hn. cbv zeta.
  assert (Ei : Service.get_model_by_id (T:=Item.t) (Item.id i) db = Some i)
    by (apply (find_unique_key Item.id); assumption).
  destruct (link_tag_item_step db (Tag.id t) (Item.id i)) as [_ Hok];
    [now exists t | now exists i |].
  destruct (Hok Hn) as (db' & i' & E & _ & _ & Hitems & Htags & Hlinks).
  assert (Ei' : Service.get_model_by_id (T:=Item.t) (Item.id i) db' = Some i)
    by (rewrite (get_item_same_items db db') by exact Hitems; exact Ei).
  assert (E' : tag_router.link_tag_item (Tag.id t) (Item.id i) db
               = ({| status_code := 200;
                     body := OneItem (Service.joinedload db' i) |}, db')).
  { rewrite E. f_equal.
    assert (Hsnd : snd (tag_router.link_tag_item (Tag.id t) (Item.id i) db)
                   = db') by now rewrite E.
    unfold tag_router.link_tag_item in E.
    destruct (get_tag_present db (Tag.id t)) as (t0 & Et0 & _ & _);
      [now exists t|].
    rewrite Et0, Ei in E.
    destruct (Service.add_tag_to_item i t0 db) as [d|[m] d];
      [|discriminate].
    injection E as E1 E2. subst d. unfold tag_router.refetch in E1.
    rewrite Ei' in E1. simpl in E1. now rewrite <- E1. }
  rewrite E'. cbn [fst snd]. split.
  - f_equal. f_equal.
    change (Service.joinedload db' i)
      with {| item := i; item_tags := item_tags (Service.joinedload db' i) |}.
    f_equal.
    rewrite (joinedload_after_link db db' (Item.id i) (Tag.id t) i Htags Hlinks).
    rewrite Z.eqb_refl. f_equal.
    apply (filter_unique_key Tag.id); assumption.
  - intros j Hj.
    change (Service.joinedload db' j)
      with {| item := j; item_tags := item_tags (Service.joinedload db' j) |}.
    change (Service.joinedload db j)
      with {| item := j; item_tags := item_tags (Service.joinedload db j) |}.
    f_equal.
    rewrite (joinedload_after_link db db' (Item.id i) (Tag.id t) j Htags Hlinks).
    destruct (Z.eqb_spec (Item.id i) (Item.id j)); [congruence|].
    apply app_nil_r.
Qed.

(** ** The column filters, paging bounds and the priority order *)










Lemma priority_leb_rank (p q : ItemPriority.t) :
  Sql.leb (Sql.Text (ItemPriority.value p)) (Sql.Text (ItemPriority.value q))
  = (alphabetical_rank p <=? alphabetical_rank q).
Proof. destruct p, q; reflexivity. Qed.

Lemma StronglySorted_app_inv {A} (R : A -> A -> Prop) (l1 l2 : list A) :
  StronglySorted R (l1 ++ l2) -> StronglySorted R l1 /\ StronglySorted R l2.
Proof.
  induction l1 as [|x l1 IH]; simpl; intros H; [split; [constructor|exact H]|].
  inversion H as [|? ? Hs Hf]; subst. destruct (IH Hs) as [H1 H2].
  split; [|exact H2]. constructor; [exact H1|].
  rewrite Forall_forall in *. intros y Hy. apply Hf, in_or_app. now left.
Qed.

Lemma StronglySorted_weaken {A} (R S : A -> A -> Prop) (l : list A) :
  (forall a b, R a b -> S a b) -> StronglySorted R l -> StronglySorted S l.
Proof.
  intros HRS H. induction H as [|x l Hs IH Hf]; constructor; [exact IH|].
  eapply Forall_impl; [|exact Hf]. intros y. apply HRS.
Qed.

Lemma page_sorted {A} (R : A -> A -> Prop) (limit offset : Z) (l : list A) :
  StronglySorted R l -> StronglySorted R (Sql.limit limit (Sql.offset offset l)).
Proof.
  intros H. unfold Sql.limit, Sql.offset.
  assert (H' : StronglySorted R (skipn (Z.to_nat offset) l)).
  { rewrite <- (firstn_skipn (Z.to_nat offset) l) in H.
    now apply StronglySorted_app_inv in H. }
  destruct (limit <? 0); [exact H'|].
  rewrite <- (firstn_skipn (Z.to_nat limit) (skipn (Z.to_nat offset) l)) in H'.
  now apply StronglySorted_app_inv in H'.
Qed.

(** X14. Sorting on priority compares the stored strings, not the
    levels: a search sorted ascending on "priority" returns the items of
    priority high first, then low, then normal, and the descending one
    the reverse.  (The column is reachable from the service function
    only; the route's [SortField] does not list it.) *)
Theorem priority_sorts_alphabetically
    (status kind priority : option string)
    (tag_names : option (list string))
    (title_substring : option string)
    (created_from created_to : option Z)
    (limit offset : Z) (sort_order : string) (db : DB) :
  StronglySorted
    (priority_order (Sql.lower sort_order =? "desc")%string)
    (map item
         (Service.get_filtered_items status kind priority tag_names
            title_substring created_from created_to limit offset
            "priority" sort_order db)).
Proof.
  unfold Service.get_filtered_items. rewrite map_map.
  rewrite (map_ext _ (fun i => i)) by (intros; apply joinedload_item).
  rewrite map_id. apply page_sorted.
  pose proof (ordering_sorted "priority" sort_order
                (Service.select_items status kind priority tag_names
                   title_substring created_from created_to db)) as H.
  eapply StronglySorted_weaken; [|exact H].
  intros a b Hab p q Ea Eb. unfold in_order in Hab.
  change (bound_column "priority" a) with (Sql.Text (Item.priority a)) in Hab.
  change (bound_column "priority" b) with (Sql.Text (Item.priority b)) in Hab.
  rewrite Ea, Eb, !priority_leb_rank in Hab.
  destruct (Sql.lower sort_order =? "desc")%string; now apply Z.leb_le.
Qed.

(** ** The store invariant *)

Lemma NoDup_snoc {A} (l : list A) (x : A) :
  NoDup l -> ~ In x l -> NoDup (l ++ [x]).
Proof.
  intros Hl Hx. apply NoDup_app; [exact Hl | |].
  - repeat constructor. intros [].
  - intros y Hy [<-|[]]. exact (Hx Hy).
Qed.

Lemma NoDup_map_filter {A B} (f : A -> B) (g : A -> bool) (l : list A) :
  NoDup (map f l) -> NoDup (map f (filter g l)).
Proof.
  induction l as [|x l IH]; simpl; intros H; [constructor|].
  apply NoDup_cons_iff in H. destruct H as [Hx Hl].
  destruct (g x); simpl; [|now apply IH].
  constructor; [|now apply IH]. intros Hin. apply Hx.
  apply in_map_iff in Hin. destruct Hin as (y & E & Hy).
  apply filter_In in Hy. rewrite <- E. apply in_map. tauto.
Qed.

Lemma list_max_bounded (ids : list Z) (seq : Z) :
  0 <= seq -> (forall x, In x ids -> x <= seq) -> Sqlite.list_max ids <= seq.
Proof.
  intros Hs. induction ids as [|y ids IH]; intros H; simpl; [exact Hs|].
  assert (y <= seq) by (apply H; now left).
  assert (Sqlite.list_max ids <= seq) by (apply IH; intros x Hx; apply H; now right).
  unfold Sqlite.list_max in *. lia.
Qed.

(** On a bounded table the next id is the counter plus one. *)
Lemma next_rowid_bounded {T} (key : T -> Z) (seq : Z) (l : list T) :
  0 <= seq -> (forall x, In x l -> key x <= seq) ->
  Sqlite.next_rowid seq (map key l) = seq + 1.
Proof.
  intros Hs H. unfold Sqlite.next_rowid.
  assert (Sqlite.list_max (map key l) <= seq).
  { apply list_max_bounded; [exact Hs|]. intros x Hx.
    apply in_map_iff in Hx. destruct Hx as (y & <- & Hy). now apply H. }
  lia.
Qed.

Lemma grows_refl (db : DB) : grows db db.
Proof. unfold grows. repeat split; lia. Qed.

Lemma grows_trans (a b c : DB) : grows a b -> grows b c -> grows a c.
Proof. unfold grows. intros (?&?&?&?) (?&?&?&?). repeat split; try lia.
       congruence. Qed.

Lemma insert_user_consistent (e d : string) (now id : Z) (db db' : DB) :
  consistent db ->
  Sqlite.insert_user e d now db = inr (id, db') ->
  consistent db' /\ grows db db' /\ id = seq_users db'
  /\ id = seq_users db + 1
  /\ users db' = users db ++ [User.mk id e d (Some now)]
  /\ items db' = items db /\ tags db' = tags db
  /\ item_tag db' = item_tag db.
Proof.
  intros [(Ku & Ki & Kt & Ke & Kp & Kl) (S1 & S2 & S3 & Bu & Bi & Bt & Bl)].
  unfold Sqlite.insert_user.
  destruct (existsb _ (users db)) eqn:E; [discriminate|].
  intros H. injection H as <- <-.
  pose proof (next_rowid_above_seq (seq_users db) (map User.id (users db)))
    as Hseq.
  pose proof (next_rowid_bounded User.id (seq_users db) (users db) S1 Bu)
    as Hnext.
  split; [split|].
  - unfold keys_unique. cbn [users items tags item_tag].
    rewrite !map_app. simpl. repeat split; try assumption.
    + apply NoDup_snoc; [exact Ku|]. intros Hin.
      apply in_map_iff in Hin. destruct Hin as (u & Eu & Hu).
      specialize (Bu u Hu). lia.
    + apply NoDup_snoc; [exact Ke|]. intros Hin.
      apply in_map_iff in Hin. destruct Hin as (u & Eu & Hu).
      apply Bool.not_true_iff_false in E. apply E.
      apply existsb_exists. exists u. split; [exact Hu|].
      now apply String.eqb_eq.
  - unfold ids_bounded.
    cbn [users items tags item_tag seq_users seq_items seq_tags].
    repeat split; try lia.
    + intros u Hu. apply in_app_or in Hu. destruct Hu as [Hu|[<-|[]]].
      * specialize (Bu u Hu). lia.
      * simpl. lia.
    + now apply Bi.
    + destruct (Bi i H). lia.
    + now apply Bt.
    + destruct (Bt t H). lia.
    + now apply Bl.
    + now apply Bl.
  - unfold grows. cbn [seq_users seq_items seq_tags foreign_keys users items
                       tags item_tag].
    repeat split; try lia.
Qed.

Lemma insert_item_consistent (uid : Z) (ti k st pr : string) (n : option string)
    (now id : Z) (db db' : DB) :
  consistent db -> uid <= seq_users db ->
  Sqlite.insert_item uid ti k st pr n now db = inr (id, db') ->
  consistent db' /\ grows db db' /\ id = seq_items db'
  /\ id = seq_items db + 1
  /\ users db' = users db
  /\ items db' = items db ++ [Item.mk id uid ti k st pr n (Some now) None]
  /\ tags db' = tags db /\ item_tag db' = item_tag db.
Proof.
  intros [(Ku & Ki & Kt & Ke & Kp & Kl) (S1 & S2 & S3 & Bu & Bi & Bt & Bl)] Hu.
  unfold Sqlite.insert_item.
  destruct (foreign_keys db && _); [discriminate|].
  intros H. injection H as <- <-.
  pose proof (next_rowid_above_seq (seq_items db) (map Item.id (items db)))
    as Hseq.
  pose proof (next_rowid_bounded Item.id (seq_items db) (items db) S2
                (fun x Hx => proj1 (Bi x Hx))) as Hnext.
  split; [split|].
  - unfold keys_unique. cbn [users items tags item_tag].
    rewrite !map_app. simpl. repeat split; try assumption.
    apply NoDup_snoc; [exact Ki|]. intros Hin.
    apply in_map_iff in Hin. destruct Hin as (i & Ei & Hi).
    destruct (Bi i Hi). lia.
  - unfold ids_bounded.
    cbn [users items tags item_tag seq_users seq_items seq_tags].
    repeat split; try lia.
    + now apply Bu.
    + apply in_app_or in H. destruct H as [H|[<-|[]]].
      * destruct (Bi i H). lia.
      * simpl. lia.
    + apply in_app_or in H. destruct H as [H|[<-|[]]].
      * now destruct (Bi i H).
      * simpl. lia.
    + now apply Bt.
    + now apply Bt.
    + destruct (Bl p H). lia.
    + now apply Bl.
  - unfold grows. cbn [seq_users seq_items seq_tags foreign_keys users items
                       tags item_tag].
    repeat split; try lia.
Qed.

Lemma insert_tag_consistent (uid : Z) (name : string) (id : Z) (db db' : DB) :
  consistent db -> uid <= seq_users db ->
  Sqlite.insert_tag uid name db = inr (id, db') ->
  consistent db' /\ grows db db' /\ id = seq_tags db'
  /\ id = seq_tags db + 1
  /\ users db' = users db /\ items db' = items db
  /\ tags db' = tags db ++ [Tag.mk id uid name]
  /\ item_tag db' = item_tag db.
Proof.
  intros [(Ku & Ki & Kt & Ke & Kp & Kl) (S1 & S2 & S3 & Bu & Bi & Bt & Bl)] Hu.
  unfold Sqlite.insert_tag.
  destruct (existsb _ (tags db)) eqn:E; [discriminate|].
  destruct (foreign_keys db && _); [discriminate|].
  intros H. injection H as <- <-.
  pose proof (next_rowid_above_seq (seq_tags db) (map Tag.id (tags db)))
    as Hseq.
  pose proof (next_rowid_bounded Tag.id (seq_tags db) (tags db) S3
                (fun x Hx => proj1 (Bt x Hx))) as Hnext.
  split; [split|].
  - unfold keys_unique. cbn [users items tags item_tag].
    rewrite !map_app. simpl. repeat split; try assumption.
    + apply NoDup_snoc; [exact Kt|]. intros Hin.
      apply in_map_iff in Hin. destruct Hin as (t & Et & Ht).
      destruct (Bt t Ht). lia.
    + apply NoDup_snoc; [exact Kp|]. intros Hin.
      apply in_map_iff in Hin. destruct Hin as (t & Et & Ht).
      injection Et as E1 E2.
      apply Bool.not_true_iff_false in E. apply E.
      apply existsb_exists. exists t. split; [exact Ht|].
      apply andb_true_iff. split; [now apply Z.eqb_eq|now apply String.eqb_eq].
  - unfold ids_bounded.
    cbn [users items tags item_tag seq_users seq_items seq_tags].
    repeat split; try lia.
    + now apply Bu.
    + now apply Bi.
    + now apply Bi.
    + apply in_app_or in H. destruct H as [H|[<-|[]]].
      * destruct (Bt t H). lia.
      * simpl. lia.
    + apply in_app_or in H. destruct H as [H|[<-|[]]].
      * now destruct (Bt t H).
      * simpl. lia.
    + now apply Bl.
    + destruct (Bl p H). lia.
  - unfold grows. cbn [seq_users seq_items seq_tags foreign_keys users items
                       tags item_tag].
    repeat split; try lia.
Qed.

Lemma insert_item_tag_consistent (iid tid : Z) (db db' : DB) :
  consistent db -> iid <= seq_items db -> tid <= seq_tags db ->
  Sqlite.insert_item_tag iid tid db = inr (tt, db') ->
  consistent db' /\ grows db db'
  /\ users db' = users db /\ items db' = items db /\ tags db' = tags db
  /\ item_tag db' = item_tag db ++ [(iid, tid)].
Proof.
  intros [(Ku & Ki & Kt & Ke & Kp & Kl) (S1 & S2 & S3 & Bu & Bi & Bt & Bl)]
         Hi Ht.
  unfold Sqlite.insert_item_tag.
  destruct (existsb _ (item_tag db)) eqn:E; [discriminate|].
  destruct (foreign_keys db && _); [discriminate|].
  intros H. injection H as <-.
  split; [split|].
  - unfold keys_unique. cbn [users items tags item_tag].
    repeat split; try assumption.
    apply NoDup_snoc; [exact Kl|]. intros Hin.
    apply existsb_pair_present in Hin. congruence.
  - unfold ids_bounded.
    cbn [users items tags item_tag seq_users seq_items seq_tags].
    repeat split; try lia; try (now apply Bu); try (now apply Bi);
      try (now apply Bt);
      (apply in_app_or in H; destruct H as [H|[<-|[]]];
       [now apply Bl | simpl; lia]).
  - split; [solve_grows|]. repeat split.
Qed.

Lemma delete_item_tag_consistent (iid tid : Z) (db db' : DB) :
  consistent db ->
  Sqlite.delete_item_tag iid tid db = inr (tt, db') ->
  consistent db' /\ grows db db'.
Proof.
  intros [(Ku & Ki & Kt & Ke & Kp & Kl) (S1 & S2 & S3 & Bu & Bi & Bt & Bl)].
  unfold Sqlite.delete_item_tag. intros H. injection H as <-.
  split; [split|solve_grows].
  - unfold keys_unique. cbn [users items tags item_tag].
    repeat split; try assumption. now apply NoDup_filter.
  - unfold ids_bounded.
    cbn [users items tags item_tag seq_users seq_items seq_tags].
    repeat split; try lia; try (now apply Bu); try (now apply Bi);
      try (now apply Bt); (in_filter; now apply Bl).
Qed.

Lemma delete_by_id_consistent (tbl : table) (id : Z) (db db' : DB) :
  consistent db ->
  Sqlite.delete_by_id tbl id db = inr (tt, db') ->
  consistent db' /\ grows db db'.
Proof.
  intros [(Ku & Ki & Kt & Ke & Kp & Kl) (S1 & S2 & S3 & Bu & Bi & Bt & Bl)].
  unfold Sqlite.delete_by_id. destruct tbl.
  - destruct (foreign_keys db && Sqlite.has_user db id && _); [discriminate|].
    intros H. injection H as <-. split; [split|solve_grows].
    + unfold keys_unique. cbn [users items tags item_tag].
      repeat split; try assumption; now apply NoDup_map_filter.
    + unfold ids_bounded.
      cbn [users items tags item_tag seq_users seq_items seq_tags].
      repeat split; try lia; try (now apply Bi); try (now apply Bt);
        try (now apply Bl). in_filter. now apply Bu.
  - intros H. injection H as <-. split; [split|solve_grows].
    + unfold keys_unique. cbn [users items tags item_tag].
      repeat split; try assumption; try (now apply NoDup_map_filter).
      destruct (foreign_keys db && Sqlite.has_item db id);
        [now apply NoDup_filter | exact Kl].
    + unfold ids_bounded.
      cbn [users items tags item_tag seq_users seq_items seq_tags].
      repeat split; try lia; try (now apply Bu); try (now apply Bt);
        try (in_filter; now apply Bi);
        (destruct (foreign_keys db && Sqlite.has_item db id);
         [in_filter|]; now apply Bl).
  - intros H. injection H as <-. split; [split|solve_grows].
    + unfold keys_unique. cbn [users items tags item_tag].
      repeat split; try assumption; try (now apply NoDup_map_filter).
      destruct (foreign_keys db && Sqlite.has_tag db id);
        [now apply NoDup_filter | exact Kl].
    + unfold ids_bounded.
      cbn [users items tags item_tag seq_users seq_items seq_tags].
      repeat split; try lia; try (now apply Bu); try (now apply Bi);
        try (in_filter; now apply Bt);
        (destruct (foreign_keys db && Sqlite.has_tag db id);
         [in_filter|]; now apply Bl).
Qed.

(** Each INSERT moves the counter of its own table only. *)
Lemma insert_user_counters (e d : string) (now id : Z) (db db' : DB) :
  Sqlite.insert_user e d now db = inr (id, db') ->
  seq_items db' = seq_items db /\ seq_tags db' = seq_tags db.
Proof.
  unfold Sqlite.insert_user. destruct (existsb _ (users db)); [discriminate|].
  intros H. injection H as _ <-. split; reflexivity.
Qed.

Lemma insert_tag_counters (uid : Z) (name : string) (id : Z) (db db' : DB) :
  Sqlite.insert_tag uid name db = inr (id, db') ->
  seq_users db' = seq_users db /\ seq_items db' = seq_items db.
Proof.
  unfold Sqlite.insert_tag. destruct (existsb _ (tags db)); [discriminate|].
  destruct (foreign_keys db && _); [discriminate|].
  intros H. injection H as _ <-. split; reflexivity.
Qed.

(** When the statements go through. *)
Lemma insert_user_succeeds (e d : string) (now : Z) (db : DB) :
  (forall u, In u (users db) -> User.email u <> e) ->
  exists id db', Sqlite.insert_user e d now db = inr (id, db').
Proof.
  intros H. unfold Sqlite.insert_user.
  destruct (existsb _ (users db)) eqn:E; [|eauto].
  apply existsb_exists in E. destruct E as (u & Hu & E).
  apply String.eqb_eq in E. now destruct (H u Hu).
Qed.

Lemma insert_item_succeeds (uid : Z) (ti k st pr : string) (n : option string)
    (now : Z) (db : DB) :
  user_exists db uid ->
  exists id db', Sqlite.insert_item uid ti k st pr n now db = inr (id, db').
Proof.
  intros H. unfold Sqlite.insert_item.
  rewrite (has_user_present db uid H), andb_false_r. eauto.
Qed.

Lemma insert_tag_succeeds (uid : Z) (name : string) (db : DB) :
  ~ tag_named db uid name -> user_exists db uid ->
  exists id db', Sqlite.insert_tag uid name db = inr (id, db').
Proof.
  intros Hn Hu. unfold Sqlite.insert_tag.
  destruct (existsb _ (tags db)) eqn:E;
    [apply existsb_tag_named in E; contradiction|].
  rewrite (has_user_present db uid Hu), andb_false_r. eauto.
Qed.

Lemma insert_item_tag_succeeds (iid tid : Z) (db : DB) :
  ~ linked db iid tid -> item_exists db iid -> tag_exists db tid ->
  exists db', Sqlite.insert_item_tag iid tid db = inr (tt, db').
Proof.
  intros Hn (i & Hi & Ei) (t & Ht & Et). unfold Sqlite.insert_item_tag.
  rewrite (existsb_pair_absent _ _ Hn).
  unfold Sqlite.has_item, Sqlite.has_tag.
  rewrite (existsb_key_present Item.id iid _ i Hi Ei).
  rewrite (existsb_key_present Tag.id tid _ t Ht Et).
  simpl. rewrite andb_false_r. eauto.
Qed.

Lemma last_exists {A} (l : list A) (x : A) : In x (l ++ [x]).
Proof. apply in_or_app. right. now left. Qed.

(** The first unit of work of the seed populator. *)
Lemma seed_users_step (clk : SeedClock) (db : DB) :
  consistent db -> ~ seed_email_taken db ->
  exists db1,
    (user1 <- Sqlite.insert_user "alice@example.com" "Alice" (t_user1 clk) ;;
     user2 <- Sqlite.insert_user "bob@example.com" "Bob" (t_user2 clk) ;;
     ret (user1, user2)) db
    = inr ((seq_users db + 1, seq_users db + 2), db1)
    /\ consistent db1 /\ grows db db1
    /\ seq_users db1 = seq_users db + 2
    /\ users db1 = users db ++ seeded_users clk (seq_users db + 1)
                                            (seq_users db + 2)
    /\ items db1 = items db /\ tags db1 = tags db
    /\ item_tag db1 = item_tag db
    /\ seq_items db1 = seq_items db /\ seq_tags db1 = seq_tags db.
Proof.
  intros Hc Hfree.
  destruct (insert_user_succeeds "alice@example.com" "Alice" (t_user1 clk) db)
    as (u1 & d1 & E1).
  { intros u Hu E. apply Hfree. exists u. auto. }
  destruct (insert_user_consistent _ _ _ _ _ _ Hc E1)
    as (C1 & G1 & S1 & N1 & U1 & I1 & T1 & L1).
  assert (Hs1 : seq_users d1 = seq_users db + 1) by lia.
  clear S1. subst u1.
  destruct (insert_user_succeeds "bob@example.com" "Bob" (t_user2 clk) d1)
    as (u2 & d2 & E2).
  { intros u Hu E. rewrite U1 in Hu. apply in_app_or in Hu.
    destruct Hu as [Hu|[<-|[]]]; [|discriminate].
    apply Hfree. exists u. auto. }
  destruct (insert_user_consistent _ _ _ _ _ _ C1 E2)
    as (C2 & G2 & S2 & N2 & U2 & I2 & T2 & L2).
  assert (Hs2 : seq_users d2 = seq_users db + 2) by lia.
  assert (Eu2 : u2 = seq_users db + 2) by lia.
  clear S2 N2. subst u2.
  exists d2. unfold bind. rewrite E1, E2. unfold ret.
  split; [reflexivity|]. split; [exact C2|].
  split; [eapply grows_trans; eauto|]. split; [lia|].
  destruct (insert_user_counters _ _ _ _ _ _ E1) as [Q1 Q2].
  destruct (insert_user_counters _ _ _ _ _ _ E2) as [Q3 Q4].
  split; [rewrite U2, U1, <- app_assoc; reflexivity|].
  repeat split; congruence.
Qed.

Lemma tag_named_snoc (db db' : DB) (t : Tag.t) (uid : Z) (name : string) :
  tags db' = tags db ++ [t] ->
  ~ tag_named db uid name ->
  Tag.user_id t <> uid \/ Tag.name t <> name ->
  ~ tag_named db' uid name.
Proof.
  intros E Hn Hd H.
  apply (tag_named_app db db' [t] uid name E) in H.
  destruct H as [H|(x & [<-|[]] & Hu & Hm)]; [contradiction|].
  destruct Hd; contradiction.
Qed.

(** The second unit of work: the three tags of the two new users. *)
Lemma seed_tags_step (db : DB) (u1 u2 : Z) :
  consistent db ->
  user_exists db u1 -> user_exists db u2 -> u1 <> u2 ->
  u1 <= seq_users db -> u2 <= seq_users db ->
  (forall t, In t (tags db) -> Tag.user_id t <> u1 /\ Tag.user_id t <> u2) ->
  exists db2,
    (tag1 <- Sqlite.insert_tag u1 "urgent" ;;
     tag2 <- Sqlite.insert_tag u1 "work" ;;
     tag3 <- Sqlite.insert_tag u2 "personal" ;;
     ret (tag1, tag2, tag3)) db
    = inr ((seq_tags db + 1, seq_tags db + 2, seq_tags db + 3), db2)
    /\ consistent db2 /\ grows db db2
    /\ seq_tags db2 = seq_tags db + 3
    /\ users db2 = users db /\ items db2 = items db
    /\ tags db2 = tags db ++ seeded_tags u1 u2 (seq_tags db + 1)
                                         (seq_tags db + 2) (seq_tags db + 3)
    /\ item_tag db2 = item_tag db
    /\ seq_users db2 = seq_users db /\ seq_items db2 = seq_items db.
Proof.
  intros Hc X1 X2 Hne B1 B2 Hfree.
  assert (N0 : forall n, ~ tag_named db u1 n /\ ~ tag_named db u2 n).
  { intros n. split; intros (t & Ht & Hu & _); destruct (Hfree t Ht); auto. }
  destruct (insert_tag_succeeds u1 "urgent" db) as (g1 & d1 & E1);
    [apply N0 | exact X1 |].
  destruct (insert_tag_consistent _ _ _ _ _ Hc B1 E1)
    as (C1 & G1 & S1 & M1 & U1 & I1 & T1 & L1).
  assert (Hs1 : seq_tags d1 = seq_tags db + 1) by lia. clear S1. subst g1.
  destruct (insert_tag_succeeds u1 "work" d1) as (g2 & d2 & E2).
  { eapply tag_named_snoc; [exact T1 | apply N0 | right; discriminate]. }
  { eapply user_exists_same; eauto. }
  assert (B1' : u1 <= seq_users d1) by (destruct G1 as (?&_); lia).
  destruct (insert_tag_consistent _ _ _ _ _ C1 B1' E2)
    as (C2 & G2 & S2 & M2 & U2 & I2 & T2 & L2).
  assert (Hs2 : seq_tags d2 = seq_tags db + 2) by lia.
  assert (Eg2 : g2 = seq_tags db + 2) by lia. clear S2 M2. subst g2.
  destruct (insert_tag_succeeds u2 "personal" d2) as (g3 & d3 & E3).
  { eapply tag_named_snoc; [exact T2 | | right; discriminate].
    eapply tag_named_snoc; [exact T1 | apply N0 | right; discriminate]. }
  { eapply user_exists_same; [|exact X2]. congruence. }
  assert (B2' : u2 <= seq_users d2)
    by (destruct G1 as (?&_), G2 as (?&_); lia).
  destruct (insert_tag_consistent _ _ _ _ _ C2 B2' E3)
    as (C3 & G3 & S3 & M3 & U3 & I3 & T3 & L3).
  assert (Hs3 : seq_tags d3 = seq_tags db + 3) by lia.
  assert (Eg3 : g3 = seq_tags db + 3) by lia. clear S3 M3. subst g3.
  exists d3. unfold bind. rewrite E1, E2, E3. unfold ret.
  split; [reflexivity|]. split; [exact C3|].
  split; [eapply grows_trans; [eapply grows_trans|]; eauto|].
  split; [exact Hs3|].
  destruct (insert_tag_counters _ _ _ _ _ E1) as [Q1 Q2].
  destruct (insert_tag_counters _ _ _ _ _ E2) as [Q3 Q4].
  destruct (insert_tag_counters _ _ _ _ _ E3) as [Q5 Q6].
  split; [congruence|]. split; [congruence|].
  split; [rewrite T3, T2, T1, <- !app_assoc; reflexivity|].
  repeat split; congruence.
Qed.

Lemma not_linked_snoc (db db' : DB) (p q : Z * Z) :
  item_tag db' = item_tag db ++ [q] ->
  ~ In p (item_tag db) -> p <> q -> ~ In p (item_tag db').
Proof.
  intros E Hn Hne H. rewrite E in H. apply in_app_or in H.
  destruct H as [H|[H|[]]]; [contradiction | congruence].
Qed.

(** The third unit of work: the three items and their four links. *)
Lemma seed_items_step (clk : SeedClock) (db : DB) (u1 u2 g1 g2 g3 : Z) :
  consistent db ->
  user_exists db u1 -> user_exists db u2 ->
  u1 <= seq_users db -> u2 <= seq_users db ->
  tag_exists db g1 -> tag_exists db g2 -> tag_exists db g3 ->
  g1 <= seq_tags db -> g2 <= seq_tags db -> g3 <= seq_tags db ->
  g1 <> g2 ->
  exists db3,
    (item1 <- Sqlite.insert_item u1 "Finish report"
                (ItemKind.value ItemKind.book)
                (ItemStatus.value ItemStatus.reading)
                (ItemPriority.value ItemPriority.high)
                (Some "Due next week") (t_item1 clk) ;;
     item2 <- Sqlite.insert_item u1 "Buy groceries"
                (ItemKind.value ItemKind.book)
                (ItemStatus.value ItemStatus.reading)
                (ItemPriority.value ItemPriority.high)
                (Some "Milk, Bread, Eggs") (t_item2 clk) ;;
     item3 <- Sqlite.insert_item u2 "Call mom"
                (ItemKind.value ItemKind.book)
                (ItemStatus.value ItemStatus.reading)
                (ItemPriority.value ItemPriority.high)
                (Some "Sunday evening") (t_item3 clk) ;;
     Sqlite.insert_item_tag item1 g1 ;;;
     Sqlite.insert_item_tag item1 g2 ;;;
     Sqlite.insert_item_tag item2 g2 ;;;
     Sqlite.insert_item_tag item3 g3) db
    = inr (tt, db3)
    /\ consistent db3 /\ grows db db3
    /\ users db3 = users db /\ tags db3 = tags db
    /\ items db3
       = items db ++ seeded_items clk u1 u2 (seq_items db + 1)
                                  (seq_items db + 2) (seq_items db + 3)
    /\ item_tag db3
       = item_tag db ++ seeded_links (seq_items db + 1) (seq_items db + 2)
                                     (seq_items db + 3) g1 g2 g3.
Proof.
  intros Hc X1 X2 B1 B2 Y1 Y2 Y3 A1 A2 A3 Hg.
  assert (Hold : forall p, In p (item_tag db) -> fst p <= seq_items db)
    by (intros p Hp; now apply Hc).
  (* the three items *)
  destruct (insert_item_succeeds u1 "Finish report"
              (ItemKind.value ItemKind.book)
              (ItemStatus.value ItemStatus.reading)
              (ItemPriority.value ItemPriority.high)
              (Some "Due next week") (t_item1 clk) db X1) as (i1 & d1 & E1).
  destruct (insert_item_consistent _ _ _ _ _ _ _ _ _ _ Hc B1 E1)
    as (C1 & G1 & S1 & M1 & U1 & I1 & T1 & L1).
  assert (Hs1 : seq_items d1 = seq_items db + 1) by lia. clear S1. subst i1.
  assert (X1' : user_exists d1 u1) by (eapply user_exists_same; eauto).
  assert (B1' : u1 <= seq_users d1) by (destruct G1 as (?&_); lia).
  destruct (insert_item_succeeds u1 "Buy groceries"
              (ItemKind.value ItemKind.book)
              (ItemStatus.value ItemStatus.reading)
              (ItemPriority.value ItemPriority.high)
              (Some "Milk, Bread, Eggs") (t_item2 clk) d1 X1')
    as (i2 & d2 & E2).
  destruct (insert_item_consistent _ _ _ _ _ _ _ _ _ _ C1 B1' E2)
    as (C2 & G2 & S2 & M2 & U2 & I2 & T2 & L2).
  assert (Hs2 : seq_items d2 = seq_items db + 2) by lia.
  assert (Ei2 : i2 = seq_items db + 2) by lia. clear S2 M2. subst i2.
  assert (X2' : user_exists d2 u2)
    by (eapply user_exists_same; [|exact X2]; congruence).
  assert (B2' : u2 <= seq_users d2)
    by (destruct G1 as (?&_), G2 as (?&_); lia).
  destruct (insert_item_succeeds u2 "Call mom"
              (ItemKind.value ItemKind.book)
              (ItemStatus.value ItemStatus.reading)
              (ItemPriority.value ItemPriority.high)
              (Some "Sunday evening") (t_item3 clk) d2 X2')
    as (i3 & d3 & E3).
  destruct (insert_item_consistent _ _ _ _ _ _ _ _ _ _ C2 B2' E3)
    as (C3 & G3 & S3 & M3 & U3 & I3 & T3 & L3).
  assert (Hs3 : seq_items d3 = seq_items db + 3) by lia.
  assert (Ei3 : i3 = seq_items db + 3) by lia. clear S3 M3. subst i3.
  assert (Hitems : items d3
                   = items db ++ seeded_items clk u1 u2 (seq_items db + 1)
                                   (seq_items db + 2) (seq_items db + 3))
    by (rewrite I3, I2, I1, <- !app_assoc; reflexivity).
  assert (Htags3 : tags d3 = tags db) by congruence.
  assert (Hlinks3 : item_tag d3 = item_tag db) by congruence.
  assert (Hseqt : seq_tags db <= seq_tags d3)
    by (destruct G1 as (_&_&?&_), G2 as (_&_&?&_), G3 as (_&_&?&_); lia).
  assert (Hex : forall k, In k [seq_items db + 1; seq_items db + 2;
                                seq_items db + 3] ->
                          forall d, items d = items d3 -> item_exists d k).
  { intros k Hk d Ed. unfold item_exists. rewrite Ed, Hitems.
    unfold seeded_items. simpl in Hk.
    destruct Hk as [<-|[<-|[<-|[]]]].
    - eexists. split; [apply in_or_app; right; left; reflexivity|].
      reflexivity.
    - eexists. split; [apply in_or_app; right; right; left; reflexivity|].
      reflexivity.
    - eexists.
      split; [apply in_or_app; right; right; right; left; reflexivity|].
      reflexivity. }
  assert (Hnew : forall k g, seq_items db < k -> ~ In (k, g) (item_tag db)).
  { intros k g Hk Hin. specialize (Hold _ Hin). simpl in Hold. lia. }
  (* the four links *)
  destruct (insert_item_tag_succeeds (seq_items db + 1) g1 d3) as (d4 & E4).
  { unfold linked. rewrite Hlinks3. apply Hnew. lia. }
  { apply Hex; [simpl; auto | reflexivity]. }
  { eapply tag_exists_same; [|exact Y1]. exact Htags3. }
  destruct (insert_item_tag_consistent (seq_items db + 1) g1 d3 d4 C3
              ltac:(lia) ltac:(lia) E4)
    as (C4 & G4 & U4 & I4 & T4 & L4).
  destruct (insert_item_tag_succeeds (seq_items db + 1) g2 d4) as (d5 & E5).
  { unfold linked. eapply not_linked_snoc; [exact L4 | | congruence].
    rewrite Hlinks3. apply Hnew. lia. }
  { apply Hex; [simpl; auto | exact I4]. }
  { eapply tag_exists_same; [|exact Y2]. congruence. }
  assert (Hs4 : seq_items d4 = seq_items d3 /\ seq_tags d3 <= seq_tags d4).
  { unfold Sqlite.insert_item_tag in E4.
    destruct (existsb _ (item_tag d3)); [discriminate|].
    destruct (foreign_keys d3 && _); [discriminate|].
    injection E4 as <-. simpl. lia. }
  destruct (insert_item_tag_consistent (seq_items db + 1) g2 d4 d5 C4
              ltac:(lia) ltac:(lia) E5)
    as (C5 & G5 & U5 & I5 & T5 & L5).
  assert (Hs5 : seq_items d5 = seq_items d4 /\ seq_tags d4 <= seq_tags d5).
  { unfold Sqlite.insert_item_tag in E5.
    destruct (existsb _ (item_tag d4)); [discriminate|].
    destruct (foreign_keys d4 && _); [discriminate|].
    injection E5 as <-. simpl. lia. }
  destruct (insert_item_tag_succeeds (seq_items db + 2) g2 d5) as (d6 & E6).
  { unfold linked.
    eapply not_linked_snoc; [exact L5 | | intros H; injection H; lia].
    eapply not_linked_snoc; [exact L4 | | intros H; injection H; lia].
    rewrite Hlinks3. apply Hnew. lia. }
  { apply Hex; [simpl; auto | congruence]. }
  { eapply tag_exists_same; [|exact Y2]. congruence. }
  destruct (insert_item_tag_consistent (seq_items db + 2) g2 d5 d6 C5
              ltac:(lia) ltac:(lia) E6)
    as (C6 & G6 & U6 & I6 & T6 & L6).
  assert (Hs6 : seq_items d6 = seq_items d5 /\ seq_tags d5 <= seq_tags d6).
  { unfold Sqlite.insert_item_tag in E6.
    destruct (existsb _ (item_tag d5)); [discriminate|].
    destruct (foreign_keys d5 && _); [discriminate|].
    injection E6 as <-. simpl. lia. }
  destruct (insert_item_tag_succeeds (seq_items db + 3) g3 d6) as (d7 & E7).
  { unfold linked.
    eapply not_linked_snoc; [exact L6 | | intros H; injection H; lia].
    eapply not_linked_snoc; [exact L5 | | intros H; injection H; lia].
    eapply not_linked_snoc; [exact L4 | | intros H; injection H; lia].
    rewrite Hlinks3. apply Hnew. lia. }
  { apply Hex; [simpl; auto | congruence]. }
  { eapply tag_exists_same; [|exact Y3]. congruence. }
  destruct (insert_item_tag_consistent (seq_items db + 3) g3 d6 d7 C6
              ltac:(lia) ltac:(lia) E7)
    as (C7 & G7 & U7 & I7 & T7 & L7).
  exists d7. unfold bind. rewrite E1, E2, E3, E4, E5, E6, E7.
  split; [reflexivity|]. split; [exact C7|]. split.
  { repeat (eapply grows_trans; [|eassumption]). apply grows_refl. }
  split; [congruence|]. split; [congruence|]. split; [congruence|].
  rewrite L7, L6, L5, L4, Hlinks3, <- !app_assoc. reflexivity.
Qed.

(** The two outcomes of the seed route on a consistent store. *)
Lemma create_data_for_tests_cases (clk : SeedClock) (db : DB) :
  consistent db ->
  let u := seq_users db in
  let g := seq_tags db in
  let i := seq_items db in
  let after := snd (test_router.create_data_for_tests clk db) in
  (seed_email_taken db ->
   test_router.create_data_for_tests clk db
   = (Conflict "Item already exists", db))
  /\ (~ seed_email_taken db ->
      fst (test_router.create_data_for_tests clk db)
        = {| status_code := 200; body := Literal "success" |}
      /\ users after = users db ++ seeded_users clk (u + 1) (u + 2)
      /\ tags after
         = tags db ++ seeded_tags (u + 1) (u + 2) (g + 1) (g + 2) (g + 3)
      /\ items after
         = items db
           ++ seeded_items clk (u + 1) (u + 2) (i + 1) (i + 2) (i + 3)
      /\ item_tag after
         = item_tag db
           ++ seeded_links (i + 1) (i + 2) (i + 3) (g + 1) (g + 2) (g + 3)
      /\ consistent after /\ grows db after).
Proof.
  intros Hc. cbv zeta. split.
  - intros Ht. unfold test_router.create_data_for_tests.
    destruct (create_seed_data_conflict clk db Ht) as [[m] ->]. reflexivity.
  - intros Hfree.
    destruct (seed_users_step clk db Hc Hfree)
      as (d1 & E1 & C1 & G1 & S1 & U1 & I1 & T1 & L1 & Q1 & Q2).
    destruct (seed_tags_step d1 (seq_users db + 1) (seq_users db + 2))
      as (d2 & E2 & C2 & G2 & S2 & U2 & I2 & T2 & L2 & Q3 & Q4);
      try assumption; try lia.
    { exists (User.mk (seq_users db + 1) "alice@example.com" "Alice"
                      (Some (t_user1 clk))).
      split; [|reflexivity]. rewrite U1. apply in_or_app. right. now left. }
    { exists (User.mk (seq_users db + 2) "bob@example.com" "Bob"
                      (Some (t_user2 clk))).
      split; [|reflexivity]. rewrite U1. apply in_or_app. right.
      right. now left. }
    { intros t Ht. rewrite T1 in Ht.
      destruct Hc as [_ (_ & _ & _ & _ & _ & Bt & _)].
      destruct (Bt t Ht). lia. }
    destruct (seed_items_step clk d2 (seq_users db + 1) (seq_users db + 2)
                (seq_tags d1 + 1) (seq_tags d1 + 2) (seq_tags d1 + 3))
      as (d3 & E3 & C3 & G3 & U3 & T3 & I3 & L3);
      try assumption; try lia.
    { exists (User.mk (seq_users db + 1) "alice@example.com" "Alice"
                      (Some (t_user1 clk))).
      split; [|reflexivity]. rewrite U2, U1. apply in_or_app. right.
      now left. }
    { exists (User.mk (seq_users db + 2) "bob@example.com" "Bob"
                      (Some (t_user2 clk))).
      split; [|reflexivity]. rewrite U2, U1. apply in_or_app. right.
      right. now left. }
    { eexists. split; [rewrite T2; apply in_or_app; right; left; reflexivity|].
      reflexivity. }
    { eexists.
      split; [rewrite T2; apply in_or_app; right; right; left; reflexivity|].
      reflexivity. }
    { eexists.
      split; [rewrite T2; apply in_or_app; right; right; right; left;
              reflexivity|].
      reflexivity. }
    unfold test_router.create_data_for_tests, Service.create_seed_data.
    rewrite E1, E2. unfold commit. rewrite E3. cbn [fst snd].
    split; [reflexivity|]. split; [congruence|].
    split; [rewrite T3, T2, T1, Q2; reflexivity|].
    split; [rewrite I3, I2, I1, Q4, Q1; reflexivity|].
    split; [rewrite L3, L2, L1, Q4, Q1, Q2; reflexivity|].
    split; [exact C3|].
    eapply grows_trans; [eapply grows_trans|]; eassumption.
Qed.

(** X15. On a store that satisfies the invariant the seed populator is
    all or nothing, although it commits three times.  If one of the two
    seed emails is stored, the route answers 400 "Item already exists"
    and the database is as it was.  Otherwise it answers 200 "success"
    and exactly the two users, three tags and three items are appended,
    with the next ids of their tables, and the association table gains
    exactly the four links, in whatever order the flush wrote them; no
    later commit can fail, so no half-seeded database is ever left. *)
Theorem seed_is_all_or_nothing (clk : SeedClock) (db : DB) :
  consistent db ->
  let u := seq_users db in
  let g := seq_tags db in
  let i := seq_items db in
  let after := snd (test_router.create_data_for_tests clk db) in
  (seed_email_taken db ->
   test_router.create_data_for_tests clk db
   = (Conflict "Item already exists", db))
  /\ (~ seed_email_taken db ->
      fst (test_router.create_data_for_tests clk db)
        = {| status_code := 200; body := Literal "success" |}
      /\ users after = users db ++ seeded_users clk (u + 1) (u + 2)
      /\ tags after
         = tags db ++ seeded_tags (u + 1) (u + 2) (g + 1) (g + 2) (g + 3)
      /\ items after
         = items db
           ++ seeded_items clk (u + 1) (u + 2) (i + 1) (i + 2) (i + 3)
      /\ Permutation (item_tag after)
           (item_tag db
            ++ seeded_links (i + 1) (i + 2) (i + 3) (g + 1) (g + 2) (g + 3))
      /\ consistent after).
Proof.
  intros Hc. cbv zeta.
  destruct (create_data_for_tests_cases clk db Hc) as [Htaken Hfree].
  split; [exact Htaken|]. intros H.
  destruct (Hfree H) as (R & U & T & I & L & C & _).
  split; [exact R|]. split; [exact U|]. split; [exact T|].
  split; [exact I|]. split; [now rewrite L | exact C].
Qed.

(** ** Every call keeps the invariant *)

Lemma step_ok_refl (db : DB) : consistent db -> step_ok db db.
Proof.
  intros H. split; [exact H|]. split; [apply grows_refl|].
  repeat split; intros; now left.
Qed.

Lemma fresh_of_incl (db db' : DB) :
  incl (users db') (users db) -> incl (items db') (items db) ->
  incl (tags db') (tags db) -> adds_only_fresh db db'.
Proof. intros Hu Hi Ht. repeat split; intros x Hx; left; auto. Qed.

Lemma delete_by_id_shrinks (tbl : table) (id : Z) (db db' : DB) :
  Sqlite.delete_by_id tbl id db = inr (tt, db') ->
  incl (users db') (users db) /\ incl (items db') (items db)
  /\ incl (tags db') (tags db).
Proof.
  unfold Sqlite.delete_by_id. destruct tbl.
  - destruct (foreign_keys db && Sqlite.has_user db id && _); [discriminate|].
    intros H. injection H as <-. simpl.
    repeat split; try apply incl_refl. apply incl_filter.
  - intros H. injection H as <-. simpl.
    repeat split; try apply incl_refl. apply incl_filter.
  - intros H. injection H as <-. simpl.
    repeat split; try apply incl_refl. apply incl_filter.
Qed.

Lemma delete_model_step {T} `{Mapped T} (id : Z) (db : DB) :
  consistent db -> step_ok db (db_of (Service.delete_model_by_id (T:=T) id db)).
Proof.
  intros Hc. unfold Service.delete_model_by_id, commit.
  destruct (Sqlite.delete_by_id tablename id db) as [e|[[] db']] eqn:E;
    [now apply step_ok_refl|]. simpl.
  destruct (delete_by_id_consistent _ _ _ _ Hc E) as [C G].
  destruct (delete_by_id_shrinks _ _ _ _ E) as (Iu & Ii & It).
  split; [exact C|]. split; [exact G|]. now apply fresh_of_incl.
Qed.

Lemma create_user_step (user : UserBaseSchema) (now : Z) (db : DB) :
  consistent db -> step_ok db (snd (user_router.create_user user now db)).
Proof.
  intros Hc. unfold user_router.create_user, Service.create_model, commit.
  simpl flush_new.
  destruct (Sqlite.insert_user (us_email user) (us_display_name user) now db)
    as [[m]|[id db']] eqn:E; [now apply step_ok_refl|]. simpl.
  destruct (insert_user_consistent _ _ _ _ _ _ Hc E)
    as (C & G & _ & N & U & I & T & _).
  split; [exact C|]. split; [exact G|].
  repeat split; intros x Hx.
  - rewrite U in Hx. apply in_app_or in Hx.
    destruct Hx as [Hx|[<-|[]]]; [now left | right; simpl; lia].
  - left. congruence.
  - left. congruence.
Qed.

Lemma found_user_bounded (db : DB) (user_id : Z) (u : User.t) :
  consistent db ->
  Service.get_model_by_id (T:=User.t) user_id db = Some u ->
  user_id <= seq_users db.
Proof.
  intros [_ (_ & _ & _ & Bu & _)] E.
  apply (find_key_sound User.id) in E. destruct E as [Hin <-]. now apply Bu.
Qed.

Lemma create_item_step (i : ItemBaseSchema) (user_id now : Z) (db : DB) :
  consistent db -> step_ok db (snd (item_router.create_item i user_id now db)).
Proof.
  intros Hc. unfold item_router.create_item.
  destruct (Service.get_model_by_id (T:=User.t) user_id db) as [u|] eqn:Eu;
    [|now apply step_ok_refl].
  pose proof (found_user_bounded db user_id u Hc Eu) as Hb.
  unfold Service.create_model, commit. simpl flush_new.
  destruct (Sqlite.insert_item user_id _ _ _ _ _ now db)
    as [[m]|[id db']] eqn:E; [now apply step_ok_refl|]. simpl.
  destruct (insert_item_consistent _ _ _ _ _ _ _ _ _ _ Hc Hb E)
    as (C & G & _ & N & U & I & T & _).
  split; [exact C|]. split; [exact G|].
  repeat split; intros x Hx.
  - left. congruence.
  - rewrite I in Hx. apply in_app_or in Hx.
    destruct Hx as [Hx|[<-|[]]]; [now left | right; simpl; lia].
  - left. congruence.
Qed.

Lemma create_tag_step_ok (user_id : Z) (tag : TagBaseSchema) (now : Z) (db : DB) :
  consistent db -> step_ok db (snd (tag_router.create_tag user_id tag now db)).
Proof.
  intros Hc. unfold tag_router.create_tag.
  destruct (Service.get_model_by_id (T:=User.t) user_id db) as [u|] eqn:Eu;
    [|now apply step_ok_refl].
  pose proof (found_user_bounded db user_id u Hc Eu) as Hb.
  unfold Service.create_model, commit. simpl flush_new.
  destruct (Sqlite.insert_tag user_id (ts_name tag) db)
    as [[m]|[id db']] eqn:E; [now apply step_ok_refl|]. simpl.
  destruct (insert_tag_consistent _ _ _ _ _ Hc Hb E)
    as (C & G & _ & N & U & I & T & _).
  split; [exact C|]. split; [exact G|].
  repeat split; intros x Hx.
  - left. congruence.
  - left. congruence.
  - rewrite T in Hx. apply in_app_or in Hx.
    destruct Hx as [Hx|[<-|[]]]; [now left | right; simpl; lia].
Qed.

Lemma link_tag_item_step_ok (tag_id item_id : Z) (db : DB) :
  consistent db -> step_ok db (snd (tag_router.link_tag_item tag_id item_id db)).
Proof.
  intros Hc. unfold tag_router.link_tag_item.
  destruct (Service.get_model_by_id (T:=Tag.t) tag_id db) as [t|] eqn:Et;
    [|now apply step_ok_refl].
  destruct (Service.get_model_by_id (T:=Item.t) item_id db) as [i|] eqn:Ei;
    [|now apply step_ok_refl].
  apply (find_key_sound Tag.id) in Et. destruct Et as [Ht _].
  apply (find_key_sound Item.id) in Ei. destruct Ei as [Hi _].
  unfold Service.add_tag_to_item, commit.
  destruct (Sqlite.insert_item_tag (Item.id i) (Tag.id t) db)
    as [[m]|[[] db']] eqn:E; [now apply step_ok_refl|]. simpl.
  assert (Bi : Item.id i <= seq_items db) by now apply Hc.
  assert (Bt : Tag.id t <= seq_tags db) by now apply Hc.
  destruct (insert_item_tag_consistent _ _ _ _ Hc Bi Bt E)
    as (C & G & U & I & T & _).
  split; [exact C|]. split; [exact G|].
  repeat split; intros x Hx; left; congruence.
Qed.

Lemma unlink_tag_item_step_ok (tag_id item_id : Z) (db : DB) :
  consistent db ->
  step_ok db (snd (tag_router.unlink_tag_item tag_id item_id db)).
Proof.
  intros Hc. unfold tag_router.unlink_tag_item.
  destruct (Service.get_model_by_id (T:=Tag.t) tag_id db) as [t|];
    [|now apply step_ok_refl].
  destruct (Service.get_model_by_id (T:=Item.t) item_id db) as [i|];
    [|now apply step_ok_refl].
  unfold Service.remove_tag_from_item, commit.
  destruct (Sqlite.delete_item_tag (Item.id i) (Tag.id t) db)
    as [e|[[] db']] eqn:E; [discriminate E|]. simpl.
  destruct (delete_item_tag_consistent _ _ _ _ Hc E) as [C G].
  split; [exact C|]. split; [exact G|].
  unfold Sqlite.delete_item_tag in E. injection E as <-.
  repeat split; intros x Hx; now left.
Qed.

Lemma seed_email_taken_dec (db : DB) :
  seed_email_taken db \/ ~ seed_email_taken db.
Proof.
  unfold seed_email_taken.
  destruct (existsb (fun u => (User.email u =? "alice@example.com")%string
                              || (User.email u =? "bob@example.com")%string)
                    (users db)) eqn:E.
  - left. apply existsb_exists in E. destruct E as (u & Hu & E).
    exists u. split; [exact Hu|]. apply orb_true_iff in E.
    destruct E as [E|E]; apply String.eqb_eq in E; auto.
  - right. intros (u & Hu & H). apply Bool.not_true_iff_false in E. apply E.
    apply existsb_exists. exists u. split; [exact Hu|]. apply orb_true_iff.
    destruct H as [H|H]; [left|right]; now apply String.eqb_eq.
Qed.

Lemma create_data_for_tests_step (clk : SeedClock) (db : DB) :
  consistent db ->
  step_ok db (snd (test_router.create_data_for_tests clk db)).
Proof.
  intros Hc.
  destruct (create_data_for_tests_cases clk db Hc) as [Htaken Hfree].
  destruct (seed_email_taken_dec db) as [H|H].
  - rewrite (Htaken H). now apply step_ok_refl.
  - destruct (Hfree H) as (_ & U & T & I & _ & C & G).
    split; [exact C|]. split; [exact G|].
    repeat split; intros x Hx.
    + rewrite U in Hx. apply in_app_or in Hx.
      destruct Hx as [Hx|[<-|[<-|[]]]]; [now left | right | right];
        simpl; lia.
    + rewrite I in Hx. apply in_app_or in Hx.
      destruct Hx as [Hx|[<-|[<-|[<-|[]]]]]; [now left | right ..];
        simpl; lia.
    + rewrite T in Hx. apply in_app_or in Hx.
      destruct Hx as [Hx|[<-|[<-|[<-|[]]]]]; [now left | right ..];
        simpl; lia.
Qed.

Lemma serve_step (c : call) (db : DB) :
  consistent db -> step_ok db (snd (serve c db)).
Proof.
  intros Hc. destruct c; unfold serve.
  - now apply create_user_step.
  - unfold user_router.delete_user.
    pose proof (delete_model_step (T:=User.t) user_id db Hc) as H.
    destruct (Service.delete_model_by_id (T:=User.t) user_id db); exact H.
  - now apply create_item_step.
  - unfold item_router.delete_item.
    pose proof (delete_model_step (T:=Item.t) item_id db Hc) as H.
    destruct (Service.delete_model_by_id (T:=Item.t) item_id db); exact H.
  - now apply create_tag_step_ok.
  - now apply link_tag_item_step_ok.
  - now apply unlink_tag_item_step_ok.
  - unfold tag_router.delete_tag.
    pose proof (delete_model_step (T:=Tag.t) tag_id db Hc) as H.
    destruct (Service.delete_model_by_id (T:=Tag.t) tag_id db); exact H.
  - now apply create_data_for_tests_step.
Qed.

Lemma create_all_consistent (fk : bool) : consistent (create_all fk).
Proof.
  split.
  - unfold keys_unique. simpl. repeat split; constructor.
  - unfold ids_bounded. simpl. repeat split; try lia; intros ? [].
Qed.

Lemma seeded_consistent : consistent seeded.
Proof.
  exact (proj1 (serve_step (CreateDataForTests seed_clock) (create_all false)
                  (create_all_consistent false))).
Qed.

(** X16. Every database the application can reach from the tables it
    creates satisfies the invariant: ids, emails, a user's tag names and
    association pairs are unique, and no id, stored or referenced,
    exceeds the counter of its table.  The pragma never changes. *)
Theorem reachable_is_consistent (fk : bool) (db : DB) :
  reachable fk db -> consistent db /\ foreign_keys db = fk.
Proof.
  induction 1 as [|db c Hr [IH Hfk]].
  - split; [apply create_all_consistent | reflexivity].
  - destruct (serve_step c db IH) as (C & (_ & _ & _ & G) & _).
    split; [exact C | congruence].
Qed.

Lemma reachable_is_consistent_witness :
  consistent seeded /\ foreign_keys seeded = false.
Proof.
  apply (reachable_is_consistent false seeded).
  exact (reachable_step false (create_all false)
           (CreateDataForTests seed_clock) (reachable_new false)).
Defined.

Lemma run_step (cs : list call) (db : DB) :
  consistent db ->
  consistent (run cs db) /\ grows db (run cs db)
  /\ (forall u, In u (users (run cs db)) ->
        In u (users db) \/ seq_users db < User.id u)
  /\ (forall i, In i (items (run cs db)) ->
        In i (items db) \/ seq_items db < Item.id i)
  /\ (forall t, In t (tags (run cs db)) ->
        In t (tags db) \/ seq_tags db < Tag.id t).
Proof.
  revert db. induction cs as [|c cs IH]; intros db Hc.
  - simpl. split; [exact Hc|]. split; [apply grows_refl|].
    repeat split; intros; now left.
  - unfold run. simpl. fold (run cs (snd (serve c db))).
    destruct (serve_step c db Hc) as (C & G & Fu & Fi & Ft).
    destruct (IH _ C) as (C' & G' & Fu' & Fi' & Ft').
    split; [exact C'|]. split; [eapply grows_trans; eauto|].
    destruct G as (Gu & Gi & Gt & _).
    repeat split; intros x Hx.
    + destruct (Fu' x Hx) as [H|H]; [now apply Fu | right; lia].
    + destruct (Fi' x Hx) as [H|H]; [now apply Fi | right; lia].
    + destruct (Ft' x Hx) as [H|H]; [now apply Ft | right; lia].
Qed.

(** X17. Ids are never reused.  Take a store that satisfies the
    invariant, let any calls follow, in which rows may be deleted: a
    user, item or tag that is stored afterwards and was not stored
    before has an id above every id the store held before, deleted or
    not. *)
Theorem ids_are_never_reused (db : DB) (cs : list call) :
  consistent db ->
  let later := run cs db in
  (forall new old, In new (users later) -> ~ In new (users db) ->
     In old (users db) -> User.id old < User.id new)
  /\ (forall new old, In new (items later) -> ~ In new (items db) ->
        In old (items db) -> Item.id old < Item.id new)
  /\ (forall new old, In new (tags later) -> ~ In new (tags db) ->
        In old (tags db) -> Tag.id old < Tag.id new).
Proof.
  intros Hc. cbv zeta.
  destruct (run_step cs db Hc) as (_ & _ & Fu & Fi & Ft).
  destruct Hc as [_ (_ & _ & _ & Bu & Bi & Bt & _)].
  repeat split; intros new old Hn Hnot Ho.
  - destruct (Fu new Hn) as [H|H]; [contradiction|].
    specialize (Bu old Ho). lia.
  - destruct (Fi new Hn) as [H|H]; [contradiction|].
    destruct (Bi old Ho). lia.
  - destruct (Ft new Hn) as [H|H]; [contradiction|].
    destruct (Bt old Ho). lia.
Qed.

Lemma ids_are_never_reused_witness :
  let later := run [DeleteUser 2;
                    CreateUser {| us_email := "carol@example.com";
                                  us_display_name := "Carol" |} 30] seeded in
  (forall new old, In new (users later) -> ~ In new (users seeded) ->
     In old (users seeded) -> User.id old < User.id new)
  /\ (forall new old, In new (items later) -> ~ In new (items seeded) ->
        In old (items seeded) -> Item.id old < Item.id new)
  /\ (forall new old, In new (tags later) -> ~ In new (tags seeded) ->
        In old (tags seeded) -> Tag.id old < Tag.id new).
Proof.
  apply (ids_are_never_reused seeded
           [DeleteUser 2;
            CreateUser {| us_email := "carol@example.com";
                          us_display_name := "Carol" |} 30]).
  exact seeded_consistent.
Defined.

Lemma link_appends_the_tag_witness :
  let i := Item.mk 2 1 "Buy groceries" "book" "reading" "high"
                   (Some "Milk, Bread, Eggs") (Some 12) None in
  let t := Tag.mk 3 2 "personal" in
  let after := snd (tag_router.link_tag_item 3 2 seeded) in
  fst (tag_router.link_tag_item 3 2 seeded)
    = {| status_code := 200;
         body := OneItem
                   {| item := i;
                      item_tags := item_tags (Service.joinedload seeded i)
                                   ++ [t] |} |}
  /\ (forall j, Item.id j <> 2 ->
        Service.joinedload after j = Service.joinedload seeded j).
Proof.
  apply (link_appends_the_tag seeded
           (Item.mk 2 1 "Buy groceries" "book" "reading" "high"
                    (Some "Milk, Bread, Eggs") (Some 12) None)
           (Tag.mk 3 2 "personal")).
  - apply seeded_consistent.
  - vm_compute. right. now left.
  - vm_compute. right. right. now left.
  - unfold linked. vm_compute. intros H.
    repeat (destruct H as [H|H]; [discriminate|]). exact H.
Defined.

(** ** What a deleted user leaves behind *)



(** ** Wildcards in the title filter *)

Lemma like_one_char (s : string) :
  Sql.pattern_compare "%_%" s = true <-> s <> EmptyString.
Proof.
  rewrite like_percent_iff. split.
  - intros (pre & post & -> & H) E.
    destruct post as [|c post]; [discriminate H|].
    destruct pre; discriminate E.
  - intros H. destruct s as [|c s]; [contradiction|].
    exists EmptyString, (String c s). split; [reflexivity|].
    simpl. apply like_only_percent.
Qed.

Lemma lower_empty_iff (s : string) :
  Sql.lower s = EmptyString <-> s = EmptyString.
Proof. destruct s; simpl; split; congruence. Qed.

Lemma c_str_lower (s : string) :
  Sql.c_str (Sql.lower s) = Sql.lower (Sql.c_str s).
Proof.
  induction s as [|c s IH]; simpl; [reflexivity|].
  rewrite ascii_lower_nul. destruct (c =? Ascii.zero)%char; simpl;
    [reflexivity | now rewrite IH].
Qed.

(** X19. The substring is spliced into the pattern unescaped, so its
    wildcards stay wildcards: the search for the title substring "%"
    selects every stored item, and the search for "_" selects exactly
    the stored items whose title has a character before any NUL. *)
Theorem title_wildcards_are_not_escaped (db : DB) (i : Item.t) :
  (In i (Service.select_items None None None None (Some "%"%string)
           None None db)
   <-> In i (items db))
  /\ (In i (Service.select_items None None None None (Some "_"%string)
              None None db)
      <-> In i (items db) /\ Sql.c_str (Item.title i) <> EmptyString).
Proof.
  rewrite !select_items_untagged.
  unfold passes, Service.column_filters, Service.truthy. simpl.
  rewrite !andb_true_r. unfold Sql.ilike, Service.title_pattern, Sql.like.
  split.
  - split; [tauto|]. intros H. split; [exact H|].
    change (Sql.c_str (Sql.lower ("%" ++ "%" ++ "%")%string))
      with "%%%"%string.
    apply like_percent_iff.
    exists (Sql.c_str (Sql.lower (Item.title i))), EmptyString.
    split; [now rewrite append_empty_r|]. reflexivity.
  - change (Sql.c_str (Sql.lower ("%" ++ "_" ++ "%")%string))
      with "%_%"%string.
    rewrite like_one_char, c_str_lower, lower_empty_iff. reflexivity.
Qed.

(** ** The seed populator on stores that hold rows already *)

Lemma seed_is_all_or_nothing_witness :
  test_router.create_data_for_tests seed_clock seeded
  = (Conflict "Item already exists", seeded)
  /\ (let carol := {| us_email := "carol@example.com";
                      us_display_name := "Carol" |} in
      let db := snd (user_router.create_user carol 5 (create_all false)) in
      let after := snd (test_router.create_data_for_tests seed_clock db) in
      fst (test_router.create_data_for_tests seed_clock db)
        = {| status_code := 200; body := Literal "success" |}
      /\ users after = users db ++ seeded_users seed_clock 2 3
      /\ tags after = tags db ++ seeded_tags 2 3 1 2 3
      /\ items after = items db ++ seeded_items seed_clock 2 3 1 2 3
      /\ Permutation (item_tag after)
           (item_tag db ++ seeded_links 1 2 3 1 2 3)
      /\ consistent after).
Proof.
  split.
  - apply (proj1 (seed_is_all_or_nothing seed_clock seeded seeded_consistent)).
    exists (User.mk 1 "alice@example.com" "Alice" (Some 10)).
    split; [vm_compute; now left | now left].
  - cbv zeta.
    apply (proj2 (seed_is_all_or_nothing seed_clock
                    (snd (user_router.create_user
                            {| us_email := "carol@example.com";
                               us_display_name := "Carol" |} 5
                            (create_all false)))
                    (proj1 (serve_step
                              (CreateUser {| us_email := "carol@example.com";
                                             us_display_name := "Carol" |} 5)
                              (create_all false)
                              (create_all_consistent false))))).
    intros (u & Hu & E). vm_compute in Hu.
    destruct Hu as [<-|[]]. destruct E; discriminate.
Defined.
